(** * Shallow embedding of the grav1synth AV1 OBU parser / rewriter

    The Rust sources live in [src/src/parser.rs], [src/src/parser/*.rs]
    and [src/src/main.rs].  Parsers written with nom's bit-level
    combinators are modelled as functions from a [BitInput] (byte slice
    plus bit offset) to an [outcome]; the mutable parser context
    ([BitstreamParser]) is threaded explicitly and returned also when a
    parse fails, since a Rust [&mut self] keeps the mutations made before
    a [?] returns.

    Integer conventions: byte values are [Z] in [0, 255]; [u8]/[u16]/[u32]
    /[u64]/[usize] values are [Z]; the values read from bit fields never
    exceed their Rust types, so no wrap-around occurs in the modelled
    arithmetic except where it is written out.  A Rust panic (an
    [unwrap] on [None], an out-of-bounds slice, [unreachable!], an
    [ArrayVec] pushed past its capacity, a [usize] subtraction that
    underflows in a debug build) is the outcome [Panic]. *)

From Stdlib Require Import ZArith List Bool Lia.
From Stdlib Require Import Floats.
Import ListNotations.
Open Scope Z_scope.

(* ------------------------------------------------------------------ *)
(** ** Results of nom parsers *)

(** nom's error kinds that the modelled parsers can raise. *)
Inductive ErrorKind : Type :=
| Eof        (* [take] ran out of input *)
| TagBits.   (* [bits::complete::tag] saw a non-matching value *)

Inductive outcome (A : Type) : Type :=
| Ok (a : A)
| Error (e : ErrorKind)
| Panic.
Arguments Ok {A} a.
Arguments Error {A} e.
Arguments Panic {A}.

(** [let* p := r in k] is Rust's [let p = r?; k]. *)
Definition obind {A B} (r : outcome A) (k : A -> outcome B) : outcome B :=
  match r with
  | Ok a => k a
  | Error e => Error e
  | Panic => Panic
  end.

Notation "'let*' p ':=' r 'in' k" := (obind r (fun p => k))
  (at level 200, p pattern, r at level 100, k at level 200).

(* ------------------------------------------------------------------ *)
(** ** Bit input ([util.rs]: [BitInput = (&[u8], usize)]) *)

Record BitInput : Type := mkBitInput { bi_bytes : list Z; bi_off : nat }.

(** Reads one bit, most significant bit first. *)
Definition read_one_bit (i : BitInput) : option (BitInput * Z) :=
  match bi_bytes i with
  | [] => None
  | b :: rest =>
      let bit := if Z.testbit b (Z.of_nat (7 - bi_off i)) then 1 else 0 in
      if (bi_off i =? 7)%nat then Some (mkBitInput rest 0, bit)
      else Some (mkBitInput (b :: rest) (S (bi_off i)), bit)
  end.

Fixpoint read_bits (n : nat) (i : BitInput) (acc : Z) : BitInput * Z :=
  match n with
  | O => (i, acc)
  | S n' =>
      match read_one_bit i with
      | Some (i', bit) => read_bits n' i' (acc * 2 + bit)
      | None => (i, acc)
      end
  end.

(** nom's [bits::complete::take(count)]: fails with [Eof] when fewer
    than [count] bits remain, otherwise returns the next [count] bits
    as an unsigned number, most significant bit first. *)
Definition take (count : nat) (i : BitInput) : outcome (BitInput * Z) :=
  if (count =? 0)%nat then Ok (i, 0)
  else if (length (bi_bytes i) * 8 <? count + bi_off i)%nat then Error Eof
  else Ok (read_bits count i 0).

Definition take_bool_bit (i : BitInput) : outcome (BitInput * bool) :=
  let* (i', v) := take 1 i in Ok (i', 0 <? v).

(** [take_zero_bits]: nom's [tag(0u8, bits)]. *)
Definition take_zero_bits (i : BitInput) (bits : nat) : outcome (BitInput * unit) :=
  let* (i', v) := take bits i in
  if v =? 0 then Ok (i', tt) else Error TagBits.

Definition take_zero_bit (i : BitInput) := take_zero_bits i 1.

(** nom's [bits] adapter: runs a bit parser on a byte slice and returns
    the bytes after the last (possibly partially) read byte. *)
Definition bits {A} (p : BitInput -> outcome (BitInput * A)) (input : list Z)
  : outcome (list Z * A) :=
  let* (i', a) := p (mkBitInput input 0) in
  if (bi_off i' =? 0)%nat then Ok (bi_bytes i', a) else Ok (tl (bi_bytes i'), a).

(* ------------------------------------------------------------------ *)
(** ** LEB128 ([util.rs]: [leb128], [leb128_write]) *)

Record ReadResult : Type := mkReadResult { rr_value : Z; bytes_read : Z }.

(** The body of [for i in 0..8u8 { ... }] from iteration [i] on, with
    [fuel] iterations left ([fuel = 8 - i]). *)
Fixpoint leb128_loop (fuel : nat) (i : Z) (input : list Z) (value : Z)
  (leb128_bytes : Z) : outcome (list Z * ReadResult) :=
  match fuel with
  | O => Ok (input, mkReadResult value leb128_bytes)
  | S fuel' =>
      match input with
      | [] => Error Eof
      | leb128_byte :: input' =>
          let value := Z.lor value (Z.shiftl (Z.land leb128_byte 127) (i * 7)) in
          let leb128_bytes := leb128_bytes + 1 in
          if Z.land leb128_byte 128 =? 0
          then Ok (input', mkReadResult value leb128_bytes)
          else leb128_loop fuel' (i + 1) input' value leb128_bytes
      end
  end.

Definition leb128 (input : list Z) : outcome (list Z * ReadResult) :=
  leb128_loop 8 0 input 0 0.

(** [leb128_write]: the Rust [loop] ends when [value] reaches 0; a
    [u32] needs at most 5 iterations, so 8 units of fuel (the capacity
    of the [ArrayVec<u8, 8>]) never run out. *)
Fixpoint leb128_write_loop (fuel : nat) (value : Z) : list Z :=
  match fuel with
  | O => []
  | S fuel' =>
      let byte := Z.land value 127 in
      let value := Z.shiftr value 7 in
      let byte := if negb (value =? 0) then Z.lor byte 128 else byte in
      if value =? 0 then [byte] else byte :: leb128_write_loop fuel' value
  end.

Definition leb128_write (value : Z) : list Z := leb128_write_loop 8 value.

(** Spec-side reading of a LEB128 byte string: the little-endian
    concatenation of the low 7 bits of each byte. *)
Fixpoint leb_concat (l : list Z) : Z :=
  match l with
  | [] => 0
  | b :: l' => Z.lor (Z.land b 127) (Z.shiftl (leb_concat l') 7)
  end.

(** A byte with the continuation bit set. *)
Definition leb_cont (b : Z) : Prop := Z.land b 128 <> 0.

(* ------------------------------------------------------------------ *)
(** ** Film grain parameters ([grain.rs]) *)

(** [frame.rs]: [FrameType] ([#[repr(u8)]], values 0..=3). *)
Inductive FrameType : Type := Key | Inter | IntraOnly | Switch.

Definition FrameType_try_from (v : Z) : option FrameType :=
  match v with
  | 0 => Some Key | 1 => Some Inter | 2 => Some IntraOnly | 3 => Some Switch
  | _ => None
  end.

Definition FrameType_eqb (a b : FrameType) : bool :=
  match a, b with
  | Key, Key | Inter, Inter | IntraOnly, IntraOnly | Switch, Switch => true
  | _, _ => false
  end.

Definition is_intra (t : FrameType) : bool :=
  FrameType_eqb t Key || FrameType_eqb t IntraOnly.

(** [av1_grain]'s capacities of the [ArrayVec]s. *)
Definition NUM_Y_POINTS : nat := 14.
Definition NUM_UV_POINTS : nat := 10.
Definition NUM_Y_COEFFS : nat := 24.
Definition NUM_UV_COEFFS : nat := 25.

Record FilmGrainParams : Type := mkFilmGrainParams {
  grain_seed : Z;
  scaling_points_y : list (Z * Z);
  scaling_points_cb : list (Z * Z);
  scaling_points_cr : list (Z * Z);
  scaling_shift : Z;
  ar_coeff_lag : Z;
  ar_coeffs_y : list Z;
  ar_coeffs_cb : list Z;
  ar_coeffs_cr : list Z;
  ar_coeff_shift : Z;
  cb_mult : Z;
  cb_luma_mult : Z;
  cb_offset : Z;
  cr_mult : Z;
  cr_luma_mult : Z;
  cr_offset : Z;
  chroma_scaling_from_luma : bool;
  grain_scale_shift : Z;
  overlap_flag : bool;
  clip_to_restricted_range : bool
}.

Inductive FilmGrainHeader : Type :=
| Disable
| CopyRefFrame
| UpdateGrain (p : FilmGrainParams).

Fixpoint list_eqb {A} (eqb : A -> A -> bool) (l1 l2 : list A) : bool :=
  match l1, l2 with
  | [], [] => true
  | x :: l1', y :: l2' => eqb x y && list_eqb eqb l1' l2'
  | _, _ => false
  end.

Definition pair_eqb (p q : Z * Z) : bool := (fst p =? fst q) && (snd p =? snd q).

(** [impl PartialEq for FilmGrainParams]: every field but [grain_seed]. *)
Definition FilmGrainParams_eqb (a b : FilmGrainParams) : bool :=
  list_eqb pair_eqb (scaling_points_y a) (scaling_points_y b)
  && list_eqb pair_eqb (scaling_points_cb a) (scaling_points_cb b)
  && list_eqb pair_eqb (scaling_points_cr a) (scaling_points_cr b)
  && (scaling_shift a =? scaling_shift b)
  && (ar_coeff_lag a =? ar_coeff_lag b)
  && list_eqb Z.eqb (ar_coeffs_y a) (ar_coeffs_y b)
  && list_eqb Z.eqb (ar_coeffs_cb a) (ar_coeffs_cb b)
  && list_eqb Z.eqb (ar_coeffs_cr a) (ar_coeffs_cr b)
  && (ar_coeff_shift a =? ar_coeff_shift b)
  && (cb_mult a =? cb_mult b)
  && (cb_luma_mult a =? cb_luma_mult b)
  && (cb_offset a =? cb_offset b)
  && (cr_mult a =? cr_mult b)
  && (cr_luma_mult a =? cr_luma_mult b)
  && (cr_offset a =? cr_offset b)
  && Bool.eqb (chroma_scaling_from_luma a) (chroma_scaling_from_luma b)
  && (grain_scale_shift a =? grain_scale_shift b)
  && Bool.eqb (overlap_flag a) (overlap_flag b)
  && Bool.eqb (clip_to_restricted_range a) (clip_to_restricted_range b).

(** [ArrayVec::push]: panics when the vector is full. *)
Definition push_capped {A} (cap : nat) (acc : list A) (x : A) : outcome (list A) :=
  if (length acc <? cap)%nat then Ok (acc ++ [x]) else Panic.

(** [for _ in 0..n { let (input, x) = p(input)?; v.push(x); }] *)
Fixpoint read_push {A} (n : nat) (p : BitInput -> outcome (BitInput * A))
  (cap : nat) (input : BitInput) (acc : list A) : outcome (BitInput * list A) :=
  match n with
  | O => Ok (input, acc)
  | S n' =>
      let* (input, x) := p input in
      let* acc := push_capped cap acc x in
      read_push n' p cap input acc
  end.

(** One [(value:8, scaling:8)] scaling point. *)
Definition read_point (input : BitInput) : outcome (BitInput * (Z * Z)) :=
  let* (input, value) := take 8 input in
  let* (input, scaling) := take 8 input in
  Ok (input, (value, scaling)).

(** One [coeff_plus_128:8] AR coefficient, stored as [coeff_plus_128 - 128]. *)
Definition read_coeff (input : BitInput) : outcome (BitInput * Z) :=
  let* (input, coeff_plus_128) := take 8 input in
  Ok (input, coeff_plus_128 - 128).

Definition film_grain_params (input : BitInput) (film_grain_allowed : bool)
  (frame_type : FrameType) (monochrome : bool) (subsampling : Z * Z)
  : outcome (BitInput * FilmGrainHeader) :=
  if negb film_grain_allowed then Ok (input, Disable) else
  let* (input, apply_grain) := take_bool_bit input in
  if negb apply_grain then Ok (input, Disable) else
  let* (input, grain_seed) := take 16 input in
  let* (input, update_grain) :=
    if FrameType_eqb frame_type Inter then take_bool_bit input else Ok (input, true) in
  if negb update_grain then
    let* (input, _film_grain_params_ref_idx) := take 3 input in
    Ok (input, CopyRefFrame)
  else
  let* (input, num_y_points) := take 4 input in
  let* (input, scaling_points_y) :=
    read_push (Z.to_nat num_y_points) read_point NUM_Y_POINTS input [] in
  let* (input, chroma_scaling_from_luma) :=
    if monochrome then Ok (input, false) else take_bool_bit input in
  let* (input, (scaling_points_cb, scaling_points_cr, num_cb_points, num_cr_points)) :=
    if monochrome || chroma_scaling_from_luma
       || ((fst subsampling =? 1) && (snd subsampling =? 1) && (num_y_points =? 0))
    then Ok (input, ([], [], 0, 0))
    else
      let* (input, num_cb_points) := take 4 input in
      let* (input, scaling_points_cb) :=
        read_push (Z.to_nat num_cb_points) read_point NUM_UV_POINTS input [] in
      let* (input, num_cr_points) := take 4 input in
      let* (input, scaling_points_cr) :=
        read_push (Z.to_nat num_cr_points) read_point NUM_UV_POINTS input [] in
      Ok (input, (scaling_points_cb, scaling_points_cr, num_cb_points, num_cr_points)) in
  let* (input, _grain_scaling_minus_8) := take 2 input in
  let* (input, ar_coeff_lag) := take 2 input in
  let num_pos_luma := 2 * ar_coeff_lag * (ar_coeff_lag + 1) in
  let* (input, (ar_coeffs_y, num_pos_chroma)) :=
    if 0 <? num_y_points then
      let* (input, ar_coeffs_y) :=
        read_push (Z.to_nat num_pos_luma) read_coeff NUM_Y_COEFFS input [] in
      Ok (input, (ar_coeffs_y, num_pos_luma + 1))
    else Ok (input, ([], num_pos_luma)) in
  let* (input, ar_coeffs_cb) :=
    if chroma_scaling_from_luma || (0 <? num_cb_points)
    then read_push (Z.to_nat num_pos_chroma) read_coeff NUM_UV_COEFFS input []
    else let* v := push_capped NUM_UV_COEFFS [] 0 in Ok (input, v) in
  let* (input, ar_coeffs_cr) :=
    if chroma_scaling_from_luma || (0 <? num_cr_points)
    then read_push (Z.to_nat num_pos_chroma) read_coeff NUM_UV_COEFFS input []
    else let* v := push_capped NUM_UV_COEFFS [] 0 in Ok (input, v) in
  let* (input, ar_coeff_shift_minus_6) := take 2 input in
  let* (input, grain_scale_shift) := take 2 input in
  let* (input, (cb_mult, cb_luma_mult, cb_offset)) :=
    if 0 <? num_cb_points then
      let* (input, cb_mult) := take 8 input in
      let* (input, cb_luma_mult) := take 8 input in
      let* (input, cb_offset) := take 9 input in
      Ok (input, (cb_mult, cb_luma_mult, cb_offset))
    else Ok (input, (0, 0, 0)) in
  let* (input, (cr_mult, cr_luma_mult, cr_offset)) :=
    if 0 <? num_cr_points then
      let* (input, cr_mult) := take 8 input in
      let* (input, cr_luma_mult) := take 8 input in
      let* (input, cr_offset) := take 9 input in
      Ok (input, (cr_mult, cr_luma_mult, cr_offset))
    else Ok (input, (0, 0, 0)) in
  let* (input, overlap_flag) := take_bool_bit input in
  let* (input, clip_to_restricted_range) := take_bool_bit input in
  Ok (input, UpdateGrain {|
    grain_seed := grain_seed;
    scaling_points_y := scaling_points_y;
    scaling_points_cb := scaling_points_cb;
    scaling_points_cr := scaling_points_cr;
    scaling_shift := 8;
    ar_coeff_lag := ar_coeff_lag;
    ar_coeffs_y := ar_coeffs_y;
    ar_coeffs_cb := ar_coeffs_cb;
    ar_coeffs_cr := ar_coeffs_cr;
    ar_coeff_shift := ar_coeff_shift_minus_6 + 6;
    cb_mult := cb_mult;
    cb_luma_mult := cb_luma_mult;
    cb_offset := cb_offset;
    cr_mult := cr_mult;
    cr_luma_mult := cr_luma_mult;
    cr_offset := cr_offset;
    chroma_scaling_from_luma := chroma_scaling_from_luma;
    grain_scale_shift := grain_scale_shift;
    overlap_flag := overlap_flag;
    clip_to_restricted_range := clip_to_restricted_range |}).

(* ------------------------------------------------------------------ *)
(** ** Grain timeline ([main.rs]: [aggregate_grain_headers]) *)

Record GrainTableSegment : Type := mkGrainTableSegment {
  start_time : Z;
  end_time : Z;
  grain_params : FilmGrainParams
}.

(** [GrainTableSegment::grain_params], under a name that the binders
    called [grain_params] below do not shadow. *)
Definition segment_grain_params (s : GrainTableSegment) : FilmGrainParams :=
  grain_params s.

Definition TIMESTAMP_BASE_UNIT : Z := 10000000.

Definition U64_MAX : Z := 2 ^ 64 - 1.

(** An [i32] (numerator or denominator of ffmpeg's [Rational]) as an
    [f64]; exact, since [|z| < 2^31 < 2^53]. *)
Definition f64_of_i32 (z : Z) : float :=
  if z <? 0 then (- PrimFloat.of_uint63 (Uint63.of_Z (- z)))%float
  else PrimFloat.of_uint63 (Uint63.of_Z z).

(** ffmpeg's [Rational(num, den)]. *)
Record Rational : Type := mkRational { numerator : Z; denominator : Z }.

(** [Rational::invert] ([av_inv_q]) swaps the two components. *)
Definition Rational_invert (q : Rational) : Rational :=
  mkRational (denominator q) (numerator q).

(** [impl From<Rational> for f64] ([av_q2d]): [num as f64 / den as f64]. *)
Definition f64_of_Rational (q : Rational) : float :=
  (f64_of_i32 (numerator q) / f64_of_i32 (denominator q))%float.

(** [x.ceil() as u64]: the ceiling of the finite value
    [(-1)^s * m * 2^e] is computed exactly on integers ([Z.div] floors,
    so [- ((- v) / 2^k)] is the ceiling of [v / 2^k]); Rust's float to
    integer [as] cast saturates at [0] and [u64::MAX] and sends NaN to [0]. *)
Definition ceil_as_u64 (x : float) : Z :=
  match FloatOps.Prim2SF x with
  | S754_zero _ => 0
  | S754_infinity false => U64_MAX
  | S754_infinity true => 0
  | S754_nan => 0
  | S754_finite s m e =>
      let v := if s then - Z.pos m else Z.pos m in
      let c := if 0 <=? e then v * 2 ^ e else - ((- v) / 2 ^ (- e)) in
      Z.max 0 (Z.min c U64_MAX)
  end.

(** [cur_packet_end_f.ceil() as u64 * TIMESTAMP_BASE_UNIT]; the [u64]
    multiplication panics on overflow (debug build). *)
Definition packet_end_of (cur_packet_end_f : float) : outcome Z :=
  let c := ceil_as_u64 cur_packet_end_f * TIMESTAMP_BASE_UNIT in
  if c <=? U64_MAX then Ok c else Panic.

(** [acc.last()] *)
Fixpoint last_opt {A} (l : list A) : option A :=
  match l with
  | [] => None
  | [x] => Some x
  | _ :: l' => last_opt l'
  end.

(** [acc.last_mut().expect(..).end_time = e] *)
Fixpoint set_last_end (e : Z) (l : list GrainTableSegment) : outcome (list GrainTableSegment) :=
  match l with
  | [] => Panic
  | [s] => Ok [mkGrainTableSegment (start_time s) e (grain_params s)]
  | s :: l' => let* l' := set_last_end e l' in Ok (s :: l')
  end.

(** The closure passed to [fold], together with the updates of the
    captured [cur_packet_start], [cur_packet_end_f], [cur_packet_end]. *)
Definition aggregate_step (time_per_packet : float)
  (st : list GrainTableSegment * Z * float * Z) (elem : FilmGrainHeader)
  : outcome (list GrainTableSegment * Z * float * Z) :=
  let '(acc, cur_packet_start, cur_packet_end_f, cur_packet_end) := st in
  let prev_packet_has_grain :=
    match last_opt acc with
    | None => false
    | Some last => end_time last =? cur_packet_start
    end in
  let* acc :=
    if prev_packet_has_grain then
      match elem with
      | Disable => Ok acc
      | CopyRefFrame => set_last_end cur_packet_end acc
      | UpdateGrain grain_params =>
          match last_opt acc with
          | None => Panic
          | Some cur_segment =>
              if FilmGrainParams_eqb grain_params (segment_grain_params cur_segment)
              then set_last_end cur_packet_end acc
              else Ok (acc ++ [mkGrainTableSegment cur_packet_start cur_packet_end grain_params])
          end
      end
    else
      match elem with
      | UpdateGrain grain_params =>
          Ok (acc ++ [mkGrainTableSegment cur_packet_start cur_packet_end grain_params])
      | _ => Ok acc
      end in
  let cur_packet_start := cur_packet_end in
  let cur_packet_end_f := (cur_packet_end_f + time_per_packet)%float in
  let* cur_packet_end := packet_end_of cur_packet_end_f in
  Ok (acc, cur_packet_start, cur_packet_end_f, cur_packet_end).

Fixpoint aggregate_fold (time_per_packet : float) (grain_headers : list FilmGrainHeader)
  (st : list GrainTableSegment * Z * float * Z) : outcome (list GrainTableSegment * Z * float * Z) :=
  match grain_headers with
  | [] => Ok st
  | elem :: rest =>
      let* st := aggregate_step time_per_packet st elem in
      aggregate_fold time_per_packet rest st
  end.

Definition aggregate_grain_headers (grain_headers : list FilmGrainHeader)
  (frame_rate : Rational) : outcome (list GrainTableSegment) :=
  let time_per_packet := f64_of_Rational (Rational_invert frame_rate) in
  let cur_packet_start := 0 in
  let cur_packet_end_f := time_per_packet in
  let* cur_packet_end := packet_end_of cur_packet_end_f in
  let* (acc, _, _, _) :=
    aggregate_fold time_per_packet grain_headers
      (([] : list GrainTableSegment), cur_packet_start, cur_packet_end_f, cur_packet_end) in
  Ok acc.

(** The values [cur_packet_end] takes while the first [n] headers are
    folded, starting from [cur_packet_end_f = f] (before the overflow check). *)
Fixpoint packet_ends (n : nat) (time_per_packet f : float) : list Z :=
  match n with
  | O => []
  | S n' => ceil_as_u64 f * TIMESTAMP_BASE_UNIT
            :: packet_ends n' time_per_packet (f + time_per_packet)%float
  end.

Fixpoint nondecreasing (l : list Z) : bool :=
  match l with
  | x :: ((y :: _) as l') => (x <=? y) && nondecreasing l'
  | _ => true
  end.

(** Spec-side reading of the timeline property: every segment has
    [start_time <= end_time] (with [strict], [<]), and each segment ends no
    later than the next one starts. *)
Fixpoint segments_ordered (strict : bool) (l : list GrainTableSegment) : Prop :=
  match l with
  | [] => True
  | s :: l' =>
      (if strict then start_time s < end_time s else start_time s <= end_time s) /\
      match l' with
      | [] => True
      | t :: _ => end_time s <= start_time t
      end /\ segments_ordered strict l'
  end.

(** A film grain parameter set used in the concrete runs below: a flat
    luma scaling function, no chroma grain. *)
Definition example_grain_params : FilmGrainParams :=
  mkFilmGrainParams 0 [(0, 20); (255, 20)] [] [] 8 0 [] [0] [0] 6
    0 0 0 0 0 0 false 0 false false.

(** The captured counters of [aggregate_grain_headers] alone, over [n]
    packets: [(cur_packet_start, cur_packet_end_f, cur_packet_end)]. *)
Fixpoint packet_clock (time_per_packet : float) (n : nat) (st : Z * float * Z)
  : outcome (Z * float * Z) :=
  match n with
  | O => Ok st
  | S n' =>
      let '(_, cur_packet_end_f, cur_packet_end) := st in
      let cur_packet_end_f := (cur_packet_end_f + time_per_packet)%float in
      let* cur_packet_end' := packet_end_of cur_packet_end_f in
      packet_clock time_per_packet n' (cur_packet_end, cur_packet_end_f, cur_packet_end')
  end.

(* ------------------------------------------------------------------ *)
(** ** Rust slices, arrays, [Option::unwrap] and [usize] arithmetic *)

(** [opt.unwrap()] *)
Definition unwrap {A} (o : option A) : outcome A :=
  match o with Some a => Ok a | None => Panic end.

(** [&l[..n]]: panics when [n] exceeds the length. *)
Definition slice_to {A} (l : list A) (n : Z) : outcome (list A) :=
  if (0 <=? n) && (n <=? Z.of_nat (length l)) then Ok (firstn (Z.to_nat n) l)
  else Panic.

(** [&l[n..]]: panics when [n] exceeds the length. *)
Definition slice_from {A} (l : list A) (n : Z) : outcome (list A) :=
  if (0 <=? n) && (n <=? Z.of_nat (length l)) then Ok (skipn (Z.to_nat n) l)
  else Panic.

(** [a - b] on an unsigned integer: an underflow panics (debug build). *)
Definition usize_sub (a b : Z) : outcome Z :=
  if b <=? a then Ok (a - b) else Panic.

(** [v[i]] on an [ArrayVec]: panics when out of range. *)
Definition index {A} (l : list A) (i : nat) : outcome A := unwrap (nth_error l i).

(** [arr[i] = x] on a fixed-size array.  Every index written by the
    parser is below the array's length, so the out-of-range case (a
    panic in Rust) does not arise; here it leaves the array unchanged. *)
Fixpoint list_set {A} (l : list A) (i : nat) (x : A) : list A :=
  match l, i with
  | [], _ => []
  | _ :: t, O => x :: t
  | h :: t, S i' => h :: list_set t i' x
  end.

(** [num_traits::clamp(v, lo, hi)] (all call sites have [lo <= hi]). *)
Definition clamp (v lo hi : Z) : Z :=
  if v <? lo then lo else if hi <? v then hi else v.

(** [len()] of a byte slice, as a number. *)
Definition len (l : list Z) : Z := Z.of_nat (length l).

(* ------------------------------------------------------------------ *)
(** ** [util.rs]: [uvlc], [ns], [su], [floor_log2] *)

(** The [loop] of [uvlc]: counts leading zero bits up to the first one.
    Every round consumes a bit, so [8 * bytes + 1] rounds always reach
    either the terminating one bit or the [Eof] of [take_bool_bit]. *)
Fixpoint uvlc_loop (fuel : nat) (input : BitInput) (leading_zeros : Z)
  : outcome (BitInput * Z) :=
  match fuel with
  | O => Error Eof
  | S f =>
      let* (input, done) := take_bool_bit input in
      if done then Ok (input, leading_zeros)
      else uvlc_loop f input (leading_zeros + 1)
  end.

Definition uvlc (input : BitInput) : outcome (BitInput * Z) :=
  let* (input, leading_zeros) :=
    uvlc_loop (S (length (bi_bytes input) * 8)) input 0 in
  if 32 <=? leading_zeros then Ok (input, 2 ^ 32 - 1) else
  let* (input, value) := take (Z.to_nat leading_zeros) input in
  Ok (input, value + Z.shiftl 1 leading_zeros - 1).

(** The [while x != 0] loop of [floor_log2]; 64 rounds empty any
    64-bit value. *)
Fixpoint floor_log2_loop (fuel : nat) (x s : Z) : Z :=
  match fuel with
  | O => s
  | S f => if x =? 0 then s else floor_log2_loop f (Z.shiftr x 1) (s + 1)
  end.

(** [s - one] underflows (a panic) for [x = 0]. *)
Definition floor_log2 (x : Z) : outcome Z := usize_sub (floor_log2_loop 64 x 0) 1.

Definition ns (input : BitInput) (n : Z) : outcome (BitInput * Z) :=
  let* w := floor_log2 n in
  let w := w + 1 in
  let m := Z.shiftl 1 w - n in
  let* (input, v) := take (Z.to_nat (w - 1)) input in
  if v <? m then Ok (input, v) else
  let* (input, extra_bit) := take 1 input in
  Ok (input, Z.shiftl v 1 - m + extra_bit).

Definition su (input : BitInput) (n : nat) : outcome (BitInput * Z) :=
  let* (input, value) := take n input in
  let* n_minus_1 := usize_sub (Z.of_nat n) 1 in
  let sign_mask := Z.shiftl 1 n_minus_1 in
  if 0 <? Z.land value sign_mask then Ok (input, value - 2 * sign_mask)
  else Ok (input, value).

(* ------------------------------------------------------------------ *)
(** ** [obu.rs]: OBU header *)

Module ObuType.
Inductive t : Type :=
| Reserved0 | SequenceHeader | TemporalDelimiter | FrameHeader | TileGroup
| Metadata | Frame | RedundantFrameHeader | TileList | Reserved9 | Reserved10
| Reserved11 | Reserved12 | Reserved13 | Reserved14 | Padding.

(** [ObuType::try_from]: every 4-bit value names a variant. *)
Definition of_u4 (v : Z) : t :=
  match v with
  | 0 => Reserved0 | 1 => SequenceHeader | 2 => TemporalDelimiter
  | 3 => FrameHeader | 4 => TileGroup | 5 => Metadata | 6 => Frame
  | 7 => RedundantFrameHeader | 8 => TileList | 9 => Reserved9
  | 10 => Reserved10 | 11 => Reserved11 | 12 => Reserved12
  | 13 => Reserved13 | 14 => Reserved14 | _ => Padding
  end.

Definition eqb (a b : t) : bool :=
  match a, b with
  | Reserved0, Reserved0 | SequenceHeader, SequenceHeader
  | TemporalDelimiter, TemporalDelimiter | FrameHeader, FrameHeader
  | TileGroup, TileGroup | Metadata, Metadata | Frame, Frame
  | RedundantFrameHeader, RedundantFrameHeader | TileList, TileList
  | Reserved9, Reserved9 | Reserved10, Reserved10 | Reserved11, Reserved11
  | Reserved12, Reserved12 | Reserved13, Reserved13
  | Reserved14, Reserved14 | Padding, Padding => true
  | _, _ => false
  end.
End ObuType.

Record ObuExtension : Type := mkObuExtension { temporal_id : Z; spatial_id : Z }.

Record ObuHeader : Type := mkObuHeader {
  obu_type : ObuType.t;
  has_size_field : bool;
  extension : option ObuExtension }.

Definition obu_extension (input : BitInput) : outcome (BitInput * ObuExtension) :=
  let* (input, temporal_id) := take 3 input in
  let* (input, spatial_id) := take 2 input in
  let* (input, _reserved) := take 3 input in
  Ok (input, mkObuExtension temporal_id spatial_id).

Definition obu_type_of (input : BitInput) : outcome (BitInput * ObuType.t) :=
  let* (input, output) := take 4 input in
  Ok (input, ObuType.of_u4 output).

Definition parse_obu_header (input : list Z) : outcome (list Z * ObuHeader) :=
  bits (fun input =>
    let* (input, _forbidden_bit) := take_zero_bit input in
    let* (input, obu_type) := obu_type_of input in
    let* (input, extension_flag) := take_bool_bit input in
    let* (input, has_size_field) := take_bool_bit input in
    let* (input, _reserved_1bit) := take_zero_bit input in
    let* (input, extension) :=
      if extension_flag then
        let* (input, extension) := obu_extension input in Ok (input, Some extension)
      else Ok (input, None) in
    Ok (input, mkObuHeader obu_type has_size_field extension)) input.

(* ------------------------------------------------------------------ *)
(** ** [sequence.rs]: sequence header records *)

Definition SELECT_SCREEN_CONTENT_TOOLS : Z := 2.
Definition SELECT_INTEGER_MV : Z := 2.

Record TimingInfo : Type := mkTimingInfo { equal_picture_interval : bool }.

Record DecoderModelInfo : Type := mkDecoderModelInfo {
  buffer_delay_length_minus_1 : Z;
  buffer_removal_time_length_minus_1 : Z;
  frame_presentation_time_length_minus_1 : Z }.

(** The [#[repr(u8)]] color enums are kept as their discriminants;
    [try_from(v).unwrap()] panics on a value that names no variant. *)
Definition ColorPrimaries_valid (v : Z) : bool :=
  existsb (Z.eqb v) [1; 2; 4; 5; 6; 7; 8; 9; 10; 11; 12; 22].
Definition TransferCharacteristics_valid (v : Z) : bool := (0 <=? v) && (v <=? 18).
Definition MatrixCoefficients_valid (v : Z) : bool := (0 <=? v) && (v <=? 14).
Definition ColorRange_valid (v : Z) : bool := (0 <=? v) && (v <=? 1).

Definition try_from_unwrap (valid : Z -> bool) (v : Z) : outcome Z :=
  if valid v then Ok v else Panic.

Definition ColorPrimaries_Bt709 : Z := 1.
Definition ColorPrimaries_Unspecified : Z := 2.
Definition TransferCharacteristics_Unspecified : Z := 2.
Definition TransferCharacteristics_Srgb : Z := 13.
Definition MatrixCoefficients_Identity : Z := 0.
Definition MatrixCoefficients_Unspecified : Z := 2.
Definition ColorRange_Full : Z := 1.

Record ColorConfig : Type := mkColorConfig {
  color_primaries : Z;
  transfer_characteristics : Z;
  matrix_coefficients : Z;
  color_range : Z;
  num_planes : Z;
  separate_uv_delta_q : bool;
  subsampling : Z * Z }.

Module SequenceHeader.
Record t : Type := mk {
  reduced_still_picture_header : bool;
  frame_id_numbers_present : bool;
  additional_frame_id_len_minus_1 : Z;
  delta_frame_id_len_minus_2 : Z;
  film_grain_params_present : bool;
  force_screen_content_tools : Z;
  force_integer_mv : Z;
  order_hint_bits : Z;
  frame_width_bits_minus_1 : Z;
  frame_height_bits_minus_1 : Z;
  max_frame_width_minus_1 : Z;
  max_frame_height_minus_1 : Z;
  decoder_model_info : option DecoderModelInfo;
  decoder_model_present_for_op : list bool;
  operating_points_cnt_minus_1 : Z;
  operating_point_idc : list Z;
  cur_operating_point_idc : Z;
  timing_info : option TimingInfo;
  enable_ref_frame_mvs : bool;
  enable_warped_motion : bool;
  enable_superres : bool;
  enable_cdef : bool;
  enable_restoration : bool;
  use_128x128_superblock : bool;
  color_config : ColorConfig }.

Definition enable_order_hint (h : t) : bool := 0 <? order_hint_bits h.
End SequenceHeader.

(* ------------------------------------------------------------------ *)
(** ** [frame.rs]: frame header records *)

Record TileInfo : Type := mkTileInfo {
  tile_cols : Z;
  tile_rows : Z;
  tile_cols_log2 : Z;
  tile_rows_log2 : Z }.

Module FrameHeader.
Record t : Type := mk {
  show_frame : bool;
  show_existing_frame : bool;
  film_grain_params : FilmGrainHeader;
  tile_info : TileInfo }.
End FrameHeader.

Module Obu.
Inductive t : Type :=
| SequenceHeader (h : SequenceHeader.t)
| FrameHeader (h : FrameHeader.t).
End Obu.

(* ------------------------------------------------------------------ *)
(** ** [parser.rs]: the parser context *)

(** [BitstreamParser<WRITE>] without the ffmpeg reader and writer and
    the [parsed] flag, which the OBU parser never touches.  The parser
    asks [incoming_grain_header] only [is_some()], which is the boolean
    kept here.  The fixed-size arrays are lists of their lengths:
    [ref_frame_idx] 7, [ref_order_hint], [big_ref_order_hint],
    [big_ref_valid] and [big_order_hints] 8. *)
Module BitstreamParser.
Record t : Type := mk {
  packet_out : list Z;
  incoming_grain_header : bool;
  size : Z;
  seen_frame_header : bool;
  sequence_header : option SequenceHeader.t;
  previous_frame_header : option FrameHeader.t;
  ref_frame_idx : list Z;
  ref_order_hint : list Z;
  big_ref_order_hint : list Z;
  big_ref_valid : list bool;
  big_order_hints : list Z;
  grain_headers : list FilmGrainHeader }.

Definition set_packet_out v s := mk v (incoming_grain_header s) (size s)
  (seen_frame_header s) (sequence_header s) (previous_frame_header s)
  (ref_frame_idx s) (ref_order_hint s) (big_ref_order_hint s)
  (big_ref_valid s) (big_order_hints s) (grain_headers s).
Definition set_size v s := mk (packet_out s) (incoming_grain_header s) v
  (seen_frame_header s) (sequence_header s) (previous_frame_header s)
  (ref_frame_idx s) (ref_order_hint s) (big_ref_order_hint s)
  (big_ref_valid s) (big_order_hints s) (grain_headers s).
Definition set_seen_frame_header v s := mk (packet_out s)
  (incoming_grain_header s) (size s) v (sequence_header s)
  (previous_frame_header s) (ref_frame_idx s) (ref_order_hint s)
  (big_ref_order_hint s) (big_ref_valid s) (big_order_hints s) (grain_headers s).
Definition set_sequence_header v s := mk (packet_out s)
  (incoming_grain_header s) (size s) (seen_frame_header s) v
  (previous_frame_header s) (ref_frame_idx s) (ref_order_hint s)
  (big_ref_order_hint s) (big_ref_valid s) (big_order_hints s) (grain_headers s).
Definition set_previous_frame_header v s := mk (packet_out s)
  (incoming_grain_header s) (size s) (seen_frame_header s) (sequence_header s)
  v (ref_frame_idx s) (ref_order_hint s)
  (big_ref_order_hint s) (big_ref_valid s) (big_order_hints s) (grain_headers s).
Definition set_ref_frame_idx v s := mk (packet_out s)
  (incoming_grain_header s) (size s) (seen_frame_header s) (sequence_header s)
  (previous_frame_header s) v (ref_order_hint s)
  (big_ref_order_hint s) (big_ref_valid s) (big_order_hints s) (grain_headers s).
Definition set_ref_order_hint v s := mk (packet_out s)
  (incoming_grain_header s) (size s) (seen_frame_header s) (sequence_header s)
  (previous_frame_header s) (ref_frame_idx s) v
  (big_ref_order_hint s) (big_ref_valid s) (big_order_hints s) (grain_headers s).
Definition set_big_ref_order_hint v s := mk (packet_out s)
  (incoming_grain_header s) (size s) (seen_frame_header s) (sequence_header s)
  (previous_frame_header s) (ref_frame_idx s) (ref_order_hint s)
  v (big_ref_valid s) (big_order_hints s) (grain_headers s).
Definition set_big_ref_valid v s := mk (packet_out s)
  (incoming_grain_header s) (size s) (seen_frame_header s) (sequence_header s)
  (previous_frame_header s) (ref_frame_idx s) (ref_order_hint s)
  (big_ref_order_hint s) v (big_order_hints s) (grain_headers s).
Definition set_big_order_hints v s := mk (packet_out s)
  (incoming_grain_header s) (size s) (seen_frame_header s) (sequence_header s)
  (previous_frame_header s) (ref_frame_idx s) (ref_order_hint s)
  (big_ref_order_hint s) (big_ref_valid s) v (grain_headers s).

(** [BitstreamParser::with_writer]: every field at its [Default]. *)
Definition with_writer (incoming_grain_header : bool) : t :=
  mk [] incoming_grain_header 0 false None None (repeat 0 7) (repeat 0 8)
    (repeat 0 8) (repeat false 8) (repeat 0 8) [].
End BitstreamParser.

(* ------------------------------------------------------------------ *)
(** ** Methods on [&mut self]: a state and error monad *)

(** A method of [BitstreamParser] taking [&mut self]: the context after
    the call, also when the call fails (the mutations made before a [?]
    or a panic are kept), and the result. *)
Definition PM (A : Type) : Type :=
  BitstreamParser.t -> BitstreamParser.t * outcome A.

Definition ret {A} (a : A) : PM A := fun s => (s, Ok a).
Definition lift {A} (r : outcome A) : PM A := fun s => (s, r).
Definition gets {A} (f : BitstreamParser.t -> A) : PM A := fun s => (s, Ok (f s)).
Definition modify (f : BitstreamParser.t -> BitstreamParser.t) : PM unit :=
  fun s => (f s, Ok tt).

Definition st_bind {A B} (m : PM A) (k : A -> PM B) : PM B :=
  fun s =>
    match m s with
    | (s', Ok a) => k a s'
    | (s', Error e) => (s', Error e)
    | (s', Panic) => (s', Panic)
    end.

(** [let% p := m in k] is [let p = self.m()?; k]. *)
Notation "'let%' p ':=' m 'in' k" := (st_bind m (fun p => k))
  (at level 200, p pattern, m at level 100, k at level 200).

(** [self.packet_out.extend_from_slice(bytes)] *)
Definition extend (bytes : list Z) : PM unit :=
  modify (fun s => BitstreamParser.set_packet_out
                     (BitstreamParser.packet_out s ++ bytes) s).

(** nom's [bits] around a parser that uses [self]. *)
Definition bits_st {A} (p : BitInput -> PM (BitInput * A)) (input : list Z)
  : PM (list Z * A) :=
  let% (i', a) := p (mkBitInput input 0) in
  ret (if (bi_off i' =? 0)%nat then bi_bytes i' else tl (bi_bytes i'), a).

(* ------------------------------------------------------------------ *)
(** ** [sequence.rs]: sequence header parsing *)

Definition timing_info (input : BitInput) : outcome (BitInput * TimingInfo) :=
  let* (input, _num_units_in_display_tick) := take 32 input in
  let* (input, _time_scale) := take 32 input in
  let* (input, equal_picture_interval) := take_bool_bit input in
  let* input :=
    if equal_picture_interval then
      let* (input, _num_ticks_per_picture_minus_1) := uvlc input in Ok input
    else Ok input in
  Ok (input, mkTimingInfo equal_picture_interval).

Definition decoder_model_info (input : BitInput) : outcome (BitInput * DecoderModelInfo) :=
  let* (input, buffer_delay_length_minus_1) := take 5 input in
  let* (input, _num_units_in_decoding_tick) := take 32 input in
  let* (input, buffer_removal_time_length_minus_1) := take 5 input in
  let* (input, frame_presentation_time_length_minus_1) := take 5 input in
  Ok (input, mkDecoderModelInfo buffer_delay_length_minus_1
               buffer_removal_time_length_minus_1
               frame_presentation_time_length_minus_1).

Definition operating_parameters_info (input : BitInput) (buffer_delay_length : nat)
  : outcome (BitInput * unit) :=
  let* (input, _decoder_buffer_delay) := take buffer_delay_length input in
  let* (input, _encoder_buffer_delay) := take buffer_delay_length input in
  let* (input, _low_delay_mode_flag) := take_bool_bit input in
  Ok (input, tt).

Definition color_config (input : BitInput) (seq_profile : Z)
  : outcome (BitInput * ColorConfig) :=
  let* (input, high_bitdepth) := take_bool_bit input in
  let* (input, bit_depth) :=
    if (seq_profile =? 2) && high_bitdepth then
      let* (input, twelve_bit) := take_bool_bit input in
      Ok (input, if twelve_bit then 12 else 10)
    else Ok (input, if high_bitdepth then 10 else 8) in
  let* (input, monochrome) :=
    if seq_profile =? 1 then Ok (input, false) else take_bool_bit input in
  let num_planes := if monochrome then 1 else 3 in
  let* (input, color_description_present_flag) := take_bool_bit input in
  let* (input, (color_primaries, transfer_characteristics, matrix_coefficients)) :=
    if color_description_present_flag then
      let* (input, color_primaries) := take 8 input in
      let* (input, transfer_characteristics) := take 8 input in
      let* (input, matrix_coefficients) := take 8 input in
      let* cp := try_from_unwrap ColorPrimaries_valid color_primaries in
      let* tc := try_from_unwrap TransferCharacteristics_valid transfer_characteristics in
      let* mc := try_from_unwrap MatrixCoefficients_valid matrix_coefficients in
      Ok (input, (cp, tc, mc))
    else
      Ok (input, (ColorPrimaries_Unspecified, TransferCharacteristics_Unspecified,
                  MatrixCoefficients_Unspecified)) in
  if monochrome then
    let* (input, color_range) := take 1 input in
    let* color_range := try_from_unwrap ColorRange_valid color_range in
    Ok (input, mkColorConfig color_primaries transfer_characteristics
                 matrix_coefficients color_range num_planes false (1, 1))
  else
  let* (input, (color_range, subsampling)) :=
    if (color_primaries =? ColorPrimaries_Bt709)
       && (transfer_characteristics =? TransferCharacteristics_Srgb)
       && (matrix_coefficients =? MatrixCoefficients_Identity) then
      Ok (input, (ColorRange_Full, (0, 0)))
    else
      let* (input, color_range) := take 1 input in
      let* (input, (ss_x, ss_y)) :=
        if seq_profile =? 0 then Ok (input, (1, 1))
        else if seq_profile =? 1 then Ok (input, (0, 0))
        else if bit_depth =? 12 then
          let* (input, ss_x) := take 1 input in
          let* (input, ss_y) := if 0 <? ss_x then take 1 input else Ok (input, 0) in
          Ok (input, (ss_x, ss_y))
        else Ok (input, (1, 0)) in
      let* input :=
        if (0 <? ss_x) && (0 <? ss_y) then
          let* (input, _chroma_sample_position) := take 2 input in Ok input
        else Ok input in
      let* color_range := try_from_unwrap ColorRange_valid color_range in
      Ok (input, (color_range, (ss_x, ss_y))) in
  let* (input, separate_uv_delta_q) := take_bool_bit input in
  Ok (input, mkColorConfig color_primaries transfer_characteristics
               matrix_coefficients color_range num_planes separate_uv_delta_q
               subsampling).

(** [const fn choose_operating_point() -> usize { 0 }] *)
Definition choose_operating_point : nat := 0.

(** The [for _ in 0..=operating_points_cnt_minus_1] loop of
    [parse_sequence_header]. *)
Fixpoint operating_points_loop (n : nat) (input : BitInput)
  (decoder_model_info : option DecoderModelInfo)
  (initial_display_delay_present_flag : bool)
  (decoder_model_present_for_op : list bool) (operating_point_idc : list Z)
  : outcome (BitInput * (list bool * list Z)) :=
  match n with
  | O => Ok (input, (decoder_model_present_for_op, operating_point_idc))
  | S n' =>
      let inner_input := input in
      let* (inner_input, cur_operating_point_idc) := take 12 inner_input in
      let* operating_point_idc := push_capped 32 operating_point_idc cur_operating_point_idc in
      let* (inner_input, seq_level_idx) := take 5 inner_input in
      let* (inner_input, _seq_tier) :=
        if 7 <? seq_level_idx then take_bool_bit inner_input else Ok (inner_input, false) in
      let* (inner_input, cur_decoder_model_present_for_op) :=
        match decoder_model_info with
        | Some dmi =>
            let* (inner_input, flag) := take_bool_bit inner_input in
            if flag then
              let* (inner_input, _) := operating_parameters_info inner_input
                   (Z.to_nat (buffer_delay_length_minus_1 dmi + 1)) in
              Ok (inner_input, flag)
            else Ok (inner_input, flag)
        | None => Ok (inner_input, false)
        end in
      let* decoder_model_present_for_op :=
        push_capped 32 decoder_model_present_for_op cur_decoder_model_present_for_op in
      let* (inner_input, _initial_display_delay_present_for_op) :=
        if initial_display_delay_present_flag then
          let* (inner_input, flag) := take_bool_bit inner_input in
          if flag then
            let* (inner_input, _initial_display_delay_minus_1) := take 4 inner_input in
            Ok (inner_input, flag)
          else Ok (inner_input, flag)
        else Ok (inner_input, false) in
      operating_points_loop n' inner_input decoder_model_info
        initial_display_delay_present_flag decoder_model_present_for_op
        operating_point_idc
  end.

(** The part of the [bits] closure of [parse_sequence_header] before the
    [if WRITE] block: it touches neither [self] nor [packet_out].  The
    header it builds still lacks [film_grain_params_present], which is
    read after that block. *)
Definition sequence_header_fields (input : BitInput)
  : outcome (BitInput * (bool -> SequenceHeader.t)) :=
  let* (input, seq_profile) := take 3 input in
  let* (input, _still_picture) := take_bool_bit input in
  let* (input, reduced_still_picture_header) := take_bool_bit input in
  let* (input, (decoder_model_info, operating_points_cnt_minus_1,
                decoder_model_present_for_op, operating_point_idc, timing_info)) :=
    if reduced_still_picture_header then
      let* (input, _seq_level_idx) := take 5 input in
      Ok (input, (None, 0, [], [], None))
    else
      let* (input, timing_info_present_flag) := take_bool_bit input in
      let* (input, (decoder_model_info, timing_info)) :=
        if timing_info_present_flag then
          let* (input, timing_info) := timing_info input in
          let* (input, flag) := take_bool_bit input in
          let* (input, (decoder_model, timing_info)) :=
            if flag then
              let* (input, decoder_model) := decoder_model_info input in
              Ok (input, (Some decoder_model, timing_info))
            else Ok (input, (None, timing_info)) in
          Ok (input, (decoder_model, Some timing_info))
        else Ok (input, (None, None)) in
      let* (input, initial_display_delay_present_flag) := take_bool_bit input in
      let* (input, operating_points_cnt_minus_1) := take 5 input in
      let* (input, (decoder_model_present_for_op, operating_point_idc)) :=
        operating_points_loop (Z.to_nat (operating_points_cnt_minus_1 + 1)) input
          decoder_model_info initial_display_delay_present_flag [] [] in
      Ok (input, (decoder_model_info, operating_points_cnt_minus_1,
                  decoder_model_present_for_op, operating_point_idc, timing_info)) in
  let operating_point := choose_operating_point in
  let* cur_operating_point_idc := index operating_point_idc operating_point in
  let* (input, frame_width_bits_minus_1) := take 4 input in
  let* (input, frame_height_bits_minus_1) := take 4 input in
  let* (input, max_frame_width_minus_1) :=
    take (Z.to_nat (frame_width_bits_minus_1 + 1)) input in
  let* (input, max_frame_height_minus_1) :=
    take (Z.to_nat (frame_height_bits_minus_1 + 1)) input in
  let* (input, frame_id_numbers_present) :=
    if reduced_still_picture_header then Ok (input, false) else take_bool_bit input in
  let* (input, (delta_frame_id_len_minus_2, additional_frame_id_len_minus_1)) :=
    if frame_id_numbers_present then
      let* (input, delta_frame_id_len_minus_2) := take 4 input in
      let* (input, additional_frame_id_len_minus_1) := take 3 input in
      Ok (input, (delta_frame_id_len_minus_2, additional_frame_id_len_minus_1))
    else Ok (input, (0, 0)) in
  let* (input, use_128x128_superblock) := take_bool_bit input in
  let* (input, _enable_filter_intra) := take_bool_bit input in
  let* (input, _enable_intra_edge_filter) := take_bool_bit input in
  let* (input, (force_screen_content_tools, force_integer_mv, order_hint_bits,
                enable_ref_frame_mvs, enable_warped_motion)) :=
    if reduced_still_picture_header then
      Ok (input, (SELECT_SCREEN_CONTENT_TOOLS, SELECT_INTEGER_MV, 0, false, false))
    else
      let* (input, _enable_interintra_compound) := take_bool_bit input in
      let* (input, _enable_masked_compound) := take_bool_bit input in
      let* (input, enable_warped_motion) := take_bool_bit input in
      let* (input, _enable_dual_filter) := take_bool_bit input in
      let* (input, enable_order_hint) := take_bool_bit input in
      let* (input, enable_ref_frame_mvs) :=
        if enable_order_hint then
          let* (input, _enable_jnt_comp) := take_bool_bit input in
          let* (input, enable_ref_frame_mvs) := take_bool_bit input in
          Ok (input, enable_ref_frame_mvs)
        else Ok (input, false) in
      let* (input, seq_choose_screen_content_tools) := take_bool_bit input in
      let* (input, seq_force_screen_content_tools) :=
        if seq_choose_screen_content_tools then Ok (input, SELECT_SCREEN_CONTENT_TOOLS)
        else take 1 input in
      let* (input, seq_force_integer_mv) :=
        if 0 <? seq_force_screen_content_tools then
          let* (input, seq_choose_integer_mv) := take_bool_bit input in
          if seq_choose_integer_mv then Ok (input, SELECT_INTEGER_MV) else take 1 input
        else Ok (input, SELECT_INTEGER_MV) in
      let* (input, order_hint_bits) :=
        if enable_order_hint then
          let* (input, order_hint_bits_minus_1) := take 3 input in
          Ok (input, order_hint_bits_minus_1 + 1)
        else Ok (input, 0) in
      Ok (input, (seq_force_screen_content_tools, seq_force_integer_mv,
                  order_hint_bits, enable_ref_frame_mvs, enable_warped_motion)) in
  let* (input, enable_superres) := take_bool_bit input in
  let* (input, enable_cdef) := take_bool_bit input in
  let* (input, enable_restoration) := take_bool_bit input in
  let* (input, color_config) := color_config input seq_profile in
  Ok (input, fun film_grain_params_present =>
    SequenceHeader.mk reduced_still_picture_header frame_id_numbers_present
      additional_frame_id_len_minus_1 delta_frame_id_len_minus_2
      film_grain_params_present force_screen_content_tools force_integer_mv
      order_hint_bits frame_width_bits_minus_1 frame_height_bits_minus_1
      max_frame_width_minus_1 max_frame_height_minus_1 decoder_model_info
      decoder_model_present_for_op operating_points_cnt_minus_1
      operating_point_idc cur_operating_point_idc timing_info
      enable_ref_frame_mvs enable_warped_motion enable_superres enable_cdef
      enable_restoration use_128x128_superblock color_config).

(** [u8::set_bit(pos, value)] of the [bit] crate; [pos] counts from the
    least significant bit. *)
Definition set_bit (b : Z) (pos : nat) (value : bool) : Z :=
  if value then Z.lor b (Z.shiftl 1 (Z.of_nat pos))
  else Z.land b (Z.lxor 255 (Z.shiftl 1 (Z.of_nat pos))).

(* ------------------------------------------------------------------ *)
(** ** [frame.rs]: constants and free functions *)

Definition REFS_PER_FRAME : nat := 7.
Definition TOTAL_REFS_PER_FRAME : nat := 8.
Definition NUM_REF_FRAMES : nat := 8.
Definition REFRESH_ALL_FRAMES : Z := 255.
Definition PRIMARY_REF_NONE : Z := 7.
Definition RefType_Last : nat := 1.

Definition SUPERRES_DENOM_BITS : nat := 3.
Definition SUPERRES_DENOM_MIN : Z := 9.
Definition SUPERRES_NUM : Z := 8.

Definition MAX_TILE_WIDTH : Z := 4096.
Definition MAX_TILE_COLS : Z := 64.
Definition MAX_TILE_ROWS : Z := 64.
Definition MAX_TILE_AREA : Z := 4096 * 2304.

Definition MAX_SEGMENTS : nat := 8.
Definition SEG_LVL_MAX : nat := 8.
Definition SEG_LVL_ALT_Q : nat := 0.
Definition SEGMENTATION_FEATURE_BITS : list nat := [8; 6; 6; 6; 6; 3; 0; 0]%nat.
Definition SEGMENTATION_FEATURE_SIGNED : list bool :=
  [true; true; true; true; true; false; false; false].
Definition MAX_LOOP_FILTER : Z := 63.
Definition SEGMENTATION_FEATURE_MAX : list Z :=
  [255; MAX_LOOP_FILTER; MAX_LOOP_FILTER; MAX_LOOP_FILTER; MAX_LOOP_FILTER; 7; 0; 0].

(** [[[Option<i16>; SEG_LVL_MAX]; MAX_SEGMENTS]] *)
Definition SegmentationData : Type := list (list (option Z)).
Definition SegmentationData_default : SegmentationData :=
  repeat (repeat None SEG_LVL_MAX) MAX_SEGMENTS.

Definition INTERP_FILTER_SWITCHABLE : Z := 4.
Definition RESTORE_NONE : Z := 0.

(** The functions of [frame.rs] that read nothing. *)
Definition decode_frame_wrapup (input : BitInput) : outcome (BitInput * unit) := Ok (input, tt).
Definition set_frame_refs (input : BitInput) : outcome (BitInput * unit) := Ok (input, tt).
Definition init_non_coeff_cdfs (input : BitInput) : outcome (BitInput * unit) := Ok (input, tt).
Definition setup_past_independence (input : BitInput) : outcome (BitInput * unit) := Ok (input, tt).
Definition load_cdfs (input : BitInput) : outcome (BitInput * unit) := Ok (input, tt).
Definition load_previous (input : BitInput) : outcome (BitInput * unit) := Ok (input, tt).
Definition motion_field_estimation (input : BitInput) : outcome (BitInput * unit) := Ok (input, tt).
Definition init_coeff_cdfs (input : BitInput) : outcome (BitInput * unit) := Ok (input, tt).
Definition load_previous_segment_ids (input : BitInput) : outcome (BitInput * unit) := Ok (input, tt).

Definition temporal_point_info (input : BitInput) (frame_presentation_time_length : nat)
  : outcome (BitInput * unit) :=
  let* (input, _frame_presentation_time) := take frame_presentation_time_length input in
  Ok (input, tt).

Record Dimensions : Type := mkDimensions { width : Z; height : Z }.

(** [superres_params] writes through its two [&mut Dimensions]; the
    model returns their new values [(frame_size, upscaled_size)]. *)
Definition superres_params (input : BitInput) (enable_superres : bool)
  (frame_size upscaled_size : Dimensions)
  : outcome (BitInput * (Dimensions * Dimensions)) :=
  let* (input, use_superres) :=
    if enable_superres then take_bool_bit input else Ok (input, false) in
  let* (input, superres_denom) :=
    if use_superres then
      let* (input, coded_denom) := take SUPERRES_DENOM_BITS input in
      Ok (input, coded_denom + SUPERRES_DENOM_MIN)
    else Ok (input, SUPERRES_NUM) in
  let upscaled_size := mkDimensions (width frame_size) (height upscaled_size) in
  let frame_size := mkDimensions
    ((width upscaled_size * SUPERRES_NUM + superres_denom / 2) / superres_denom)
    (height frame_size) in
  Ok (input, (frame_size, upscaled_size)).

Definition frame_size (input : BitInput) (frame_size_override : bool)
  (enable_superres : bool) (frame_width_bits frame_height_bits : nat)
  (max_frame_size : Dimensions) : outcome (BitInput * Dimensions) :=
  let* (input, (width, height)) :=
    if frame_size_override then
      let* (input, width_minus_1) := take frame_width_bits input in
      let* (input, height_minus_1) := take frame_height_bits input in
      Ok (input, (width_minus_1 + 1, height_minus_1 + 1))
    else Ok (input, (width max_frame_size, height max_frame_size)) in
  let frame_size := mkDimensions width height in
  let upscaled_size := frame_size in
  let* (input, (frame_size, _upscaled_size)) :=
    superres_params input enable_superres frame_size upscaled_size in
  Ok (input, frame_size).

Definition render_size (input : BitInput) (frame_size upscaled_size : Dimensions)
  : outcome (BitInput * Dimensions) :=
  let* (input, render_and_frame_size_different) := take_bool_bit input in
  let* (input, (width, height)) :=
    if render_and_frame_size_different then
      let* (input, render_width_minus_1) := take 16 input in
      let* (input, render_height_minus_1) := take 16 input in
      Ok (input, (render_width_minus_1 + 1, render_height_minus_1 + 1))
    else Ok (input, (width upscaled_size, height frame_size)) in
  Ok (input, mkDimensions width height).

(** The [for _ in 0..REFS_PER_FRAME] loop of [frame_size_with_refs],
    returning [found_ref]. *)
Fixpoint found_ref_loop (n : nat) (input : BitInput) : outcome (BitInput * bool) :=
  match n with
  | O => Ok (input, false)
  | S n' =>
      let* (inner_input, found_this_ref) := take_bool_bit input in
      if found_this_ref then Ok (inner_input, true) else found_ref_loop n' inner_input
  end.

(** Returns the frame size and the new value of [*ref_upscaled_size]
    (the only one of the two [&mut] arguments the caller reads again). *)
Definition frame_size_with_refs (input : BitInput) (enable_superres : bool)
  (frame_size_override : bool) (frame_width_bits frame_height_bits : nat)
  (max_frame_size : Dimensions) (ref_frame_size ref_upscaled_size : Dimensions)
  : outcome (BitInput * (Dimensions * Dimensions)) :=
  let* (input, found_ref) := found_ref_loop REFS_PER_FRAME input in
  if found_ref then
    let* (input, (ref_frame_size, ref_upscaled_size)) :=
      superres_params input enable_superres ref_frame_size ref_upscaled_size in
    Ok (input, (ref_frame_size, ref_upscaled_size))
  else
    let* (input, frame_size) := frame_size input frame_size_override enable_superres
                                  frame_width_bits frame_height_bits max_frame_size in
    let* (input, _) := render_size input frame_size ref_upscaled_size in
    Ok (input, (frame_size, ref_upscaled_size)).

Definition compute_image_size (frame_size : Dimensions) : Z * Z :=
  let mi_cols := 2 * Z.shiftr (width frame_size + 7) 3 in
  let mi_rows := 2 * Z.shiftr (height frame_size + 7) 3 in
  (mi_cols, mi_rows).

Definition read_interpolation_filter (input : BitInput) : outcome (BitInput * unit) :=
  let* (input, is_filter_switchable) := take_bool_bit input in
  let* (input, _interpolation_filter) :=
    if is_filter_switchable then Ok (input, INTERP_FILTER_SWITCHABLE) else take 2 input in
  Ok (input, tt).

(** [tile_log2]: the smallest [k] with [blk_size << k >= target].  Every
    call has [blk_size >= 1] and [target <= 2^20], so 64 rounds reach it. *)
Fixpoint tile_log2_loop (fuel : nat) (blk_size target k : Z) : Z :=
  match fuel with
  | O => k
  | S f => if Z.shiftl blk_size k <? target then tile_log2_loop f blk_size target (k + 1) else k
  end.

Definition tile_log2 (blk_size target : Z) : Z := tile_log2_loop 64 blk_size target 0.

(** [while log2 < max_log2 { if take_bool_bit()? { log2 += 1 } else { break } }] *)
Fixpoint increment_log2 (fuel : nat) (input : BitInput) (log2 max_log2 : Z)
  : outcome (BitInput * Z) :=
  match fuel with
  | O => Ok (input, log2)
  | S f =>
      if log2 <? max_log2 then
        let* (inner_input, increment) := take_bool_bit input in
        if increment then increment_log2 f inner_input (log2 + 1) max_log2
        else Ok (inner_input, log2)
      else Ok (input, log2)
  end.

(** [for i in (0..n).step_by(step) { last = i + 1; }], starting from
    [last = init]; [step_by(0)] panics. *)
Definition step_by_last (n step init : Z) : outcome Z :=
  if step =? 0 then Panic
  else if n <=? 0 then Ok init
  else Ok ((n - 1) / step * step + 1).

(** The [while start_sb < sb_count] loops of the non-uniform branch of
    [tile_info]: the widest tile and the number of tiles.  Every round
    advances [start_sb], so [sb_count + 1] rounds suffice. *)
Fixpoint tile_sizes_loop (fuel : nat) (input : BitInput)
  (start_sb sb_count max_tile_sb widest i : Z) : outcome (BitInput * (Z * Z)) :=
  match fuel with
  | O => Ok (input, (widest, i))
  | S f =>
      if start_sb <? sb_count then
        let max_size := Z.min (sb_count - start_sb) max_tile_sb in
        let* (inner_input, size_in_sbs_minus_1) := ns input max_size in
        let size_sb := size_in_sbs_minus_1 + 1 in
        tile_sizes_loop f inner_input (start_sb + size_sb) sb_count max_tile_sb
          (Z.max size_sb widest) (i + 1)
      else Ok (input, (widest, i))
  end.

Definition tile_info (input : BitInput) (use_128x128_superblock : bool)
  (mi_cols mi_rows : Z) : outcome (BitInput * TileInfo) :=
  let sb_cols := if use_128x128_superblock then Z.shiftr (mi_cols + 31) 5
                 else Z.shiftr (mi_cols + 15) 4 in
  let sb_rows := if use_128x128_superblock then Z.shiftr (mi_rows + 31) 5
                 else Z.shiftr (mi_rows + 15) 4 in
  let sb_shift := if use_128x128_superblock then 5 else 4 in
  let sb_size := sb_shift + 2 in
  let max_tile_width_sb := Z.shiftr MAX_TILE_WIDTH sb_size in
  let max_tile_area_sb := Z.shiftr MAX_TILE_AREA (2 * sb_size) in
  let min_log2_tile_cols := tile_log2 max_tile_width_sb sb_cols in
  let max_log2_tile_cols := tile_log2 1 (Z.min sb_cols MAX_TILE_COLS) in
  let max_log2_tile_rows := tile_log2 1 (Z.min sb_rows MAX_TILE_ROWS) in
  let min_log2_tiles :=
    Z.max min_log2_tile_cols (tile_log2 max_tile_area_sb (sb_rows * sb_cols)) in
  let* (input, uniform_tile_spacing_flag) := take_bool_bit input in
  let* (input, (tile_cols, tile_rows, tile_cols_log2, tile_rows_log2)) :=
    if uniform_tile_spacing_flag then
      let* (input, tile_cols_log2) :=
        increment_log2 64 input min_log2_tile_cols max_log2_tile_cols in
      let tile_width_sb :=
        Z.shiftr (sb_cols + Z.shiftl 1 tile_cols_log2 - 1) tile_cols_log2 in
      let* tile_cols := step_by_last sb_cols tile_width_sb 0 in
      let min_log2_tile_rows := Z.max (min_log2_tiles - tile_cols_log2) 0 in
      let* (input, tile_rows_log2) :=
        increment_log2 64 input min_log2_tile_rows max_log2_tile_rows in
      let tile_height_sb :=
        Z.shiftr (sb_rows + Z.shiftl 1 tile_rows_log2 - 1) tile_rows_log2 in
      let* tile_rows := step_by_last sb_rows tile_height_sb 0 in
      Ok (input, (tile_cols, tile_rows, tile_cols_log2, tile_rows_log2))
    else
      let* (input, (widest_tile_sb, tile_cols)) :=
        tile_sizes_loop (S (Z.to_nat sb_cols)) input 0 sb_cols max_tile_width_sb 0 0 in
      let* quot := if widest_tile_sb =? 0 then Panic
                   else Ok (max_tile_area_sb / widest_tile_sb) in
      let max_tile_height_sb := Z.max quot 1 in
      let* (input, (_, tile_rows)) :=
        tile_sizes_loop (S (Z.to_nat sb_rows)) input 0 sb_rows max_tile_height_sb 0 0 in
      Ok (input, (tile_cols, tile_rows, tile_log2 1 tile_cols, tile_log2 1 tile_rows)) in
  if negb (0 <? tile_cols) then Panic else
  if negb (0 <? tile_rows) then Panic else
  let* input :=
    if (0 <? tile_cols_log2) || (0 <? tile_rows_log2) then
      let* (input, _context_update_tile_id) :=
        take (Z.to_nat (tile_rows_log2 + tile_cols_log2)) input in
      let* (input, _tile_size_bytes_minus_1) := take 2 input in
      Ok input
    else Ok input in
  Ok (input, mkTileInfo tile_cols tile_rows tile_cols_log2 tile_rows_log2).

Record QuantizationParams : Type := mkQuantizationParams {
  base_q_idx : Z;
  deltaq_y_dc : Z;
  deltaq_u_dc : Z;
  deltaq_u_ac : Z;
  deltaq_v_dc : Z;
  deltaq_v_ac : Z }.

Definition read_delta_q (input : BitInput) : outcome (BitInput * Z) :=
  let* (input, delta_coded) := take_bool_bit input in
  if delta_coded then su input (1 + 6) else Ok (input, 0).

Definition quantization_params (input : BitInput) (num_planes : Z)
  (separate_uv_delta_q : bool) : outcome (BitInput * QuantizationParams) :=
  let* (input, base_q_idx) := take 8 input in
  let* (input, deltaq_y_dc) := read_delta_q input in
  let* (input, (deltaq_u_dc, deltaq_u_ac, deltaq_v_dc, deltaq_v_ac)) :=
    if 1 <? num_planes then
      let* (input, diff_uv_delta) :=
        if separate_uv_delta_q then take_bool_bit input else Ok (input, false) in
      let* (input, deltaq_u_dc) := read_delta_q input in
      let* (input, deltaq_u_ac) := read_delta_q input in
      let* (input, (deltaq_v_dc, deltaq_v_ac)) :=
        if diff_uv_delta then
          let* (input, deltaq_v_dc) := read_delta_q input in
          let* (input, deltaq_v_ac) := read_delta_q input in
          Ok (input, (deltaq_v_dc, deltaq_v_ac))
        else Ok (input, (deltaq_u_dc, deltaq_u_ac)) in
      Ok (input, (deltaq_u_dc, deltaq_u_ac, deltaq_v_dc, deltaq_v_ac))
    else Ok (input, (0, 0, 0, 0)) in
  let* (input, using_qmatrix) := take_bool_bit input in
  let* input :=
    if using_qmatrix then
      let* (input, _qm_y) := take 4 input in
      let* (input, qm_u) := take 4 input in
      let* (input, _qm_v) := if separate_uv_delta_q then take 4 input else Ok (input, qm_u) in
      Ok input
    else Ok input in
  Ok (input, mkQuantizationParams base_q_idx deltaq_y_dc deltaq_u_dc deltaq_u_ac
               deltaq_v_dc deltaq_v_ac).

(** The inner [for j in 0..SEG_LVL_MAX] loop of [segmentation_params]. *)
Fixpoint segmentation_features_loop (i : nat) (js : list nat) (input : BitInput)
  (segmentation_data : SegmentationData) : outcome (BitInput * SegmentationData) :=
  match js with
  | [] => Ok (input, segmentation_data)
  | j :: js' =>
      let* (inner_input, feature_enabled) := take_bool_bit input in
      let* (input, segmentation_data) :=
        if feature_enabled then
          let bits_to_read := nth j SEGMENTATION_FEATURE_BITS 0%nat in
          let limit := nth j SEGMENTATION_FEATURE_MAX 0 in
          let* (inner_input, feature_value) :=
            if nth j SEGMENTATION_FEATURE_SIGNED false then
              let* (input, value) := su inner_input (1 + bits_to_read) in
              Ok (input, clamp value (- limit) limit)
            else
              let* (input, value) := take bits_to_read inner_input in
              Ok (input, clamp value 0 limit) in
          Ok (inner_input, list_set segmentation_data i
                (list_set (nth i segmentation_data []) j (Some feature_value)))
        else Ok (inner_input, segmentation_data) in
      segmentation_features_loop i js' input segmentation_data
  end.

(** The outer [for i in 0..MAX_SEGMENTS] loop. *)
Fixpoint segmentation_segments_loop (is : list nat) (input : BitInput)
  (segmentation_data : SegmentationData) : outcome (BitInput * SegmentationData) :=
  match is with
  | [] => Ok (input, segmentation_data)
  | i :: is' =>
      let* (input, segmentation_data) :=
        segmentation_features_loop i (seq 0 SEG_LVL_MAX) input segmentation_data in
      segmentation_segments_loop is' input segmentation_data
  end.

Definition segmentation_params (input : BitInput) (primary_ref_frame : Z)
  : outcome (BitInput * option SegmentationData) :=
  let segmentation_data := SegmentationData_default in
  let* (input, segmentation_enabled) := take_bool_bit input in
  let* (input, segmentation_data) :=
    if segmentation_enabled then
      let* (input, segmentation_update_data) :=
        if primary_ref_frame =? PRIMARY_REF_NONE then Ok (input, true)
        else
          let* (input, segmentation_update_map) := take_bool_bit input in
          let* input :=
            if segmentation_update_map then
              let* (input, _segmentation_temporal_update) := take_bool_bit input in Ok input
            else Ok input in
          take_bool_bit input in
      if segmentation_update_data then
        segmentation_segments_loop (seq 0 MAX_SEGMENTS) input segmentation_data
      else Ok (input, segmentation_data)
    else Ok (input, segmentation_data) in
  Ok (input, if segmentation_enabled then Some segmentation_data else None).

Definition delta_q_params (input : BitInput) (base_q_idx : Z) : outcome (BitInput * bool) :=
  let* (input, delta_q_present) :=
    if 0 <? base_q_idx then take_bool_bit input else Ok (input, false) in
  let* (input, _delta_q_res) := if delta_q_present then take 2 input else Ok (input, 0) in
  Ok (input, delta_q_present).

Definition delta_lf_params (input : BitInput) (delta_q_present allow_intrabc : bool)
  : outcome (BitInput * unit) :=
  let* input :=
    if delta_q_present then
      let* (input, delta_lf_present) :=
        if allow_intrabc then Ok (input, false) else take_bool_bit input in
      if delta_lf_present then
        let* (input, _delta_lf_res) := take 2 input in
        let* (input, _delta_lf_multi) := take_bool_bit input in
        Ok input
      else Ok input
    else Ok input in
  Ok (input, tt).

(** [for _ in 0..n { if take_bool_bit()? { su(1 + 6)?; } }] *)
Fixpoint delta_update_loop (n : nat) (input : BitInput) : outcome BitInput :=
  match n with
  | O => Ok input
  | S n' =>
      let* (inner_input, update) := take_bool_bit input in
      let* input :=
        if update then let* (inner_input, _delta) := su inner_input (1 + 6) in Ok inner_input
        else Ok inner_input in
      delta_update_loop n' input
  end.

Definition loop_filter_params (input : BitInput) (coded_lossless allow_intrabc : bool)
  (num_planes : Z) : outcome (BitInput * unit) :=
  if coded_lossless || allow_intrabc then Ok (input, tt) else
  let* (input, loop_filter_l0) := take 6 input in
  let* (input, loop_filter_l1) := take 6 input in
  let* input :=
    if (1 <? num_planes) && ((0 <? loop_filter_l0) || (0 <? loop_filter_l1)) then
      let* (input, _loop_filter_l2) := take 6 input in
      let* (input, _loop_filter_l3) := take 6 input in
      Ok input
    else Ok input in
  let* (input, _loop_filter_sharpness) := take 3 input in
  let* (input, loop_filter_delta_enabled) := take_bool_bit input in
  let* input :=
    if loop_filter_delta_enabled then
      let* (input, loop_filter_delta_update) := take_bool_bit input in
      if loop_filter_delta_update then
        let* input := delta_update_loop TOTAL_REFS_PER_FRAME input in
        delta_update_loop 2 input
      else Ok input
    else Ok input in
  Ok (input, tt).

(** The [for _ in 0..(1 << cdef_bits)] loop of [cdef_params]. *)
Fixpoint cdef_strengths_loop (n : nat) (input : BitInput) (num_planes : Z)
  : outcome BitInput :=
  match n with
  | O => Ok input
  | S n' =>
      let* (inner_input, _cdef_y_pri_str) := take 4 input in
      let* (inner_input, _cdef_y_sec_str) := take 2 inner_input in
      let* input :=
        if 1 <? num_planes then
          let* (inner_input, _cdef_uv_pri_str) := take 4 inner_input in
          let* (inner_input, _cdef_uv_sec_str) := take 2 inner_input in
          Ok inner_input
        else Ok inner_input in
      cdef_strengths_loop n' input num_planes
  end.

Definition cdef_params (input : BitInput) (coded_lossless allow_intrabc enable_cdef : bool)
  (num_planes : Z) : outcome (BitInput * unit) :=
  if coded_lossless || allow_intrabc || negb enable_cdef then Ok (input, tt) else
  let* (input, _cdef_damping_minus_3) := take 2 input in
  let* (input, cdef_bits) := take 2 input in
  let* input := cdef_strengths_loop (Z.to_nat (Z.shiftl 1 cdef_bits)) input num_planes in
  Ok (input, tt).

(** The [for i in 0..num_planes] loop of [lr_params]: returns
    [(uses_lr, uses_chroma_lr)]. *)
Fixpoint lr_types_loop (is : list Z) (input : BitInput) (uses_lr uses_chroma_lr : bool)
  : outcome (BitInput * (bool * bool)) :=
  match is with
  | [] => Ok (input, (uses_lr, uses_chroma_lr))
  | i :: is' =>
      let* (inner_input, lr_type) := take 2 input in
      let '(uses_lr, uses_chroma_lr) :=
        if negb (lr_type =? RESTORE_NONE) then (true, uses_chroma_lr || (0 <? i))
        else (uses_lr, uses_chroma_lr) in
      lr_types_loop is' inner_input uses_lr uses_chroma_lr
  end.

Definition lr_params (input : BitInput)
  (all_lossless allow_intrabc enable_restoration use_128x128_superblock : bool)
  (num_planes : Z) (subsampling : Z * Z) : outcome (BitInput * unit) :=
  if all_lossless || allow_intrabc || negb enable_restoration then Ok (input, tt) else
  let* (input, (uses_lr, uses_chroma_lr)) :=
    lr_types_loop (map Z.of_nat (seq 0 (Z.to_nat num_planes))) input false false in
  let* input :=
    if uses_lr then
      let* input :=
        if use_128x128_superblock then
          let* (input, _lr_unit_shift) := take_bool_bit input in Ok input
        else
          let* (input, lr_unit_shift) := take_bool_bit input in
          if lr_unit_shift then
            let* (input, _lr_unit_extra_shift) := take_bool_bit input in Ok input
          else Ok input in
      if (0 <? fst subsampling) && (0 <? snd subsampling) && uses_chroma_lr then
        let* (input, _lr_uv_shift) := take_bool_bit input in Ok input
      else Ok input
    else Ok input in
  Ok (input, tt).

Definition read_tx_mode (input : BitInput) (coded_lossless : bool) : outcome (BitInput * unit) :=
  let* input :=
    if coded_lossless then Ok input
    else let* (input, _tx_mode_select) := take_bool_bit input in Ok input in
  Ok (input, tt).

Definition frame_reference_mode (input : BitInput) (frame_is_intra : bool)
  : outcome (BitInput * bool) :=
  if frame_is_intra then Ok (input, false) else take_bool_bit input.

Definition get_relative_dist (a b order_hint_bits : Z) : Z :=
  if order_hint_bits =? 0 then 0 else
  let diff := a - b in
  let m := Z.shiftl 1 (order_hint_bits - 1) in
  Z.land diff (m - 1) - Z.land diff m.

(** The first [for i in 0..REFS_PER_FRAME] loop of [skip_mode_params]:
    [(forward_idx, forward_hint, backward_idx, backward_hint)]. *)
Fixpoint skip_mode_scan (is : list nat) (order_hint_bits order_hint : Z)
  (ref_order_hint ref_frame_idx : list Z) (acc : Z * Z * Z * Z) : Z * Z * Z * Z :=
  match is with
  | [] => acc
  | i :: is' =>
      let '(forward_idx, forward_hint, backward_idx, backward_hint) := acc in
      let ref_hint := nth (Z.to_nat (nth i ref_frame_idx 0)) ref_order_hint 0 in
      let acc :=
        if get_relative_dist ref_hint order_hint order_hint_bits <? 0 then
          if (forward_idx <? 0)
             || (0 <? get_relative_dist ref_hint forward_hint order_hint_bits) then
            (Z.of_nat i, ref_hint, backward_idx, backward_hint)
          else acc
        else if (0 <? get_relative_dist ref_hint order_hint order_hint_bits)
                && ((backward_idx <? 0)
                    || (get_relative_dist ref_hint backward_hint order_hint_bits <? 0)) then
          (forward_idx, forward_hint, Z.of_nat i, ref_hint)
        else acc in
      skip_mode_scan is' order_hint_bits order_hint ref_order_hint ref_frame_idx acc
  end.

(** The second loop: [(second_forward_idx, second_forward_hint)]. *)
Fixpoint skip_mode_scan2 (is : list nat) (order_hint_bits forward_hint : Z)
  (ref_order_hint ref_frame_idx : list Z) (acc : Z * Z) : Z * Z :=
  match is with
  | [] => acc
  | i :: is' =>
      let '(second_forward_idx, second_forward_hint) := acc in
      let ref_hint := nth (Z.to_nat (nth i ref_frame_idx 0)) ref_order_hint 0 in
      let acc :=
        if (get_relative_dist ref_hint forward_hint order_hint_bits <? 0)
           && ((second_forward_idx <? 0)
               || (0 <? get_relative_dist ref_hint second_forward_hint order_hint_bits)) then
          (Z.of_nat i, ref_hint)
        else acc in
      skip_mode_scan2 is' order_hint_bits forward_hint ref_order_hint ref_frame_idx acc
  end.

Definition skip_mode_params (input : BitInput) (frame_is_intra reference_select : bool)
  (order_hint_bits order_hint : Z) (ref_order_hint ref_frame_idx : list Z)
  : outcome (BitInput * unit) :=
  let skip_mode_allowed :=
    if frame_is_intra || negb reference_select || (order_hint_bits =? 0) then false
    else
      let '(forward_idx, forward_hint, backward_idx, _backward_hint) :=
        skip_mode_scan (seq 0 REFS_PER_FRAME) order_hint_bits order_hint
          ref_order_hint ref_frame_idx (-1, -1, -1, -1) in
      if forward_idx <? 0 then false
      else if 0 <=? backward_idx then true
      else
        let '(second_forward_idx, _) :=
          skip_mode_scan2 (seq 0 REFS_PER_FRAME) order_hint_bits forward_hint
            ref_order_hint ref_frame_idx (-1, -1) in
        negb (second_forward_idx <? 0) in
  let* (input, _skip_mode_present) :=
    if skip_mode_allowed then take_bool_bit input else Ok (input, false) in
  Ok (input, tt).

(** The [for _ in Last..=Altref] loop (7 rounds) of [global_motion_params]. *)
Fixpoint global_motion_loop (n : nat) (outer_input : BitInput) : outcome BitInput :=
  match n with
  | O => Ok outer_input
  | S n' =>
      let input := outer_input in
      let* (input, is_global) := take_bool_bit input in
      let* outer_input :=
        if is_global then
          let* (input, is_rot_zoom) := take_bool_bit input in
          if is_rot_zoom then Ok input
          else let* (input, _is_translation) := take_bool_bit input in Ok input
        else Ok input in
      global_motion_loop n' outer_input
  end.

Definition global_motion_params (input : BitInput) (frame_is_intra : bool)
  : outcome (BitInput * unit) :=
  if frame_is_intra then Ok (input, tt) else
  let* outer_input := global_motion_loop 7 input in
  Ok (outer_input, tt).

Definition seg_feature_active_idx (segment_id feature : nat)
  (feature_data : option SegmentationData) : bool :=
  match feature_data with
  | Some d => match nth feature (nth segment_id d []) None with Some _ => true | None => false end
  | None => false
  end.

(** [get_qindex]; the two [unwrap]s are guarded by
    [seg_feature_active_idx], so the default values are never used. *)
Definition get_qindex (ignore_delta_q : bool) (segment_id : nat) (base_q_idx : Z)
  (current_q_index : option Z) (feature_data : option SegmentationData) : Z :=
  if seg_feature_active_idx segment_id SEG_LVL_ALT_Q feature_data then
    let data := match feature_data with
                | Some d => match nth SEG_LVL_ALT_Q (nth segment_id d []) None with
                            | Some v => v | None => 0 end
                | None => 0 end in
    let qindex := base_q_idx + data in
    let qindex :=
      if negb ignore_delta_q then
        match current_q_index with Some c => c + data | None => qindex end
      else qindex in
    clamp qindex 0 255
  else if negb ignore_delta_q && match current_q_index with Some _ => true | None => false end then
    match current_q_index with Some c => c | None => base_q_idx end
  else base_q_idx.

(** The [for segment_id in 0..MAX_SEGMENTS] loop computing [coded_lossless]. *)
Fixpoint coded_lossless_loop (segment_ids : list nat) (q_params : QuantizationParams)
  (segmentation_data : option SegmentationData) : bool :=
  match segment_ids with
  | [] => true
  | segment_id :: rest =>
      let qindex := get_qindex true segment_id (base_q_idx q_params) None segmentation_data in
      let lossless := (qindex =? 0) && (deltaq_y_dc q_params =? 0)
        && (deltaq_u_ac q_params =? 0) && (deltaq_u_dc q_params =? 0)
        && (deltaq_v_ac q_params =? 0) && (deltaq_v_dc q_params =? 0) in
      if negb lossless then false else coded_lossless_loop rest q_params segmentation_data
  end.

(** The [for op_num in 0..=operating_points_cnt_minus_1] loop reading
    [buffer_removal_time]: each read starts from [inner_input] (the
    position after [buffer_removal_time_present_flag]) and its result
    replaces [input]. *)
Fixpoint buffer_removal_loop (ops : list nat) (sequence_header : SequenceHeader.t)
  (decoder_model_info : DecoderModelInfo) (obu_headers : ObuHeader)
  (inner_input input : BitInput) : outcome BitInput :=
  match ops with
  | [] => Ok input
  | op_num :: ops' =>
      let* present := index (SequenceHeader.decoder_model_present_for_op sequence_header) op_num in
      let* input :=
        if present then
          let* op_pt_idc := index (SequenceHeader.operating_point_idc sequence_header) op_num in
          let temporal_id := match extension obu_headers with
                             | Some ext => temporal_id ext | None => 0 end in
          let spatial_id := match extension obu_headers with
                            | Some ext => spatial_id ext | None => 0 end in
          let in_temporal_layer := 0 <? Z.land (Z.shiftr op_pt_idc temporal_id) 1 in
          let in_spatial_layer := 0 <? Z.land (Z.shiftr op_pt_idc (spatial_id + 8)) 1 in
          if (op_pt_idc =? 0) || (in_temporal_layer && in_spatial_layer) then
            let n := buffer_removal_time_length_minus_1 decoder_model_info + 1 in
            let* (inner_input', _buffer_removal_time) := take (Z.to_nat n) inner_input in
            Ok inner_input'
          else Ok input
        else Ok input in
      buffer_removal_loop ops' sequence_header decoder_model_info obu_headers inner_input input
  end.

(* ------------------------------------------------------------------ *)
(** ** [frame.rs]: the reference-state updates of [uncompressed_header] *)

(** [if frame_type == Key && show_frame { ... }]: clears
    [big_ref_valid] and [big_ref_order_hint], and [big_order_hints] from
    [RefType::Last] on. *)
Definition key_show_reset (s : BitstreamParser.t) : BitstreamParser.t :=
  let s := BitstreamParser.set_big_ref_valid
             (fold_left (fun l i => list_set l i false) (seq 0 NUM_REF_FRAMES)
                (BitstreamParser.big_ref_valid s)) s in
  let s := BitstreamParser.set_big_ref_order_hint
             (fold_left (fun l i => list_set l i 0) (seq 0 NUM_REF_FRAMES)
                (BitstreamParser.big_ref_order_hint s)) s in
  BitstreamParser.set_big_order_hints
    (fold_left (fun l i => list_set l (i + RefType_Last)%nat 0) (seq 0 REFS_PER_FRAME)
       (BitstreamParser.big_order_hints s)) s.

(** The [for i in 0..NUM_REF_FRAMES] loop under [error_resilient_mode]. *)
Fixpoint error_resilient_loop (is : list nat) (order_hint_bits : Z) (input : BitInput)
  : PM BitInput :=
  match is with
  | [] => ret input
  | i :: is' =>
      let% (inner_input, cur_ref_order_hint) := lift (take (Z.to_nat order_hint_bits) input) in
      let% _ := modify (fun s => BitstreamParser.set_big_ref_order_hint
                  (list_set (BitstreamParser.big_ref_order_hint s) i
                     (nth i (BitstreamParser.ref_order_hint s) 0)) s) in
      let% _ := modify (fun s => BitstreamParser.set_ref_order_hint
                  (list_set (BitstreamParser.ref_order_hint s) i cur_ref_order_hint) s) in
      let% _ := modify (fun s =>
                  if negb (nth i (BitstreamParser.ref_order_hint s) 0
                           =? nth i (BitstreamParser.big_ref_order_hint s) 0)
                  then BitstreamParser.set_big_ref_valid
                         (list_set (BitstreamParser.big_ref_valid s) i false) s
                  else s) in
      error_resilient_loop is' order_hint_bits inner_input
  end.

(** [for ref_frame_idx in &mut self.ref_frame_idx { ... }] *)
Fixpoint ref_frame_idx_loop (is : list nat) (frame_refs_short_signaling : bool)
  (sequence_header : SequenceHeader.t) (input : BitInput) : PM BitInput :=
  match is with
  | [] => ret input
  | i :: is' =>
      if frame_refs_short_signaling then
        let% _ := modify (fun s => BitstreamParser.set_ref_frame_idx
                    (list_set (BitstreamParser.ref_frame_idx s) i 0) s) in
        ref_frame_idx_loop is' frame_refs_short_signaling sequence_header input
      else
        let% (input, this_ref_frame_idx) := lift (take 3 input) in
        let% _ := modify (fun s => BitstreamParser.set_ref_frame_idx
                    (list_set (BitstreamParser.ref_frame_idx s) i this_ref_frame_idx) s) in
        let% input :=
          if SequenceHeader.frame_id_numbers_present sequence_header then
            let n := SequenceHeader.delta_frame_id_len_minus_2 sequence_header + 2 in
            let% (input, _delta_frame_id_minus_1) := lift (take (Z.to_nat n) input) in
            ret input
          else ret input in
        ref_frame_idx_loop is' frame_refs_short_signaling sequence_header input
  end.

(** [for i in 0..REFS_PER_FRAME { big_order_hints[Last + i] =
    big_ref_order_hint[ref_frame_idx[i]]; }] *)
Definition big_order_hints_update (s : BitstreamParser.t) : BitstreamParser.t :=
  fold_left (fun s i =>
      let hint := nth (Z.to_nat (nth i (BitstreamParser.ref_frame_idx s) 0))
                      (BitstreamParser.big_ref_order_hint s) 0 in
      BitstreamParser.set_big_order_hints
        (list_set (BitstreamParser.big_order_hints s) (RefType_Last + i)%nat hint) s)
    (seq 0 REFS_PER_FRAME) s.

(** The final [for i in 0..NUM_REF_FRAMES] loop of [uncompressed_header]. *)
Definition refresh_update (refresh_frame_flags order_hint : Z) (s : BitstreamParser.t)
  : BitstreamParser.t :=
  fold_left (fun s i =>
      if Z.land (Z.shiftr refresh_frame_flags (Z.of_nat i)) 1 =? 1 then
        let s := BitstreamParser.set_big_ref_valid
                   (list_set (BitstreamParser.big_ref_valid s) i true) s in
        BitstreamParser.set_big_ref_order_hint
          (list_set (BitstreamParser.big_ref_order_hint s) i order_hint) s
      else s)
    (seq 0 NUM_REF_FRAMES) s.

(** Modelled from the spec: [uncompressed_header] calls [film_grain_params]
    with the arguments [(input, film_grain_params_present, show_frame,
    showable_frame, frame_type, monochrome, subsampling)], which the
    five-parameter [film_grain_params] of [grain.rs] does not take.  The
    spec's reading (section 4.6) is that grain is allowed when
    [film_grain_params_present && (show_frame || showable_frame)]. *)
Definition film_grain_params_call (input : BitInput) (film_grain_params_present : bool)
  (show_frame showable_frame : bool) (frame_type : FrameType) (monochrome : bool)
  (subsampling : Z * Z) : outcome (BitInput * FilmGrainHeader) :=
  film_grain_params input (film_grain_params_present && (show_frame || showable_frame))
    frame_type monochrome subsampling.

(** Three locals of [uncompressed_header], returned next to the
    [FrameHeader] so that statements can name them ([None] on the
    [show_existing_frame] early return, which reads none of them).  The
    Rust function returns only the [FrameHeader]. *)
Record HeaderLocals : Type := mkHeaderLocals {
  hl_frame_type : FrameType;
  hl_refresh_frame_flags : Z;
  hl_order_hint : Z }.

(** [uncompressed_header] up to and including [film_grain_params]: all
    of it but the final [for i in 0..NUM_REF_FRAMES] loop.  The [return]
    of the [show_existing_frame] branch leaves the tuple-building [if]
    as [inl]. *)
Definition uncompressed_header_fields (input : BitInput) (obu_headers : ObuHeader)
  : PM (BitInput * (FrameHeader.t * option HeaderLocals)) :=
  let% sequence_header := gets BitstreamParser.sequence_header in
  let% sequence_header := lift (unwrap sequence_header) in
  let id_len :=
    if SequenceHeader.frame_id_numbers_present sequence_header then
      Some (SequenceHeader.additional_frame_id_len_minus_1 sequence_header
            + SequenceHeader.delta_frame_id_len_minus_2 sequence_header + 3)
    else None in
  let% first :=
    if SequenceHeader.reduced_still_picture_header sequence_header then
      ret (inr (input, Inter, true, true, false, false))
    else
      let% (input, show_existing_frame) := lift (take_bool_bit input) in
      if show_existing_frame then
        let% (input, _frame_to_show_map_idx) := lift (take 3 input) in
        let% input :=
          match id_len with
          | Some id_len =>
              let% (input, _display_frame_id) := lift (take (Z.to_nat id_len) input) in
              ret input
          | None => ret input
          end in
        let% previous_frame_header := gets BitstreamParser.previous_frame_header in
        let% previous_frame_header := lift (unwrap previous_frame_header) in
        ret (inl (input, FrameHeader.mk true show_existing_frame CopyRefFrame
                           (FrameHeader.tile_info previous_frame_header)))
      else
        let% (input, frame_type) := lift (take 2 input) in
        let% frame_type := lift (unwrap (FrameType_try_from frame_type)) in
        let% (input, show_frame) := lift (take_bool_bit input) in
        let% input :=
          if show_frame
             && match SequenceHeader.decoder_model_info sequence_header with
                | Some _ => true | None => false end
             && negb (match SequenceHeader.timing_info sequence_header with
                      | Some ti => equal_picture_interval ti | None => false end) then
            let% dmi := lift (unwrap (SequenceHeader.decoder_model_info sequence_header)) in
            let% (input, _) := lift (temporal_point_info input
                   (Z.to_nat (frame_presentation_time_length_minus_1 dmi + 1))) in
            ret input
          else ret input in
        let% (input, showable_frame) :=
          if show_frame then ret (input, negb (FrameType_eqb frame_type Key))
          else lift (take_bool_bit input) in
        let% (input, error_resilient_mode) :=
          if FrameType_eqb frame_type Switch || (FrameType_eqb frame_type Key && show_frame)
          then ret (input, true)
          else lift (take_bool_bit input) in
        ret (inr (input, frame_type, show_frame, showable_frame, show_existing_frame,
                  error_resilient_mode)) in
  match first with
  | inl (input, header) => ret (input, (header, None))
  | inr (input, frame_type, show_frame, showable_frame, show_existing_frame,
         error_resilient_mode) =>
  let% _ :=
    if FrameType_eqb frame_type Key && show_frame then modify key_show_reset else ret tt in
  let% (input, disable_cdf_update) := lift (take_bool_bit input) in
  let% (input, allow_screen_content_tools) :=
    if SequenceHeader.force_screen_content_tools sequence_header =? SELECT_SCREEN_CONTENT_TOOLS
    then lift (take_bool_bit input)
    else ret (input, SequenceHeader.force_screen_content_tools sequence_header =? 1) in
  let% input :=
    if allow_screen_content_tools
       && (SequenceHeader.force_integer_mv sequence_header =? SELECT_INTEGER_MV) then
      let% (input, _) := lift (take_bool_bit input) in ret input
    else ret input in
  let% input :=
    if SequenceHeader.frame_id_numbers_present sequence_header then
      let% id_len := lift (unwrap id_len) in
      let% (input, _current_frame_id) := lift (take (Z.to_nat id_len) input) in
      ret input
    else ret input in
  let% (input, frame_size_override_flag) :=
    if FrameType_eqb frame_type Switch then ret (input, true)
    else if SequenceHeader.reduced_still_picture_header sequence_header then ret (input, false)
    else lift (take_bool_bit input) in
  let% (input, order_hint) :=
    lift (take (Z.to_nat (SequenceHeader.order_hint_bits sequence_header)) input) in
  let% (input, primary_ref_frame) :=
    if is_intra frame_type || error_resilient_mode then ret (input, PRIMARY_REF_NONE)
    else lift (take 3 input) in
  let% input :=
    match SequenceHeader.decoder_model_info sequence_header with
    | Some decoder_model_info =>
        let% (inner_input, buffer_removal_time_present_flag) := lift (take_bool_bit input) in
        if buffer_removal_time_present_flag then
          lift (buffer_removal_loop
                  (seq 0 (Z.to_nat (SequenceHeader.operating_points_cnt_minus_1 sequence_header + 1)))
                  sequence_header decoder_model_info obu_headers inner_input input)
        else ret input
    | None => ret input
    end in
  let% (input, refresh_frame_flags) :=
    if FrameType_eqb frame_type Switch || (FrameType_eqb frame_type Key && show_frame)
    then ret (input, REFRESH_ALL_FRAMES)
    else lift (take 8 input) in
  let% input :=
    if (negb (is_intra frame_type) || negb (refresh_frame_flags =? REFRESH_ALL_FRAMES))
       && error_resilient_mode && SequenceHeader.enable_order_hint sequence_header then
      error_resilient_loop (seq 0 NUM_REF_FRAMES)
        (SequenceHeader.order_hint_bits sequence_header) input
    else ret input in
  let max_frame_size :=
    mkDimensions (SequenceHeader.max_frame_width_minus_1 sequence_header + 1)
                 (SequenceHeader.max_frame_height_minus_1 sequence_header + 1) in
  let frame_width_bits :=
    Z.to_nat (SequenceHeader.frame_width_bits_minus_1 sequence_header + 1) in
  let frame_height_bits :=
    Z.to_nat (SequenceHeader.frame_height_bits_minus_1 sequence_header + 1) in
  let% (input, (allow_intrabc, use_ref_frame_mvs, frame_size, upscaled_size)) :=
    if is_intra frame_type then
      let% (input, frame_size) :=
        lift (frame_size input frame_size_override_flag
                (SequenceHeader.enable_superres sequence_header)
                frame_width_bits frame_height_bits max_frame_size) in
      let upscaled_size := frame_size in
      let% (input, _render_size) := lift (render_size input frame_size upscaled_size) in
      let% (input, allow_intrabc) :=
        if allow_screen_content_tools && (width upscaled_size =? width frame_size) then
          lift (take_bool_bit input)
        else ret (input, false) in
      ret (input, (allow_intrabc, false, frame_size, upscaled_size))
    else
      let% (input, frame_refs_short_signaling) :=
        if SequenceHeader.enable_order_hint sequence_header then
          let% (input, frame_refs_short_signaling) := lift (take_bool_bit input) in
          if frame_refs_short_signaling then
            let% (input, _last_frame_idx) := lift (take 3 input) in
            let% (input, _gold_frame_idx) := lift (take 3 input) in
            let% (input, _) := lift (set_frame_refs input) in
            ret (input, frame_refs_short_signaling)
          else ret (input, frame_refs_short_signaling)
        else ret (input, false) in
      let% input := ref_frame_idx_loop (seq 0 REFS_PER_FRAME) frame_refs_short_signaling
                      sequence_header input in
      let% (input, (frame_size, upscaled_size)) :=
        if frame_size_override_flag && negb error_resilient_mode then
          let frame_size := max_frame_size in
          let upscaled_size := frame_size in
          lift (frame_size_with_refs input (SequenceHeader.enable_superres sequence_header)
                  frame_size_override_flag frame_width_bits frame_height_bits
                  max_frame_size frame_size upscaled_size)
        else
          let% (input, frame_size) :=
            lift (frame_size input frame_size_override_flag
                    (SequenceHeader.enable_superres sequence_header)
                    frame_width_bits frame_height_bits max_frame_size) in
          let upscaled_size := frame_size in
          let% (input, _render_size) := lift (render_size input frame_size upscaled_size) in
          ret (input, (frame_size, upscaled_size)) in
      let% (input, _allow_high_precision_mv) :=
        if SequenceHeader.force_integer_mv sequence_header =? 1 then ret (input, false)
        else lift (take_bool_bit input) in
      let% (input, _) := lift (read_interpolation_filter input) in
      let% (input, _is_motion_mode_switchable) := lift (take_bool_bit input) in
      let% (input, use_ref_frame_mvs) :=
        if error_resilient_mode || negb (SequenceHeader.enable_ref_frame_mvs sequence_header)
        then ret (input, false)
        else lift (take_bool_bit input) in
      let% _ := modify big_order_hints_update in
      ret (input, (false, use_ref_frame_mvs, frame_size, upscaled_size)) in
  let '(mi_cols, mi_rows) := compute_image_size frame_size in
  let% (input, _disable_frame_end_update_cdf) :=
    if SequenceHeader.reduced_still_picture_header sequence_header || disable_cdf_update
    then ret (input, true)
    else lift (take_bool_bit input) in
  let% input :=
    if primary_ref_frame =? PRIMARY_REF_NONE then
      let% (input, _) := lift (init_non_coeff_cdfs input) in
      let% (input, _) := lift (setup_past_independence input) in
      ret input
    else
      let% (input, _) := lift (load_cdfs input) in
      let% (input, _) := lift (load_previous input) in
      ret input in
  let% input :=
    if use_ref_frame_mvs then
      let% (input, _) := lift (motion_field_estimation input) in ret input
    else ret input in
  let color_config := SequenceHeader.color_config sequence_header in
  let% (input, tile_info) :=
    lift (tile_info input (SequenceHeader.use_128x128_superblock sequence_header)
            mi_cols mi_rows) in
  let% (input, q_params) :=
    lift (quantization_params input (num_planes color_config)
            (separate_uv_delta_q color_config)) in
  let% (input, segmentation_data) := lift (segmentation_params input primary_ref_frame) in
  let% (input, delta_q_present) := lift (delta_q_params input (base_q_idx q_params)) in
  let% (input, _) := lift (delta_lf_params input delta_q_present allow_intrabc) in
  let% input :=
    if primary_ref_frame =? PRIMARY_REF_NONE then
      let% (input, _) := lift (init_coeff_cdfs input) in ret input
    else
      let% (input, _) := lift (load_previous_segment_ids input) in ret input in
  let coded_lossless := coded_lossless_loop (seq 0 MAX_SEGMENTS) q_params segmentation_data in
  let all_losslesss := coded_lossless && (width frame_size =? width upscaled_size) in
  let% (input, _) :=
    lift (loop_filter_params input coded_lossless allow_intrabc (num_planes color_config)) in
  let% (input, _) :=
    lift (cdef_params input coded_lossless allow_intrabc
            (SequenceHeader.enable_cdef sequence_header) (num_planes color_config)) in
  let% (input, _) :=
    lift (lr_params input all_losslesss allow_intrabc
            (SequenceHeader.enable_restoration sequence_header)
            (SequenceHeader.use_128x128_superblock sequence_header)
            (num_planes color_config) (subsampling color_config)) in
  let% (input, _) := lift (read_tx_mode input coded_lossless) in
  let% (input, reference_select) := lift (frame_reference_mode input (is_intra frame_type)) in
  let% big_ref_order_hint := gets BitstreamParser.big_ref_order_hint in
  let% ref_frame_idx := gets BitstreamParser.ref_frame_idx in
  let% (input, _) :=
    lift (skip_mode_params input (is_intra frame_type) reference_select
            (SequenceHeader.order_hint_bits sequence_header) order_hint
            big_ref_order_hint ref_frame_idx) in
  let% (input, _allow_warped_motion) :=
    if is_intra frame_type || error_resilient_mode
       || negb (SequenceHeader.enable_warped_motion sequence_header)
    then ret (input, false)
    else lift (take_bool_bit input) in
  let% (input, _reduced_tx_set) := lift (take_bool_bit input) in
  let% (input, _) := lift (global_motion_params input (is_intra frame_type)) in
  let% (input, film_grain_params) :=
    lift (film_grain_params_call input
            (SequenceHeader.film_grain_params_present sequence_header)
            show_frame showable_frame frame_type
            (num_planes color_config =? 1) (subsampling color_config)) in
  ret (input, (FrameHeader.mk show_frame show_existing_frame film_grain_params tile_info,
               Some (mkHeaderLocals frame_type refresh_frame_flags order_hint)))
  end.

(** [uncompressed_header]: the final loop runs on the frame path, not
    after the [show_existing_frame] return. *)
Definition uncompressed_header (input : BitInput) (obu_headers : ObuHeader)
  : PM (BitInput * (FrameHeader.t * option HeaderLocals)) :=
  let% (input, (header, locals)) := uncompressed_header_fields input obu_headers in
  match locals with
  | None => ret (input, (header, None))
  | Some l =>
      let% _ := modify (refresh_update (hl_refresh_frame_flags l) (hl_order_hint l)) in
      ret (input, (header, Some l))
  end.

(** [parse_frame_header] *)
Definition parse_frame_header (input : list Z) (obu_header : ObuHeader)
  : PM (list Z * option FrameHeader.t) :=
  let% seen_frame_header := gets BitstreamParser.seen_frame_header in
  if seen_frame_header then ret (input, None) else
  let% _ := modify (BitstreamParser.set_seen_frame_header true) in
  bits_st (fun input =>
    let% (input, (header, _locals)) := uncompressed_header input obu_header in
    if FrameHeader.show_existing_frame header then
      let% (input, _) := lift (decode_frame_wrapup input) in
      let% _ := modify (BitstreamParser.set_seen_frame_header false) in
      ret (input, if FrameHeader.show_frame header then Some header else None)
    else
      let% _ := modify (BitstreamParser.set_seen_frame_header true) in
      ret (input, if FrameHeader.show_frame header then Some header else None)) input.

(* ------------------------------------------------------------------ *)
(** ** [tile_group.rs], [frame.rs]: tile groups and frame OBUs *)

Definition tile_group_header (tile_info : TileInfo) (input : BitInput)
  : outcome (BitInput * (Z * Z)) :=
  let num_tiles := tile_cols tile_info * tile_rows tile_info in
  let* (input, tile_start_and_end_present) :=
    if 1 <? num_tiles then take_bool_bit input else Ok (input, false) in
  if (num_tiles =? 1) || negb tile_start_and_end_present then
    let* last := usize_sub num_tiles 1 in
    Ok (input, (num_tiles, last))
  else
    let tile_bits := Z.to_nat (tile_cols_log2 tile_info + tile_rows_log2 tile_info) in
    let* (input, _tg_start) := take tile_bits input in
    let* (input, tg_end) := take tile_bits input in
    Ok (input, (num_tiles, tg_end)).

Definition parse_tile_group_obu (WRITE : bool) (input : list Z) (size : Z)
  (tile_info : TileInfo) : PM (list Z * unit) :=
  let% (_, (num_tiles, tg_end)) := lift (bits (tile_group_header tile_info) input) in
  let% last := lift (usize_sub num_tiles 1) in
  let% _ :=
    if tg_end =? last then modify (BitstreamParser.set_seen_frame_header false)
    else ret tt in
  let% _ :=
    if WRITE then let% payload := lift (slice_to input size) in extend payload
    else ret tt in
  let% rest := lift (slice_from input size) in
  ret (rest, tt).

Definition parse_frame_obu (WRITE : bool) (input : list Z) (obu_header : ObuHeader)
  : PM (list Z * option FrameHeader.t) :=
  let input_len := len input in
  let% (input, frame_header) := parse_frame_header input obu_header in
  let% previous_frame_header := gets BitstreamParser.previous_frame_header in
  let% ref_frame_header :=
    lift (unwrap (match frame_header with
                  | Some h => Some h
                  | None => previous_frame_header
                  end)) in
  let% size := gets BitstreamParser.size in
  let% tile_group_obu_size := lift (usize_sub size (input_len - len input)) in
  let% (input, _) := parse_tile_group_obu WRITE input tile_group_obu_size
                       (FrameHeader.tile_info ref_frame_header) in
  ret (input, frame_header).

(* ------------------------------------------------------------------ *)
(** ** [sequence.rs]: [parse_sequence_header] *)

(** In WRITE mode the function copies the whole remaining packet into a
    local [packet_out], sets one bit of it to
    [incoming_grain_header.is_some()] and appends it to
    [self.packet_out]; then it reads [film_grain_params_present]. *)
Definition parse_sequence_header (WRITE : bool) (input : list Z)
  : PM (list Z * SequenceHeader.t) :=
  let packet_out := if WRITE then input else [] in
  bits_st (fun input =>
    let% (input, mk_header) := lift (sequence_header_fields input) in
    let% _ :=
      if WRITE then
        let% byte_pos := lift (usize_sub (len packet_out)
                          (len (bi_bytes input) + Z.of_nat (bi_off input / 8))) in
        let bit_offset := (bi_off input mod 8)%nat in
        let% byte := lift (index packet_out (Z.to_nat byte_pos)) in
        let% incoming := gets BitstreamParser.incoming_grain_header in
        extend (list_set packet_out (Z.to_nat byte_pos) (set_bit byte bit_offset incoming))
      else ret tt in
    let% (input, film_grain_params_present) := lift (take_bool_bit input) in
    ret (input, mk_header film_grain_params_present)) input.

(* ------------------------------------------------------------------ *)
(** ** [obu.rs]: [parse_obu] *)

(** [adjust_obu_size]: [new_obu_size as u32] keeps the low 32 bits. *)
Definition adjust_obu_size (pos leb_size new_obu_size : Z) : PM unit :=
  let encoded_size := leb128_write (new_obu_size mod 2 ^ 32) in
  let% packet_out := gets BitstreamParser.packet_out in
  let% before := lift (slice_to packet_out pos) in
  let% after := lift (slice_from packet_out (pos + leb_size)) in
  modify (BitstreamParser.set_packet_out (before ++ encoded_size ++ after)).

(** The [if obu_header.has_size_field { ... }] block shared by the
    sequence header, frame and frame header arms of [parse_obu];
    [copy_rest] is the [self.packet_out.extend(input.iter().take(adjustment))]
    that only the frame header arm has (outside [if WRITE]). *)
Definition finish_sized_obu (WRITE copy_rest : bool) (obu_header : ObuHeader)
  (pre_input : list Z) (packet_start_len obu_size_pos leb_size obu_size pre_len : Z)
  (input : list Z) : PM (list Z) :=
  if has_size_field obu_header then
    let% _ :=
      if WRITE then
        let% packet_out_len := gets (fun s => len (BitstreamParser.packet_out s)) in
        let% bytes_written := lift (usize_sub packet_out_len packet_start_len) in
        let bytes_taken := len pre_input - len input in
        let obu_size_change := bytes_written - bytes_taken in
        if negb (obu_size_change =? 0) then
          adjust_obu_size obu_size_pos leb_size ((obu_size + obu_size_change) mod 2 ^ 64)
        else ret tt
      else ret tt in
    let% adjustment := lift (usize_sub obu_size (pre_len - len input)) in
    let% _ := if copy_rest then extend (firstn (Z.to_nat adjustment) input) else ret tt in
    lift (slice_from input adjustment)
  else ret input.

(** [if WRITE { extend(&input[..obu_size]) }; Ok((&input[obu_size..], None))] *)
Definition skip_obu (WRITE : bool) (input : list Z) (obu_size : Z)
  : PM (list Z * option Obu.t) :=
  let% _ :=
    if WRITE then let% payload := lift (slice_to input obu_size) in extend payload
    else ret tt in
  let% rest := lift (slice_from input obu_size) in
  ret (rest, None).

(** The operating-point test of [parse_obu]: [true] when the OBU is
    outside the chosen operating point and is skipped. *)
Definition not_in_operating_point (obu_header : ObuHeader)
  (sequence_header : option SequenceHeader.t) : bool :=
  negb (ObuType.eqb (obu_type obu_header) ObuType.SequenceHeader)
  && negb (ObuType.eqb (obu_type obu_header) ObuType.TemporalDelimiter)
  && match extension obu_header, sequence_header with
     | Some obu_ext, Some sh =>
         let op_pt_idc := SequenceHeader.cur_operating_point_idc sh in
         negb (op_pt_idc =? 0)
         && (let in_temporal_layer :=
               0 <? Z.land (Z.shiftr op_pt_idc (temporal_id obu_ext)) 1 in
             let in_spatial_layer :=
               0 <? Z.land (Z.shiftr op_pt_idc (spatial_id obu_ext + 8)) 1 in
             negb in_temporal_layer || negb in_spatial_layer)
     | _, _ => false
     end.

Definition parse_obu (WRITE : bool) (input : list Z) : PM (list Z * option Obu.t) :=
  let pre_input := input in
  let% packet_start_len := gets (fun s => len (BitstreamParser.packet_out s)) in
  let% (input, obu_header) := lift (parse_obu_header input) in
  let has_extension := match extension obu_header with Some _ => true | None => false end in
  let obu_header_size := if has_extension then 2 else 1 in
  let obu_size_pos := packet_start_len + obu_header_size in
  let% (input, (obu_size, leb_size)) :=
    if has_size_field obu_header then
      let% (input, result) := lift (leb128 input) in
      ret (input, (rr_value result, bytes_read result))
    else
      let% size := gets BitstreamParser.size in
      let% size_minus_1 := lift (usize_sub size 1) in
      let% obu_size := lift (usize_sub size_minus_1 (if has_extension then 1 else 0)) in
      ret (input, (obu_size, 0)) in
  let% _ := modify (BitstreamParser.set_size obu_size) in
  let% _ :=
    if WRITE then
      let total_header_size := len pre_input - len input in
      let% header_bytes := lift (slice_to pre_input total_header_size) in
      extend header_bytes
    else ret tt in
  let% sequence_header := gets BitstreamParser.sequence_header in
  if not_in_operating_point obu_header sequence_header then skip_obu WRITE input obu_size
  else
  match obu_type obu_header with
  | ObuType.SequenceHeader =>
      let pre_len := len input in
      let% (input, header) := parse_sequence_header WRITE input in
      let% input := finish_sized_obu WRITE false obu_header pre_input packet_start_len
                      obu_size_pos leb_size obu_size pre_len input in
      ret (input, Some (Obu.SequenceHeader header))
  | ObuType.Frame =>
      let pre_len := len input in
      let% (input, header) := parse_frame_obu WRITE input obu_header in
      let% input := finish_sized_obu WRITE false obu_header pre_input packet_start_len
                      obu_size_pos leb_size obu_size pre_len input in
      ret (input, option_map Obu.FrameHeader header)
  | ObuType.FrameHeader =>
      let pre_len := len input in
      let% (input, header) := parse_frame_header input obu_header in
      let% input := finish_sized_obu WRITE true obu_header pre_input packet_start_len
                      obu_size_pos leb_size obu_size pre_len input in
      ret (input, option_map Obu.FrameHeader header)
  | ObuType.TileGroup => lift Panic
  | ObuType.TemporalDelimiter =>
      let% _ := modify (BitstreamParser.set_seen_frame_header false) in
      skip_obu WRITE input obu_size
  | _ => skip_obu WRITE input obu_size
  end.

(* ------------------------------------------------------------------ *)
(** ** [parser.rs]: the per-packet loop of [modify_grain_headers] *)

(** [loop { parse_obu; store the header; if input.is_empty() { break } }].
    Every successful [parse_obu] consumes at least its one-byte OBU
    header, so [length input + 1] rounds always reach the [break] or an
    error. *)
Fixpoint parse_packet_loop (WRITE : bool) (fuel : nat) (input : list Z) : PM unit :=
  match fuel with
  | O => ret tt
  | S f =>
      let% (inner_input, obu) := parse_obu WRITE input in
      let% _ :=
        match obu with
        | Some (Obu.SequenceHeader obu) =>
            modify (BitstreamParser.set_sequence_header (Some obu))
        | Some (Obu.FrameHeader obu) =>
            modify (BitstreamParser.set_previous_frame_header (Some obu))
        | None => ret tt
        end in
      match inner_input with
      | [] => ret tt
      | _ => parse_packet_loop WRITE f inner_input
      end
  end.

(** One video packet of [modify_grain_headers]: the OBU loop, then the
    packet's data is replaced by [packet_out], which is cleared. *)
Definition modify_packet (data : list Z) : PM (list Z) :=
  let% _ := parse_packet_loop true (S (length data)) data in
  let% packet_out := gets BitstreamParser.packet_out in
  let% _ := modify (BitstreamParser.set_packet_out []) in
  ret packet_out.

(** The video packets of a stream, in order; the first error stops. *)
Fixpoint modify_packets (packets : list (list Z)) : PM (list (list Z)) :=
  match packets with
  | [] => ret []
  | p :: ps =>
      let% out := modify_packet p in
      let% outs := modify_packets ps in
      ret (out :: outs)
  end.

(* ------------------------------------------------------------------ *)
(** ** Example inputs *)

(** A sequence header OBU (profile 0, 8x2 monochrome, no order hints,
    [film_grain_params_present = 1]) and the parser context after it. *)
Definition example_sequence_header_obu : list Z := [10; 8; 0; 0; 0; 1; 7; 128; 48; 152].

Definition example_parser_state : BitstreamParser.t :=
  fst (parse_packet_loop false 11 example_sequence_header_obu
         (BitstreamParser.with_writer false)).

(** The header of a frame header OBU with a size field and no extension. *)
Definition example_frame_obu_header : ObuHeader :=
  mkObuHeader ObuType.FrameHeader true None.

(** The bits of a shown key frame's header for [example_parser_state]
    (no size override, one tile, [base_q_idx = 0], no film grain). *)
Definition example_key_frame_bits : list Z := [16; 64; 0].

Definition example_key_frame_header : FrameHeader.t :=
  FrameHeader.mk true false Disable (mkTileInfo 1 1 0 0).

(** [example_parser_state] with every [big_ref_valid] entry set. *)
Definition example_valid_state : BitstreamParser.t :=
  BitstreamParser.set_big_ref_valid (repeat true 8) example_parser_state.

(** A one-packet stream: a temporal delimiter, [example_sequence_header_obu]
    and a one-byte padding OBU. *)
Definition example_rewrite_packet : list Z :=
  [18; 0] ++ example_sequence_header_obu ++ [122; 1; 0].

(* ------------------------------------------------------------------ *)
(** ** Shapes of OBU streams used to state properties of [parse_obu] and
    of the per-packet loop *)

(** The parser context after [parse_obu] has passed over an OBU whose
    type it does not parse (the [TemporalDelimiter] and [_] arms):
    [self.size] is the OBU size, in WRITE mode the header and the payload
    are appended to [packet_out], and a temporal delimiter clears
    [seen_frame_header]. *)
Definition unparsed_obu_state (WRITE : bool) (t : ObuType.t) (bytes : list Z) (n : Z)
  (s : BitstreamParser.t) : BitstreamParser.t :=
  let s := BitstreamParser.set_size n s in
  let s := if WRITE then BitstreamParser.set_packet_out (BitstreamParser.packet_out s ++ bytes) s else s in
  if ObuType.eqb t ObuType.TemporalDelimiter then BitstreamParser.set_seen_frame_header false s else s.




(* ------------------------------------------------------------------ *)
(** ** Invariants of the segmentation data of [segmentation_params] *)

(** Every stored feature value [j] lies within
    [SEGMENTATION_FEATURE_MAX[j]] of zero, and is non-negative when the
    feature is unsigned. *)
Definition seg_bounded (d : SegmentationData) : Prop :=
  forall i j row v, nth_error d i = Some row -> nth_error row j = Some (Some v) ->
    - nth j SEGMENTATION_FEATURE_MAX 0 <= v <= nth j SEGMENTATION_FEATURE_MAX 0 /\
    (nth j SEGMENTATION_FEATURE_SIGNED false = false -> 0 <= v).

(** The shape of [[[Option<i16>; SEG_LVL_MAX]; MAX_SEGMENTS]]. *)
Definition seg_shape (d : SegmentationData) : Prop :=
  length d = MAX_SEGMENTS /\ Forall (fun row => length row = SEG_LVL_MAX) d.

(* ------------------------------------------------------------------ *)
(** ** Example inputs for the properties below *)

(** A sequence header whose current operating point covers temporal
    layer 0 and spatial layer 0 only ([operating_point_idc = 0x101]). *)
Definition example_operating_point_header : SequenceHeader.t :=
  SequenceHeader.mk false false 0 0 true 0 0 0 0 0 0 0 None [false] 0 [257] 257 None
    false false false false false false (mkColorConfig 2 2 2 0 1 false (1, 1)).

(** The initial parser context with [example_operating_point_header] installed. *)
Definition example_operating_point_state : BitstreamParser.t :=
  BitstreamParser.set_sequence_header (Some example_operating_point_header)
    (BitstreamParser.with_writer false).

(* ================================================================== *)
(** * The parser context across [parse_obu] *)

(** ** Arrays written by index *)

Lemma length_list_set {A} (l : list A) (i : nat) (x : A) :
  length (list_set l i x) = length l.
Proof.
  revert i; induction l as [|h t IH]; intros [|i]; cbn; auto.
Qed.

Lemma nth_list_set_eq {A} (l : list A) (i : nat) (x d : A) :
  (i < length l)%nat -> nth i (list_set l i x) d = x.
Proof.
  revert i; induction l as [|h t IH]; intros [|i] Hi; cbn in *; try lia; auto.
  all: apply IH; lia.
Qed.

Lemma nth_list_set_neq {A} (l : list A) (i j : nat) (x d : A) :
  i <> j -> nth i (list_set l j x) d = nth i l d.
Proof.
  revert i j; induction l as [|h t IH]; intros [|i] [|j] Hij; cbn; auto; try congruence.
  all: apply IH; congruence.
Qed.

Lemma length_fold_list_set {A X} (f : X -> nat) (v : X -> A) (js : list X) (l : list A) :
  length (fold_left (fun l j => list_set l (f j) (v j)) js l) = length l.
Proof.
  revert l; induction js as [|j js IH]; intros l; cbn; auto.
  rewrite IH; apply length_list_set.
Qed.

(** [(x >> i) & 1] is bit [i] of [x]. *)
Lemma land_shiftr_1 (x : Z) (i : nat) :
  Z.land (Z.shiftr x (Z.of_nat i)) 1 = Z.b2z (Z.testbit x (Z.of_nat i)).
Proof.
  rewrite Z.testbit_spec' by lia.
  rewrite Z.shiftr_div_pow2 by lia.
  change 1 with (Z.ones 1). rewrite Z.land_ones by lia. reflexivity.
Qed.

(** ** Relations kept by every step of a method *)

Section Stable.

Variable R : BitstreamParser.t -> BitstreamParser.t -> Prop.
Hypothesis R_refl : forall s, R s s.
Hypothesis R_trans : forall s1 s2 s3, R s1 s2 -> R s2 s3 -> R s1 s3.

(** The fields a method may write without leaving [R]. *)
Hypothesis R_packet_out : forall v s, R s (BitstreamParser.set_packet_out v s).
Hypothesis R_size : forall v s, R s (BitstreamParser.set_size v s).
Hypothesis R_seen : forall v s, R s (BitstreamParser.set_seen_frame_header v s).
Hypothesis R_ref_frame_idx : forall v s, R s (BitstreamParser.set_ref_frame_idx v s).
Hypothesis R_ref_order_hint : forall v s, R s (BitstreamParser.set_ref_order_hint v s).
Hypothesis R_big_order_hints : forall v s, R s (BitstreamParser.set_big_order_hints v s).
Hypothesis R_big_ref_valid : forall v s,
  length v = length (BitstreamParser.big_ref_valid s) ->
  R s (BitstreamParser.set_big_ref_valid v s).
Hypothesis R_big_ref_order_hint : forall v s,
  length v = length (BitstreamParser.big_ref_order_hint s) ->
  R s (BitstreamParser.set_big_ref_order_hint v s).

(** [m] ends, on every outcome, in a context related to its start. *)
Definition stable {A} (m : PM A) : Prop := forall s, R s (fst (m s)).

Lemma stable_ret {A} (a : A) : stable (ret a).
Proof. intros s; apply R_refl. Qed.

Lemma stable_lift {A} (r : outcome A) : stable (lift r).
Proof. intros s; apply R_refl. Qed.

Lemma stable_gets {A} (f : BitstreamParser.t -> A) : stable (gets f).
Proof. intros s; apply R_refl. Qed.

Lemma stable_modify (f : BitstreamParser.t -> BitstreamParser.t) :
  (forall s, R s (f s)) -> stable (modify f).
Proof. intros Hf s; apply Hf. Qed.

Lemma stable_bind {A B} (m : PM A) (k : A -> PM B) :
  stable m -> (forall a, stable (k a)) -> stable (st_bind m k).
Proof.
  intros Hm Hk s; unfold st_bind.
  specialize (Hm s); destruct (m s) as [s' [a| |]]; cbn in *; auto.
  eapply R_trans; [exact Hm | apply Hk].
Qed.

Lemma R_fold {X} (g : BitstreamParser.t -> X -> BitstreamParser.t) (js : list X) :
  (forall s j, R s (g s j)) -> forall s, R s (fold_left g js s).
Proof.
  intros Hg; induction js as [|j js IH]; intros s; cbn; [apply R_refl|].
  eapply R_trans; [apply Hg | apply IH].
Qed.

Ltac leaf :=
  intros; unfold key_show_reset, big_order_hints_update, refresh_update;
  repeat match goal with
  | |- R ?s (fold_left _ _ ?s) => apply R_fold; intros
  | |- R ?s (if ?b then _ else _) => destruct b
  | |- R ?s (let _ := _ in _) => cbv zeta
  end;
  first
  [ apply R_refl
  | apply R_packet_out | apply R_size | apply R_seen | apply R_ref_frame_idx
  | apply R_ref_order_hint | apply R_big_order_hints
  | apply R_big_ref_valid; first [apply length_list_set | apply length_fold_list_set]
  | apply R_big_ref_order_hint; first [apply length_list_set | apply length_fold_list_set]
  | eapply R_trans; [| apply R_big_order_hints];
    eapply R_trans; [| apply R_big_ref_order_hint; apply length_fold_list_set];
    apply R_big_ref_valid; apply length_fold_list_set
  | eapply R_trans; [apply R_big_ref_valid; apply length_list_set |];
    apply R_big_ref_order_hint; apply length_list_set ].

Ltac stable_tac :=
  repeat match goal with
  | |- stable (st_bind _ _) => apply stable_bind; [| intros ?]
  | |- stable (ret _) => apply stable_ret
  | |- stable (lift _) => apply stable_lift
  | |- stable (gets _) => apply stable_gets
  | |- stable (modify _) => apply stable_modify; leaf
  | |- stable (extend _) => apply stable_modify; leaf
  | |- stable (let _ := _ in _) => cbv zeta
  | |- stable (match ?x with _ => _ end) => destruct x
  end.

Lemma stable_error_resilient_loop is order_hint_bits input :
  stable (error_resilient_loop is order_hint_bits input).
Proof.
  revert input; induction is as [|i is IH]; intros input; cbn [error_resilient_loop];
    stable_tac; auto.
Qed.

Lemma stable_ref_frame_idx_loop is short sh input :
  stable (ref_frame_idx_loop is short sh input).
Proof.
  revert input; induction is as [|i is IH]; intros input; cbn [ref_frame_idx_loop];
    stable_tac; auto.
Qed.

Lemma stable_uncompressed_header_fields input obu_headers :
  stable (uncompressed_header_fields input obu_headers).
Proof.
  unfold uncompressed_header_fields; stable_tac;
    auto using stable_error_resilient_loop, stable_ref_frame_idx_loop.
Qed.

Lemma stable_uncompressed_header input obu_headers :
  stable (uncompressed_header input obu_headers).
Proof.
  unfold uncompressed_header; stable_tac; auto using stable_uncompressed_header_fields.
Qed.

Lemma stable_parse_frame_header input obu_header :
  stable (parse_frame_header input obu_header).
Proof.
  unfold parse_frame_header, bits_st; stable_tac; auto using stable_uncompressed_header.
Qed.

Lemma stable_parse_tile_group_obu WRITE input size tile_info :
  stable (parse_tile_group_obu WRITE input size tile_info).
Proof. unfold parse_tile_group_obu; stable_tac. Qed.

Lemma stable_parse_frame_obu WRITE input obu_header :
  stable (parse_frame_obu WRITE input obu_header).
Proof.
  unfold parse_frame_obu; stable_tac;
    auto using stable_parse_frame_header, stable_parse_tile_group_obu.
Qed.

Lemma stable_parse_sequence_header WRITE input :
  stable (parse_sequence_header WRITE input).
Proof. unfold parse_sequence_header, bits_st; stable_tac. Qed.

Lemma stable_finish_sized_obu WRITE copy_rest obu_header pre_input packet_start_len
  obu_size_pos leb_size obu_size pre_len input :
  stable (finish_sized_obu WRITE copy_rest obu_header pre_input packet_start_len
            obu_size_pos leb_size obu_size pre_len input).
Proof. unfold finish_sized_obu, adjust_obu_size; stable_tac. Qed.

Lemma stable_skip_obu WRITE input obu_size : stable (skip_obu WRITE input obu_size).
Proof. unfold skip_obu; stable_tac. Qed.

Lemma stable_parse_obu WRITE input : stable (parse_obu WRITE input).
Proof.
  unfold parse_obu; stable_tac;
    auto using stable_parse_sequence_header, stable_parse_frame_obu,
      stable_parse_frame_header, stable_finish_sized_obu, stable_skip_obu.
Qed.

End Stable.

(** ** The installed headers *)

Definition keeps_headers (s s' : BitstreamParser.t) : Prop :=
  BitstreamParser.sequence_header s' = BitstreamParser.sequence_header s /\
  BitstreamParser.previous_frame_header s' = BitstreamParser.previous_frame_header s.

Lemma parse_obu_keeps_headers WRITE input :
  stable keeps_headers (parse_obu WRITE input).
Proof. apply stable_parse_obu; unfold keeps_headers; intros; cbn; intuition congruence. Qed.

(** ** The lengths of the reference arrays *)

Definition keeps_ref_lengths (s s' : BitstreamParser.t) : Prop :=
  length (BitstreamParser.big_ref_valid s') = length (BitstreamParser.big_ref_valid s) /\
  length (BitstreamParser.big_ref_order_hint s') = length (BitstreamParser.big_ref_order_hint s).

Lemma uncompressed_header_fields_keeps_ref_lengths input obu_headers :
  stable keeps_ref_lengths (uncompressed_header_fields input obu_headers).
Proof.
  apply stable_uncompressed_header_fields; unfold keeps_ref_lengths; intros; cbn;
    intuition congruence.
Qed.

(** ** The final loop of [uncompressed_header] *)

Definition refresh_step (refresh_frame_flags order_hint : Z) (s : BitstreamParser.t) (i : nat) :=
  if Z.land (Z.shiftr refresh_frame_flags (Z.of_nat i)) 1 =? 1 then
    let s := BitstreamParser.set_big_ref_valid
               (list_set (BitstreamParser.big_ref_valid s) i true) s in
    BitstreamParser.set_big_ref_order_hint
      (list_set (BitstreamParser.big_ref_order_hint s) i order_hint) s
  else s.

Lemma refresh_step_lengths rf oh s i :
  length (BitstreamParser.big_ref_valid (refresh_step rf oh s i))
    = length (BitstreamParser.big_ref_valid s) /\
  length (BitstreamParser.big_ref_order_hint (refresh_step rf oh s i))
    = length (BitstreamParser.big_ref_order_hint s).
Proof.
  unfold refresh_step; destruct (_ =? 1); cbn; rewrite ?length_list_set; auto.
Qed.

Lemma refresh_step_other rf oh s i j :
  i <> j ->
  nth i (BitstreamParser.big_ref_valid (refresh_step rf oh s j)) false
    = nth i (BitstreamParser.big_ref_valid s) false /\
  nth i (BitstreamParser.big_ref_order_hint (refresh_step rf oh s j)) 0
    = nth i (BitstreamParser.big_ref_order_hint s) 0.
Proof.
  intros Hij; unfold refresh_step; destruct (_ =? 1); cbn; auto.
  rewrite !nth_list_set_neq by exact Hij; auto.
Qed.

Lemma refresh_fold_other rf oh i js s :
  ~ In i js ->
  nth i (BitstreamParser.big_ref_valid (fold_left (refresh_step rf oh) js s)) false
    = nth i (BitstreamParser.big_ref_valid s) false /\
  nth i (BitstreamParser.big_ref_order_hint (fold_left (refresh_step rf oh) js s)) 0
    = nth i (BitstreamParser.big_ref_order_hint s) 0.
Proof.
  revert s; induction js as [|j js IH]; intros s Hin; cbn; auto.
  assert (Hin' : ~ In i js) by (intro; apply Hin; right; assumption).
  assert (Hij : i <> j) by (intro; subst; apply Hin; left; reflexivity).
  destruct (IH (refresh_step rf oh s j) Hin') as [E1 E2].
  destruct (refresh_step_other rf oh s i j Hij) as [F1 F2].
  rewrite E1, E2, F1, F2; auto.
Qed.

Lemma refresh_fold_set rf oh i js s :
  In i js -> NoDup js -> Z.testbit rf (Z.of_nat i) = true ->
  (i < length (BitstreamParser.big_ref_valid s))%nat ->
  (i < length (BitstreamParser.big_ref_order_hint s))%nat ->
  nth i (BitstreamParser.big_ref_valid (fold_left (refresh_step rf oh) js s)) false = true /\
  nth i (BitstreamParser.big_ref_order_hint (fold_left (refresh_step rf oh) js s)) 0 = oh.
Proof.
  revert s; induction js as [|j js IH]; intros s Hin Hnd Hbit Hv Hh; [destruct Hin|].
  inversion Hnd as [|? ? Hnotin Hnd']; subst; cbn [fold_left].
  destruct (Nat.eq_dec i j) as [->|Hij].
  - destruct (refresh_fold_other rf oh j js (refresh_step rf oh s j) Hnotin) as [E1 E2].
    rewrite E1, E2. unfold refresh_step.
    rewrite land_shiftr_1, Hbit; cbn.
    rewrite !nth_list_set_eq by (rewrite ?length_list_set; cbn; lia). auto.
  - destruct Hin as [->|Hin]; [congruence|].
    destruct (refresh_step_lengths rf oh s j) as [L1 L2].
    apply IH; auto; lia.
Qed.

Lemma refresh_update_sets rf oh s i :
  (i < 8)%nat -> Z.testbit rf (Z.of_nat i) = true ->
  length (BitstreamParser.big_ref_valid s) = 8%nat ->
  length (BitstreamParser.big_ref_order_hint s) = 8%nat ->
  nth i (BitstreamParser.big_ref_valid (refresh_update rf oh s)) false = true /\
  nth i (BitstreamParser.big_ref_order_hint (refresh_update rf oh s)) 0 = oh.
Proof.
  intros Hi Hbit Hv Hh.
  change (refresh_update rf oh s) with (fold_left (refresh_step rf oh) (seq 0 NUM_REF_FRAMES) s).
  apply refresh_fold_set; auto.
  - apply in_seq; unfold NUM_REF_FRAMES; lia.
  - apply seq_NoDup.
  - lia.
  - lia.
Qed.

(* ================================================================== *)
(** * Properties *)

(** ** LEB128 *)

Lemma land_127_ones v : Z.land v 127 = Z.land v (Z.ones 7).
Proof. reflexivity. Qed.

Lemma leb_byte_split v :
  Z.lor (Z.land v 127) (Z.shiftl (Z.shiftr v 7) 7) = v.
Proof.
  apply Z.bits_inj'; intros n Hn.
  rewrite Z.lor_spec, land_127_ones, Z.land_spec, Z.testbit_ones by lia.
  destruct (Z.lt_ge_cases n 7) as [Hl|Hl].
  - rewrite Z.shiftl_spec_low by lia.
    replace (0 <=? n) with true by (symmetry; apply Z.leb_le; lia).
    replace (n <? 7) with true by (symmetry; apply Z.ltb_lt; lia).
    now rewrite andb_true_r, orb_false_r.
  - rewrite Z.shiftl_spec_high, Z.shiftr_spec by lia.
    replace (n <? 7) with false by (symmetry; apply Z.ltb_ge; lia).
    rewrite andb_false_r, andb_false_r, orb_false_l. f_equal; lia.
Qed.

Lemma lor_128_low v : Z.land (Z.lor (Z.land v 127) 128) 127 = Z.land v 127.
Proof.
  rewrite Z.land_lor_distr_l, <- Z.land_assoc. change (Z.land 127 127) with 127. change (Z.land 128 127) with 0. apply Z.lor_0_r.
Qed.

Lemma land_128_of_lor v : Z.land (Z.lor (Z.land v 127) 128) 128 = 128.
Proof.
  rewrite Z.land_lor_distr_l.
  replace (Z.land (Z.land v 127) 128) with 0.
  - reflexivity.
  - rewrite <- Z.land_assoc. change (Z.land 127 128) with 0. now rewrite Z.land_0_r.
Qed.

Lemma land_128_of_low v : Z.land (Z.land v 127) 128 = 0.
Proof. rewrite <- Z.land_assoc. change (Z.land 127 128) with 0. now rewrite Z.land_0_r. Qed.

(** The encoder: all bytes but the last carry the continuation bit, and
    the low 7-bit groups concatenate back to the value. *)
Lemma leb128_write_loop_shape : forall fw v,
  (0 < fw)%nat -> 0 <= v < 2 ^ (7 * Z.of_nat fw) ->
  exists pre b,
    leb128_write_loop fw v = pre ++ [b] /\ Forall leb_cont pre /\
    Z.land b 128 = 0 /\ leb_concat (pre ++ [b]) = v.
Proof.
  induction fw as [|fw IH]; intros v Hfw Hv; [lia|].
  simpl leb128_write_loop.
  destruct (Z.shiftr v 7 =? 0) eqn:Hz; simpl negb; cbv iota.
  - exists [], (Z.land v 127). repeat split; auto.
    + apply land_128_of_low.
    + simpl. rewrite <- Z.land_assoc. change (Z.land 127 127) with 127. apply Z.eqb_eq in Hz.
      transitivity (Z.lor (Z.land v 127) (Z.shiftl (Z.shiftr v 7) 7));
        [rewrite Hz; reflexivity | apply leb_byte_split].
  - apply Z.eqb_neq in Hz.
    assert (Hs : 0 <= Z.shiftr v 7 < 2 ^ (7 * Z.of_nat fw)).
    { rewrite Z.shiftr_div_pow2 by lia. split.
      - apply Z.div_pos; lia.
      - apply Z.div_lt_upper_bound; [lia|].
        replace (2 ^ 7 * 2 ^ (7 * Z.of_nat fw)) with (2 ^ (7 * Z.of_nat (S fw))); [lia|].
        rewrite <- Z.pow_add_r by lia. f_equal; lia. }
    destruct fw as [|fw'].
    { simpl in Hs. lia. }
    destruct (IH (Z.shiftr v 7) ltac:(lia) Hs) as (pre & b & Heq & Hf & Hb & Hc).
    exists (Z.lor (Z.land v 127) 128 :: pre), b. rewrite Heq. repeat split; auto.
    + constructor; auto. unfold leb_cont. rewrite land_128_of_lor. lia.
    + change ((Z.lor (Z.land v 127) 128 :: pre) ++ [b])
        with (Z.lor (Z.land v 127) 128 :: (pre ++ [b])).
      cbn [leb_concat]. rewrite Hc, lor_128_low. apply leb_byte_split.
Qed.

Lemma leb128_write_loop_length : forall fw v k,
  0 <= v < 2 ^ (7 * Z.of_nat k) -> (0 < k)%nat ->
  (length (leb128_write_loop fw v) <= k)%nat.
Proof.
  induction fw as [|fw IH]; intros v k Hv Hk; simpl; [lia|].
  destruct (Z.shiftr v 7 =? 0) eqn:Hz; simpl; [lia|].
  apply Z.eqb_neq in Hz.
  destruct k as [|k']; [lia|].
  assert (Hs : 0 <= Z.shiftr v 7 < 2 ^ (7 * Z.of_nat k')).
  { rewrite Z.shiftr_div_pow2 by lia. split.
    - apply Z.div_pos; lia.
    - apply Z.div_lt_upper_bound; [lia|].
      replace (2 ^ 7 * 2 ^ (7 * Z.of_nat k')) with (2 ^ (7 * Z.of_nat (S k'))); [lia|].
      rewrite <- Z.pow_add_r by lia. f_equal; lia. }
  destruct k' as [|k''].
  - simpl in Hs. rewrite Z.shiftr_div_pow2 in * by lia. lia.
  - specialize (IH _ _ Hs ltac:(lia)). lia.
Qed.

(** The reader, on bytes that end in a terminator within its budget. *)
Lemma leb128_loop_term : forall pre b rest fr i acc cnt,
  Forall leb_cont pre -> Z.land b 128 = 0 -> (length pre < fr)%nat -> 0 <= i ->
  leb128_loop fr i (pre ++ b :: rest) acc cnt =
  Ok (rest, mkReadResult (Z.lor acc (Z.shiftl (leb_concat (pre ++ [b])) (i * 7)))
                         (cnt + Z.of_nat (length pre) + 1)).
Proof.
  induction pre as [|c pre IH]; intros b rest fr i acc cnt Hf Hb Hl Hi;
    destruct fr as [|fr]; cbn [length] in Hl; try lia; cbn [leb128_loop app].
  - rewrite Hb, Z.eqb_refl. cbn [leb_concat length Z.of_nat]. do 3 f_equal.
    + now rewrite Z.shiftl_0_l, Z.lor_0_r.
    + lia.
  - inversion Hf as [|? ? Hc Hf']; subst.
    destruct (Z.land c 128 =? 0) eqn:E; [apply Z.eqb_eq in E; contradiction|].
    rewrite IH by (auto; lia). cbn [leb_concat length]. do 3 f_equal.
    + rewrite <- Z.lor_assoc. f_equal.
      rewrite Z.shiftl_lor, Z.shiftl_shiftl by lia. f_equal. f_equal. lia.
    + lia.
Qed.

(** The reader, when every byte within its budget is a continuation byte. *)
Lemma leb128_loop_noterm : forall pre rest fr i acc cnt,
  Forall leb_cont pre -> length pre = fr -> 0 <= i ->
  leb128_loop fr i (pre ++ rest) acc cnt =
  Ok (rest, mkReadResult (Z.lor acc (Z.shiftl (leb_concat pre) (i * 7)))
                         (cnt + Z.of_nat fr)).
Proof.
  induction pre as [|c pre IH]; intros rest fr i acc cnt Hf Hl Hi; subst fr;
    cbn [leb128_loop app length leb_concat].
  - rewrite Z.shiftl_0_l, Z.lor_0_r, Z.add_0_r. reflexivity.
  - inversion Hf as [|? ? Hc Hf']; subst.
    destruct (Z.land c 128 =? 0) eqn:E; [apply Z.eqb_eq in E; contradiction|].
    rewrite IH by (auto; lia). do 3 f_equal.
    + rewrite <- Z.lor_assoc. f_equal.
      rewrite Z.shiftl_lor, Z.shiftl_shiftl by lia. f_equal. f_equal. lia.
    + lia.
Qed.

Lemma leb128_loop_short : forall pre fr i acc cnt,
  Forall leb_cont pre -> (length pre < fr)%nat ->
  leb128_loop fr i pre acc cnt = Error Eof.
Proof.
  induction pre as [|c pre IH]; intros fr i acc cnt Hf Hl;
    destruct fr as [|fr]; simpl in Hl; try lia; simpl; auto.
  inversion Hf as [|? ? Hc Hf']; subst.
  destruct (Z.land c 128 =? 0) eqn:E; [apply Z.eqb_eq in E; contradiction|].
  apply IH; auto; lia.
Qed.

(** C4: for every [v] in [0 .. 2^32), [leb128 (leb128_write v)] succeeds with
    value [v], consumes every byte, reports as [bytes_read] the number of
    bytes written, and that number is between 1 and 5. *)
Theorem leb128_roundtrip (v : Z) (Hv : 0 <= v < 2 ^ 32) :
  leb128 (leb128_write v) =
    Ok ([], mkReadResult v (Z.of_nat (length (leb128_write v)))) /\
  (1 <= length (leb128_write v) <= 5)%nat.
Proof.
  unfold leb128, leb128_write.
  assert (Hv8 : 0 <= v < 2 ^ (7 * Z.of_nat 8)).
  { split; [lia|]. eapply Z.lt_le_trans; [apply Hv|]. apply Z.pow_le_mono_r; lia. }
  destruct (leb128_write_loop_shape 8 v ltac:(lia) Hv8) as (pre & b & Heq & Hf & Hb & Hc).
  assert (Hlen : (length (leb128_write_loop 8 v) <= 5)%nat).
  { apply leb128_write_loop_length; [|lia].
    split; [lia|]. eapply Z.lt_le_trans; [apply Hv|]. apply Z.pow_le_mono_r; lia. }
  rewrite Heq in *. rewrite length_app in Hlen |- *. cbn [length] in Hlen |- *.
  split; [|lia].
  change (pre ++ [b]) with (pre ++ b :: []) at 1.
  rewrite leb128_loop_term by (auto; lia).
  rewrite Hc, Z.lor_0_l, Z.shiftl_0_r. do 3 f_equal. lia.
Qed.

Lemma leb128_roundtrip_witness :
  (0 <= 300 < 2 ^ 32) /\
  (leb128 (leb128_write 300) =
     Ok ([], mkReadResult 300 (Z.of_nat (length (leb128_write 300)))) /\
   (1 <= length (leb128_write 300) <= 5)%nat).
Proof.
  split; [lia | apply (leb128_roundtrip 300); lia].
Defined.

(** C5 (counterexample): eight continuation bytes [0x80] do not make the
    reader fail; it stops after its eighth byte and returns value 0 with
    [bytes_read = 8]. *)
Lemma leb128_eight_continuation_bytes_accepted :
  leb128 [128; 128; 128; 128; 128; 128; 128; 128] = Ok ([], mkReadResult 0 8).
Proof. vm_compute. reflexivity. Qed.

(** C5 (amended): the LEB128 reader
    - on [pre ++ b :: rest] where [pre] holds fewer than 8 continuation bytes
      and [b] has its continuation bit clear, returns [rest] and the
      little-endian concatenation of the low 7 bits of [pre ++ [b]], with
      [bytes_read = length pre + 1];
    - on [pre ++ rest] where [pre] holds 8 continuation bytes, returns [rest]
      and the concatenation of the low 7 bits of [pre], with [bytes_read = 8];
    - fails with an end-of-input error exactly when the input runs out
      before either happens. *)
Theorem leb128_reader_spec :
  (forall pre b rest,
      Forall leb_cont pre -> (length pre < 8)%nat -> Z.land b 128 = 0 ->
      leb128 (pre ++ b :: rest) =
        Ok (rest, mkReadResult (leb_concat (pre ++ [b])) (Z.of_nat (length pre) + 1))) /\
  (forall pre rest,
      Forall leb_cont pre -> length pre = 8%nat ->
      leb128 (pre ++ rest) = Ok (rest, mkReadResult (leb_concat pre) 8)) /\
  (forall pre,
      Forall leb_cont pre -> (length pre < 8)%nat -> leb128 pre = Error Eof).
Proof.
  unfold leb128. split; [|split].
  - intros pre b rest Hf Hl Hb. rewrite leb128_loop_term by (auto; lia).
    rewrite Z.lor_0_l, Z.shiftl_0_r. reflexivity.
  - intros pre rest Hf Hl. rewrite leb128_loop_noterm by (auto; lia).
    rewrite Z.lor_0_l, Z.shiftl_0_r. reflexivity.
  - intros pre Hf Hl. apply leb128_loop_short; auto.
Qed.

Lemma leb128_reader_spec_witness :
  leb128 ([128; 129] ++ 5 :: [7]) =
    Ok ([7], mkReadResult (leb_concat ([128; 129] ++ [5])) (Z.of_nat (length [128; 129]) + 1)).
Proof.
  destruct leb128_reader_spec as [H _].
  apply H; [repeat constructor; unfold leb_cont; simpl; discriminate | simpl; lia | reflexivity].
Defined.

(** ** Film grain parameters *)

Ltac destr_prod a :=
  match type of a with
  | prod _ _ => let x := fresh "x" in let y := fresh "y" in
      destruct a as [x y]; destr_prod x; destr_prod y
  | _ => idtac
  end.

(** Peels the [let*]s and [if]s off a hypothesis [H : prog = Ok _]. *)
Ltac ok_inv H :=
  repeat (cbn beta iota in H;
    lazymatch type of H with
    | obind ?r _ = Ok _ =>
        let a := fresh "a" in let E := fresh "E" in
        destruct r as [a| |] eqn:E; cbn [obind] in H;
        [destr_prod a | discriminate H | discriminate H]
    | (if ?b then _ else _) = Ok _ => let E := fresh "Eb" in destruct b eqn:E
    end).

(** C10: whenever [film_grain_params] returns [UpdateGrain p], the field
    [scaling_shift] of [p] is 8, whatever the coded 2-bit
    [grain_scaling_minus_8] was. *)
Theorem film_grain_params_scaling_shift input film_grain_allowed frame_type
  monochrome subsampling input' p :
  film_grain_params input film_grain_allowed frame_type monochrome subsampling
    = Ok (input', UpdateGrain p) ->
  scaling_shift p = 8.
Proof.
  intros H. unfold film_grain_params in H. ok_inv H; try discriminate H.
  all: injection H as _ <-; reflexivity.
Qed.

Lemma film_grain_params_scaling_shift_witness :
  snd (read_bits 2 (mkBitInput [6; 0] 5) 0) = 3 /\
  exists i' p,
    film_grain_params (mkBitInput [128; 0; 6; 0] 0) true Key true (1, 1)
      = Ok (i', UpdateGrain p) /\ scaling_shift p = 8.
Proof.
  split; [vm_compute; reflexivity|].
  destruct (film_grain_params (mkBitInput [128; 0; 6; 0] 0) true Key true (1, 1))
    as [[i' [| |p]]| |] eqn:E; pose proof E as E'; vm_compute in E'; try discriminate E'.
  exists i', p. split; [reflexivity|].
  exact (film_grain_params_scaling_shift _ _ _ _ _ _ _ E).
Defined.

(** ** Grain timeline *)

Definition last_end_le (l : list GrainTableSegment) (b : Z) : Prop :=
  match last_opt l with None => True | Some s => end_time s <= b end.

Lemma last_opt_snoc {A} (l : list A) x : last_opt (l ++ [x]) = Some x.
Proof.
  induction l as [|y l IH]; [reflexivity|].
  cbn [app last_opt]. destruct (l ++ [x]) eqn:E; [destruct l; discriminate|]. exact IH.
Qed.

Lemma segments_ordered_snoc l b x :
  segments_ordered false l -> last_end_le l b -> b <= start_time x ->
  start_time x <= end_time x -> segments_ordered false (l ++ [x]).
Proof.
  unfold last_end_le.
  induction l as [|s l IH]; intros Hl Hb Hx Hxe.
  - cbn. tauto.
  - cbn [app segments_ordered] in *. destruct Hl as (H1 & H2 & H3).
    destruct l as [|t l].
    + cbn in Hb |- *. repeat split; lia.
    + cbn [last_opt] in Hb. split; [exact H1|]. split; [exact H2|]. apply IH; auto.
Qed.

Lemma set_last_end_spec e l l' :
  set_last_end e l = Ok l' ->
  exists s, last_opt l = Some s /\
    last_opt l' = Some (mkGrainTableSegment (start_time s) e (grain_params s)) /\
    map start_time l' = map start_time l /\
    (segments_ordered false l -> start_time s <= e -> segments_ordered false l').
Proof.
  revert l'. induction l as [|s l IH]; intros l' H; [discriminate H|].
  destruct l as [|t l].
  - cbn in H. injection H as <-. exists s. cbn. repeat split; tauto.
  - change (set_last_end e (s :: t :: l)) with
      (let* l' := set_last_end e (t :: l) in Ok (s :: l')) in H.
    destruct (set_last_end e (t :: l)) as [l1| |] eqn:E; cbn [obind] in H; try discriminate H.
    injection H as <-. destruct (IH l1 eq_refl) as (s' & Hs & Hl' & Hm & Ho).
    exists s'. destruct l1 as [|t1 l1]; [discriminate Hm|].
    cbn [map] in Hm. injection Hm as Hm1 Hm2.
    split; [exact Hs|]. split; [exact Hl'|]. split; [cbn; congruence|].
    intros (H1 & H2 & H3) Hse.
    change (start_time s <= end_time s /\ end_time s <= start_time t1 /\
            segments_ordered false (t1 :: l1)).
    rewrite Hm1. split; [exact H1|]. split; [exact H2|]. apply Ho; auto.
Qed.

Lemma segments_ordered_last l s :
  segments_ordered false l -> last_opt l = Some s -> start_time s <= end_time s.
Proof.
  induction l as [|x l IH]; intros Hl Hs; [discriminate Hs|].
  destruct l as [|y l].
  - cbn in Hs. injection Hs as <-. apply Hl.
  - apply IH; [apply Hl | exact Hs].
Qed.

Lemma packet_end_of_ok f e :
  packet_end_of f = Ok e -> e = ceil_as_u64 f * TIMESTAMP_BASE_UNIT.
Proof.
  unfold packet_end_of. destruct (_ <=? U64_MAX); intros H; [injection H as <-; reflexivity | discriminate H].
Qed.

Lemma aggregate_step_ordered tpp acc cur_start f e elem acc1 s1 f1 e1 :
  aggregate_step tpp (acc, cur_start, f, e) elem = Ok (acc1, s1, f1, e1) ->
  segments_ordered false acc -> last_end_le acc cur_start -> cur_start <= e ->
  s1 = e /\ f1 = (f + tpp)%float /\ packet_end_of f1 = Ok e1 /\
  segments_ordered false acc1 /\ last_end_le acc1 e.
Proof.
  intros H Hacc Hlast Hse. unfold aggregate_step in H.
  set (tail := fun acc0 : list GrainTableSegment =>
         let* cur_packet_end := packet_end_of (f + tpp)%float in
         Ok (acc0, e, (f + tpp)%float, cur_packet_end)) in H.
  assert (Htail : forall acc0, obind (Ok acc0) tail = Ok (acc1, s1, f1, e1) ->
            segments_ordered false acc0 -> last_end_le acc0 e ->
            s1 = e /\ f1 = (f + tpp)%float /\ packet_end_of f1 = Ok e1 /\
            segments_ordered false acc1 /\ last_end_le acc1 e).
  { intros acc0 H0 Ho Hl. cbn [obind] in H0. unfold tail in H0.
    destruct (packet_end_of (f + tpp)%float) as [e2| |] eqn:E2; cbn [obind] in H0;
      try discriminate H0.
    injection H0 as <- <- <- <-. auto. }
  assert (Hpush : forall p, segments_ordered false (acc ++ [mkGrainTableSegment cur_start e p])
                         /\ last_end_le (acc ++ [mkGrainTableSegment cur_start e p]) e).
  { intros p. split.
    - eapply segments_ordered_snoc; eauto; cbn; lia.
    - unfold last_end_le. rewrite last_opt_snoc. cbn. lia. }
  destruct (last_opt acc) as [last|] eqn:Hlo.
  - destruct (end_time last =? cur_start) eqn:Hpg.
    + apply Z.eqb_eq in Hpg.
      assert (Hls : start_time last <= e).
      { pose proof (segments_ordered_last acc last Hacc Hlo). lia. }
      assert (Hset : forall acc0, set_last_end e acc = Ok acc0 ->
                segments_ordered false acc0 /\ last_end_le acc0 e).
      { intros acc0 Hs. destruct (set_last_end_spec e acc acc0 Hs) as (s0 & Hs0 & Hl1 & _ & Ho).
        rewrite Hlo in Hs0. injection Hs0 as <-. split; [apply Ho; auto|].
        unfold last_end_le. rewrite Hl1. cbn. lia. }
      destruct elem as [| |p].
      * apply (Htail acc H Hacc). unfold last_end_le in *. rewrite Hlo in *. lia.
      * destruct (set_last_end e acc) as [acc0| |] eqn:Es; cbn [obind] in H; try discriminate H.
        destruct (Hset acc0 eq_refl). apply (Htail acc0); auto.
      * destruct (FilmGrainParams_eqb p (segment_grain_params last)).
        -- destruct (set_last_end e acc) as [acc0| |] eqn:Es; cbn [obind] in H; try discriminate H.
           destruct (Hset acc0 eq_refl). apply (Htail acc0); auto.
        -- destruct (Hpush p). apply (Htail _ H); auto.
    + destruct elem as [| |p].
      1,2: apply (Htail acc H Hacc); unfold last_end_le in *; rewrite Hlo in *; lia.
      destruct (Hpush p). apply (Htail _ H); auto.
  - destruct elem as [| |p].
    1,2: apply (Htail acc H Hacc); unfold last_end_le; rewrite Hlo; exact I.
    destruct (Hpush p). apply (Htail _ H); auto.
Qed.

Lemma aggregate_fold_ordered tpp hs : forall acc cur_start f e segs s' f' e',
  aggregate_fold tpp hs (acc, cur_start, f, e) = Ok (segs, s', f', e') ->
  packet_end_of f = Ok e ->
  segments_ordered false acc ->
  last_end_le acc cur_start ->
  nondecreasing (cur_start :: packet_ends (length hs) tpp f) = true ->
  segments_ordered false segs.
Proof.
  induction hs as [|elem hs IH]; intros acc cur_start f e segs s' f' e' H Hf Hacc Hlast Hnd.
  - cbn in H. injection H as <- _ _ _. exact Hacc.
  - apply packet_end_of_ok in Hf as He.
    cbn [length packet_ends nondecreasing] in Hnd. rewrite <- He in Hnd.
    apply andb_prop in Hnd as [Hse Hnd]. apply Z.leb_le in Hse.
    cbn [aggregate_fold] in H.
    destruct (aggregate_step tpp (acc, cur_start, f, e) elem) as [[[[acc1 s1] f1] e1]| |] eqn:Es;
      cbn [obind] in H; try discriminate H.
    destruct (aggregate_step_ordered _ _ _ _ _ _ _ _ _ _ Es Hacc Hlast Hse)
      as (-> & -> & He1 & Ho & Hl).
    eapply IH; eauto.
Qed.

(** C6 (amended): whenever the aggregator returns [segs] and the packet end
    times [ceil(k * time_per_packet) * 10_000_000] it computes for the
    [length hs] headers are non-decreasing (they are for IEEE addition of a
    positive [time_per_packet]; this is assumed, not derived from the float
    model), every segment has [start_time <= end_time] and ends no later than
    the next one starts. *)
Theorem aggregate_grain_headers_ordered hs frame_rate segs :
  aggregate_grain_headers hs frame_rate = Ok segs ->
  nondecreasing
    (packet_ends (length hs) (f64_of_Rational (Rational_invert frame_rate))
       (f64_of_Rational (Rational_invert frame_rate))) = true ->
  segments_ordered false segs.
Proof.
  unfold aggregate_grain_headers.
  set (tpp := f64_of_Rational (Rational_invert frame_rate)).
  intros H Hnd.
  destruct (packet_end_of tpp) as [e| |] eqn:He; cbn [obind] in H; try discriminate H.
  destruct (aggregate_fold tpp hs ([], 0, tpp, e)) as [[[[acc s'] f'] e']| |] eqn:Ef;
    cbn [obind] in H; try discriminate H.
  injection H as <-.
  eapply aggregate_fold_ordered; [exact Ef | exact He | exact I | exact I |].
  destruct hs as [|h hs]; [reflexivity|].
  cbn [length packet_ends nondecreasing] in Hnd |- *. rewrite Hnd, andb_true_r.
  apply Z.leb_le. apply Z.mul_nonneg_nonneg; [|unfold TIMESTAMP_BASE_UNIT; lia].
  unfold ceil_as_u64. destruct (FloatOps.Prim2SF _) as [| [|] | | ];
    first [apply Z.le_max_l | unfold U64_MAX; lia].
Qed.

Lemma aggregate_grain_headers_ordered_witness :
  aggregate_grain_headers
    [UpdateGrain example_grain_params; CopyRefFrame; Disable;
     UpdateGrain example_grain_params] (mkRational 1 1)
  = Ok [mkGrainTableSegment 0 20000000 example_grain_params;
        mkGrainTableSegment 30000000 40000000 example_grain_params] /\
  nondecreasing
    (packet_ends 4 (f64_of_Rational (Rational_invert (mkRational 1 1)))
       (f64_of_Rational (Rational_invert (mkRational 1 1)))) = true /\
  segments_ordered false
    [mkGrainTableSegment 0 20000000 example_grain_params;
     mkGrainTableSegment 30000000 40000000 example_grain_params].
Proof.
  assert (H1 : aggregate_grain_headers
    [UpdateGrain example_grain_params; CopyRefFrame; Disable;
     UpdateGrain example_grain_params] (mkRational 1 1)
    = Ok [mkGrainTableSegment 0 20000000 example_grain_params;
          mkGrainTableSegment 30000000 40000000 example_grain_params])
    by (vm_compute; reflexivity).
  assert (H2 : nondecreasing
    (packet_ends 4 (f64_of_Rational (Rational_invert (mkRational 1 1)))
       (f64_of_Rational (Rational_invert (mkRational 1 1)))) = true)
    by (vm_compute; reflexivity).
  split; [exact H1|]. split; [exact H2|].
  exact (aggregate_grain_headers_ordered _ _ _ H1 H2).
Defined.

(** C6 (counterexample): at 24/1 fps, the headers [Disable; UpdateGrain p]
    give one segment whose [start_time] equals its [end_time] (both packets
    end within the first second), so [start_i < end_i] fails. *)
Lemma aggregate_grain_headers_empty_segment :
  aggregate_grain_headers [Disable; UpdateGrain example_grain_params] (mkRational 24 1)
    = Ok [mkGrainTableSegment 10000000 10000000 example_grain_params] /\
  ~ segments_ordered true [mkGrainTableSegment 10000000 10000000 example_grain_params].
Proof.
  split; [vm_compute; reflexivity|].
  cbn. intros [H _]. lia.
Qed.

(** C7 (counterexample): 30 identical [UpdateGrain] headers at 24000/1001
    fps give the single segment [0, 20000000]: the end is
    [ceil(30 * 1001 / 24000) = ceil(1.25125) = 2] whole seconds times
    [10_000_000], not [12513000]. *)
Lemma aggregate_grain_headers_constant_stream_ends_at_2s :
  aggregate_grain_headers (repeat (UpdateGrain example_grain_params) 30)
    (mkRational 24000 1001)
    = Ok [mkGrainTableSegment 0 20000000 example_grain_params].
Proof. vm_compute. reflexivity. Qed.

Lemma list_eqb_refl {A} (eqb : A -> A -> bool) (l : list A) :
  (forall x, eqb x x = true) -> list_eqb eqb l l = true.
Proof. intros H. induction l as [|x l IH]; cbn; [reflexivity|]. now rewrite H, IH. Qed.

Lemma FilmGrainParams_eqb_refl p : FilmGrainParams_eqb p p = true.
Proof.
  assert (Hp : forall q, pair_eqb q q = true)
    by (intros [a b]; unfold pair_eqb; now rewrite !Z.eqb_refl).
  destruct p; unfold FilmGrainParams_eqb; cbn -[list_eqb].
  rewrite !list_eqb_refl by (exact Hp || exact Z.eqb_refl).
  rewrite !Z.eqb_refl, !eqb_reflx. reflexivity.
Qed.

Lemma aggregate_fold_constant tpp p n : forall a cs f e,
  aggregate_fold tpp (repeat (UpdateGrain p) n) ([mkGrainTableSegment a cs p], cs, f, e) =
  let* (cs', f', e') := packet_clock tpp n (cs, f, e) in
  Ok ([mkGrainTableSegment a cs' p], cs', f', e').
Proof.
  induction n as [|n IH]; intros a cs f e; [reflexivity|].
  cbn [repeat aggregate_fold packet_clock]. unfold aggregate_step.
  cbn [last_opt end_time]. rewrite Z.eqb_refl. unfold segment_grain_params.
  cbn [grain_params]. rewrite FilmGrainParams_eqb_refl.
  cbn [set_last_end start_time grain_params obind].
  destruct (packet_end_of (f + tpp)%float) as [e'| |]; cbn [obind]; [|reflexivity..].
  apply IH.
Qed.

(** C7 (amended): for every parameter set [p], 30 headers [UpdateGrain p] at
    24000/1001 fps give exactly one segment, from 0 to 20000000: the end is
    [ceil(1.25125) * 10_000_000]. *)
Theorem aggregate_grain_headers_constant_stream p :
  aggregate_grain_headers (repeat (UpdateGrain p) 30) (mkRational 24000 1001)
    = Ok [mkGrainTableSegment 0 20000000 p].
Proof.
  unfold aggregate_grain_headers.
  set (tpp := f64_of_Rational (Rational_invert (mkRational 24000 1001))).
  assert (H1 : packet_end_of tpp = Ok 10000000) by (vm_compute; reflexivity).
  rewrite H1. cbn [obind]. change (repeat (UpdateGrain p) 30) with (UpdateGrain p :: repeat (UpdateGrain p) 29).
  cbn [aggregate_fold]. unfold aggregate_step. cbn [last_opt obind app].
  assert (H2 : packet_end_of (tpp + tpp)%float = Ok 10000000) by (vm_compute; reflexivity).
  rewrite H2. cbn [obind]. rewrite aggregate_fold_constant.
  assert (H3 : exists f', packet_clock tpp 29 (10000000, (tpp + tpp)%float, 10000000)
               = Ok (20000000, f', 20000000)) by (eexists; vm_compute; reflexivity).
  destruct H3 as [f' ->]. reflexivity.
Qed.

(* ================================================================== *)
(** * Rewrite mode (C1) *)

(** C1 (counterexample): rewriting the one-packet stream
    [example_rewrite_packet] with incoming grain (so the sequence
    header's [film_grain_params_present] bit, already 1, is left as it
    is, and no frame is present) does not give the input back.  The
    sequence header arm appends the whole rest of the packet to
    [packet_out], rewrites the OBU size from 8 to 11, and the padding OBU
    after it is then copied a second time: 15 bytes become 18. *)
Lemma modify_packets_duplicates_after_sequence_header :
  snd (modify_packets [example_rewrite_packet] (BitstreamParser.with_writer true))
    = Ok [[18; 0; 10; 11; 0; 0; 0; 1; 7; 128; 48; 152; 122; 1; 0; 122; 1; 0]]
  /\ [18; 0; 10; 11; 0; 0; 0; 1; 7; 128; 48; 152; 122; 1; 0; 122; 1; 0]
       <> example_rewrite_packet.
Proof.
  split.
  - vm_compute. reflexivity.
  - unfold example_rewrite_packet, example_sequence_header_obu; cbn. congruence.
Qed.

(* ================================================================== *)
(** * Failed OBUs and the parser context (C2) *)

(** C2 (counterexample): in [example_valid_state] (all [big_ref_valid]
    set), the frame header OBU [1A 01 17] (a shown key frame whose
    header ends before its frame width) fails with an end-of-input
    error, yet the key frame reset already cleared every
    [big_ref_valid] entry. *)
Lemma parse_obu_failed_key_frame_clears_ref_valid :
  snd (parse_obu false [26; 1; 23] example_valid_state) = Error Eof
  /\ BitstreamParser.big_ref_valid (fst (parse_obu false [26; 1; 23] example_valid_state))
       = repeat false 8
  /\ BitstreamParser.big_ref_valid example_valid_state = repeat true 8.
Proof. split; [|split]; vm_compute; reflexivity. Qed.

(** C2 (amended): [parse_obu], on success, error or panic alike, never
    changes the installed sequence header or the previous frame header
    (only the packet loop installs them, after a successful parse).  The
    reference arrays are another matter: a frame header that fails
    partway may already have changed them. *)
Theorem parse_obu_keeps_installed_headers WRITE input s :
  BitstreamParser.sequence_header (fst (parse_obu WRITE input s))
    = BitstreamParser.sequence_header s
  /\ BitstreamParser.previous_frame_header (fst (parse_obu WRITE input s))
    = BitstreamParser.previous_frame_header s.
Proof. apply parse_obu_keeps_headers. Qed.

(* ================================================================== *)
(** * Reference state after a frame header (C3) *)

(** C3 (counterexample): a shown key frame parsed successfully from
    [example_parser_state] leaves every [big_ref_valid] entry set, not
    cleared: its [refresh_frame_flags] is 255, and the refresh loop runs
    after the key frame reset. *)
Lemma key_frame_header_sets_all_ref_valid :
  snd (uncompressed_header (mkBitInput example_key_frame_bits 0)
         example_frame_obu_header example_parser_state)
    = Ok (mkBitInput [0] 7,
          (example_key_frame_header, Some (mkHeaderLocals Key 255 0)))
  /\ BitstreamParser.big_ref_valid
       (fst (uncompressed_header (mkBitInput example_key_frame_bits 0)
               example_frame_obu_header example_parser_state))
     = repeat true 8.
Proof. split; vm_compute; reflexivity. Qed.

(** C3 (amended): when [uncompressed_header] parses a frame (not a
    show-existing frame) successfully from a context whose
    [big_ref_valid] and [big_ref_order_hint] have their 8 entries, then
    for every [i < 8] with bit [i] of the frame's [refresh_frame_flags]
    set, [big_ref_valid[i]] is true and [big_ref_order_hint[i]] is the
    frame's [order_hint]. *)
Theorem uncompressed_header_refreshes input obu_headers s input' header locals i
  (Hvalid : length (BitstreamParser.big_ref_valid s) = 8%nat)
  (Hhint : length (BitstreamParser.big_ref_order_hint s) = 8%nat)
  (Hok : snd (uncompressed_header input obu_headers s) = Ok (input', (header, Some locals)))
  (Hi : (i < 8)%nat)
  (Hbit : Z.testbit (hl_refresh_frame_flags locals) (Z.of_nat i) = true) :
  nth i (BitstreamParser.big_ref_valid (fst (uncompressed_header input obu_headers s))) false
    = true
  /\ nth i (BitstreamParser.big_ref_order_hint (fst (uncompressed_header input obu_headers s))) 0
    = hl_order_hint locals.
Proof.
  unfold uncompressed_header, st_bind in *.
  pose proof (uncompressed_header_fields_keeps_ref_lengths input obu_headers s) as [L1 L2].
  destruct (uncompressed_header_fields input obu_headers s) as [s1 [[inp [hdr [l|]]]| |]];
    cbn in *; try discriminate.
  injection Hok as _ _ <-.
  apply refresh_update_sets; auto; congruence.
Qed.

(** Witness of C3 (amended): the shown key frame of
    [key_frame_header_sets_all_ref_valid], bit 0. *)
Lemma uncompressed_header_refreshes_witness :
  nth 0 (BitstreamParser.big_ref_valid
           (fst (uncompressed_header (mkBitInput example_key_frame_bits 0)
                   example_frame_obu_header example_parser_state))) false = true
  /\ nth 0 (BitstreamParser.big_ref_order_hint
              (fst (uncompressed_header (mkBitInput example_key_frame_bits 0)
                      example_frame_obu_header example_parser_state))) 0
     = hl_order_hint (mkHeaderLocals Key 255 0).
Proof.
  apply (uncompressed_header_refreshes (mkBitInput example_key_frame_bits 0)
           example_frame_obu_header example_parser_state (mkBitInput [0] 7)
           example_key_frame_header (mkHeaderLocals Key 255 0) 0).
  - vm_compute. reflexivity.
  - vm_compute. reflexivity.
  - vm_compute. reflexivity.
  - lia.
  - vm_compute. reflexivity.
Defined.

(* ================================================================== *)
(** * A frame header after the first one (C8) *)

(** C8 (counterexample): with [seen_frame_header] set and a previous
    frame header installed, [parse_frame_header] returns no header, not
    the previous one. *)
Lemma parse_frame_header_seen_returns_none :
  let s := BitstreamParser.set_seen_frame_header true
             (BitstreamParser.set_previous_frame_header
                (Some example_key_frame_header) example_parser_state) in
  BitstreamParser.previous_frame_header s = Some example_key_frame_header
  /\ parse_frame_header [] example_frame_obu_header s = (s, Ok ([], None)).
Proof. split; vm_compute; reflexivity. Qed.

(** C8 (amended): when [seen_frame_header] is set, [parse_frame_header]
    consumes nothing, returns [None] and leaves the whole context as it
    was. *)
Theorem parse_frame_header_seen input obu_header s
  (Hseen : BitstreamParser.seen_frame_header s = true) :
  parse_frame_header input obu_header s = (s, Ok (input, None)).
Proof.
  unfold parse_frame_header, st_bind, gets; rewrite Hseen; reflexivity.
Qed.

(** Witness of C8 (amended). *)
Lemma parse_frame_header_seen_witness :
  BitstreamParser.seen_frame_header
    (BitstreamParser.set_seen_frame_header true example_parser_state) = true
  /\ parse_frame_header [26; 1; 23] example_frame_obu_header
       (BitstreamParser.set_seen_frame_header true example_parser_state)
     = (BitstreamParser.set_seen_frame_header true example_parser_state,
        Ok ([26; 1; 23], None)).
Proof.
  split; [reflexivity|].
  apply parse_frame_header_seen. reflexivity.
Defined.

(* ================================================================== *)
(** * A frame before any sequence header (C9) *)

(** C9 (counterexample): the frame header OBU [1A 01 17] parsed by a
    fresh parser, which has no sequence header, panics (the [unwrap] of
    [self.sequence_header]) instead of returning an error. *)
Lemma parse_obu_frame_header_without_sequence_header_panics :
  snd (parse_obu false [26; 1; 23] (BitstreamParser.with_writer false)) = Panic.
Proof. vm_compute. reflexivity. Qed.

(** C9 (amended): with no sequence header installed and
    [seen_frame_header] clear, [parse_frame_header] and
    [parse_frame_obu] panic, whatever the input. *)
Theorem frame_without_sequence_header_panics WRITE input obu_header s
  (Hsh : BitstreamParser.sequence_header s = None)
  (Hseen : BitstreamParser.seen_frame_header s = false) :
  snd (parse_frame_header input obu_header s) = Panic
  /\ snd (parse_frame_obu WRITE input obu_header s) = Panic.
Proof.
  destruct s; cbn in Hsh, Hseen; subst; split; reflexivity.
Qed.

(** Witness of C9 (amended): a fresh parser. *)
Lemma frame_without_sequence_header_panics_witness :
  snd (parse_frame_header [26; 1; 23] example_frame_obu_header
         (BitstreamParser.with_writer false)) = Panic
  /\ snd (parse_frame_obu false [26; 1; 23] example_frame_obu_header
            (BitstreamParser.with_writer false)) = Panic.
Proof.
  apply frame_without_sequence_header_panics; reflexivity.
Defined.
Lemma mod_pow2_succ y n : 0 <= n ->
  y mod 2 ^ (n + 1) = Z.b2z (Z.testbit y n) * 2 ^ n + y mod 2 ^ n.
Proof.
  intros Hn. rewrite Z.testbit_spec' by lia.
  rewrite Z.pow_add_r by lia. change (2 ^ 1) with 2.
  assert (Hm : 0 < 2 ^ n) by (apply Z.pow_pos_nonneg; lia).
  set (m := 2 ^ n) in *.
  symmetry. apply Z.mod_unique with (q := y / m / 2).
  - left. pose proof (Z.mod_pos_bound y m Hm). pose proof (Z.mod_pos_bound (y / m) 2 ltac:(lia)). nia.
  - pose proof (Z.div_mod y m ltac:(lia)). pose proof (Z.div_mod (y / m) 2 ltac:(lia)). nia.
Qed.

Lemma shiftr_mod2 y k : 0 <= k -> Z.shiftr y k mod 2 = Z.b2z (Z.testbit y k).
Proof.
  intros Hk. rewrite Z.testbit_spec', Z.shiftr_div_pow2 by lia. reflexivity.
Qed.

Lemma read_bits_in_byte : forall n off acc b rest,
  (off < 8)%nat -> (off + n <= 8)%nat ->
  read_bits n (mkBitInput (b :: rest) off) acc =
    (if (off + n =? 8)%nat then mkBitInput rest 0 else mkBitInput (b :: rest) (off + n),
     acc * 2 ^ Z.of_nat n + Z.shiftr b (Z.of_nat (8 - off - n)) mod 2 ^ Z.of_nat n).
Proof.
  induction n as [|n IH]; intros off acc b rest Ho Hn.
  - cbn [read_bits]. rewrite Nat.add_0_r.
    replace (off =? 8)%nat with false by (symmetry; apply Nat.eqb_neq; lia).
    rewrite Z.pow_0_r, Z.mod_1_r. f_equal; lia.
  - cbn [read_bits read_one_bit bi_bytes bi_off].
    set (bit := if Z.testbit b (Z.of_nat (7 - off)) then 1 else 0).
    assert (Hbit : bit = Z.b2z (Z.testbit b (Z.of_nat (7 - off)))) by
      (unfold bit; destruct Z.testbit; reflexivity).
    assert (Hsplit : Z.shiftr b (Z.of_nat (8 - off - S n)) mod 2 ^ Z.of_nat (S n) =
      bit * 2 ^ Z.of_nat n + Z.shiftr b (Z.of_nat (8 - S off - n)) mod 2 ^ Z.of_nat n).
    { rewrite Nat2Z.inj_succ, <- Z.add_1_r, mod_pow2_succ by lia.
      rewrite Hbit, Z.shiftr_spec by lia. f_equal; [do 3 f_equal; lia|].
      f_equal. f_equal. lia. }
    destruct (off =? 7)%nat eqn:E7.
    + apply Nat.eqb_eq in E7. subst off. assert (n = 0)%nat by lia. subst n.
      cbn [read_bits]. simpl (7 + 1 =? 8)%nat. cbv iota. f_equal.
      rewrite Hsplit. cbn -[Z.shiftr]. rewrite Z.mod_1_r. lia.
    + apply Nat.eqb_neq in E7.
      rewrite IH by lia. rewrite Hsplit.
      replace (S off + n)%nat with (off + S n)%nat by lia. f_equal.
      rewrite Nat2Z.inj_succ, Z.pow_succ_r by lia. ring.
Qed.

Lemma take_in_byte n off b rest :
  (off < 8)%nat -> (off + n <= 8)%nat ->
  take n (mkBitInput (b :: rest) off) =
    Ok (if (off + n =? 8)%nat then mkBitInput rest 0 else mkBitInput (b :: rest) (off + n),
        Z.shiftr b (Z.of_nat (8 - off - n)) mod 2 ^ Z.of_nat n).
Proof.
  intros Ho Hn. unfold take. cbn [bi_bytes bi_off length].
  destruct (n =? 0)%nat eqn:E0.
  - apply Nat.eqb_eq in E0. subst n. rewrite Nat.add_0_r.
    replace (off =? 8)%nat with false by (symmetry; apply Nat.eqb_neq; lia).
    rewrite Z.pow_0_r, Z.mod_1_r. reflexivity.
  - replace (S (length rest) * 8 <? n + off)%nat with false
      by (symmetry; apply Nat.ltb_ge; lia).
    rewrite read_bits_in_byte by lia. rewrite Z.mul_0_l, Z.add_0_l. reflexivity.
Qed.

Ltac take_byte := rewrite take_in_byte by lia; cbv [Nat.add Nat.eqb Nat.sub Z.of_nat Pos.of_succ_nat Pos.succ obind].

Lemma parse_obu_header_byte b rest :
  parse_obu_header (b :: rest) =
    if Z.testbit b 7 then Error TagBits
    else if Z.testbit b 0 then Error TagBits
    else if Z.testbit b 2 then
      match rest with
      | [] => Error Eof
      | e :: rest' =>
          Ok (rest', mkObuHeader (ObuType.of_u4 (Z.shiftr b 3 mod 16)) (Z.testbit b 1)
                       (Some (mkObuExtension (Z.shiftr e 5 mod 8) (Z.shiftr e 3 mod 4))))
      end
    else Ok (rest, mkObuHeader (ObuType.of_u4 (Z.shiftr b 3 mod 16)) (Z.testbit b 1) None).
Proof.
  unfold parse_obu_header, bits, take_zero_bit, take_zero_bits, obu_type_of, take_bool_bit.
  take_byte. change (2 ^ 1) with 2. rewrite shiftr_mod2 by lia.
  destruct (Z.testbit b 7); cbn [Z.b2z Z.eqb obind]; [reflexivity|].
  take_byte. take_byte. take_byte. take_byte.
  change (2 ^ 1) with 2. change (2 ^ 4) with 16.
  rewrite !shiftr_mod2 by lia.
  destruct (Z.testbit b 0); cbn [Z.b2z Z.eqb obind]; [reflexivity|].
  destruct (Z.testbit b 2); cbn [Z.b2z Z.ltb Z.compare obind].
  - unfold obu_extension. destruct rest as [|e rest'].
    + reflexivity.
    + take_byte. take_byte. take_byte. destruct (Z.testbit b 1); reflexivity.
  - destruct (Z.testbit b 1); reflexivity.
Qed.

(** ** Bounds of [take] *)
Lemma read_bits_bound : forall n i acc i' v, 0 <= acc ->
  read_bits n i acc = (i', v) -> 0 <= v < (acc + 1) * 2 ^ Z.of_nat n.
Proof.
  induction n as [|n IH]; intros i acc i' v Ha H; cbn [read_bits] in H.
  - injection H as _ <-. simpl. lia.
  - destruct (read_one_bit i) as [[i1 bit]|] eqn:E.
    + assert (Hb : 0 <= bit <= 1).
      { unfold read_one_bit in E. destruct (bi_bytes i); [discriminate|].
        destruct Z.testbit, (bi_off i =? 7)%nat; injection E as _ <-; lia. }
      apply IH in H; [|lia]. rewrite Nat2Z.inj_succ, Z.pow_succ_r by lia. nia.
    + injection H as _ <-. assert (0 < 2 ^ Z.of_nat (S n)) by (apply Z.pow_pos_nonneg; lia). nia.
Qed.

Lemma take_bound n i i' v : take n i = Ok (i', v) -> 0 <= v < 2 ^ Z.of_nat n.
Proof.
  unfold take. destruct (n =? 0)%nat eqn:E0.
  - intros H. injection H as _ <-. apply Nat.eqb_eq in E0. subst. simpl. lia.
  - destruct (_ <? _)%nat; [discriminate|]. intros H. injection H as H.
    destruct (read_bits n i 0) eqn:E. injection H as -> ->.
    apply read_bits_bound in E; lia.
Qed.

Lemma take_bool_bit_ok i : (1 <= length (bi_bytes i) * 8 - bi_off i)%nat ->
  exists i' v, take_bool_bit i = Ok (i', v).
Proof.
  intros H. unfold take_bool_bit, take. cbn [Nat.eqb].
  replace (length (bi_bytes i) * 8 <? 1 + bi_off i)%nat with false by (symmetry; apply Nat.ltb_ge; lia).
  destruct (read_bits 1 i 0). cbn. eauto.
Qed.

(** ** [util.rs] *)
Lemma floor_log2_loop_zero f s : floor_log2_loop f 0 s = s.
Proof. destruct f; reflexivity. Qed.

Lemma floor_log2_loop_spec : forall f x s, 0 < x < 2 ^ Z.of_nat f ->
  floor_log2_loop f x s = s + Z.log2 x + 1.
Proof.
  induction f as [|f IH]; intros x s Hx; [simpl in Hx; lia|].
  cbn [floor_log2_loop]. replace (x =? 0) with false by (symmetry; apply Z.eqb_neq; lia).
  destruct (Z.eq_dec (Z.shiftr x 1) 0) as [Hz|Hz].
  - rewrite Hz, floor_log2_loop_zero.
    assert (x = 1).
    { rewrite Z.shiftr_div_pow2 in Hz by lia. change (2 ^ 1) with 2 in Hz.
      assert (x < 2) by (apply Z.div_small_iff in Hz; lia). lia. }
    subst. change (Z.log2 1) with 0. lia.
  - assert (Hs : 0 < Z.shiftr x 1 < 2 ^ Z.of_nat f).
    { rewrite Z.shiftr_div_pow2 in * by lia. change (2 ^ 1) with 2 in *.
      rewrite Nat2Z.inj_succ, Z.pow_succ_r in Hx by lia.
      pose proof (Z.div_pos x 2). split; [lia|]. apply Z.div_lt_upper_bound; lia. }
    rewrite IH by exact Hs. rewrite Z.log2_shiftr by lia.
    assert (1 <= Z.log2 x).
    { rewrite Z.shiftr_div_pow2 in Hz by lia. change (2 ^ 1) with 2 in Hz.
      apply Z.log2_le_pow2; [lia|]. change (2 ^ 1) with 2.
      destruct (Z.lt_ge_cases x 2); [|lia]. rewrite Z.div_small in Hz by lia. lia. }
    lia.
Qed.

Lemma floor_log2_spec x : 0 < x < 2 ^ 64 -> floor_log2 x = Ok (Z.log2 x).
Proof.
  intros Hx. unfold floor_log2. rewrite floor_log2_loop_spec by exact Hx.
  unfold usize_sub. replace (1 <=? 0 + Z.log2 x + 1) with true
    by (symmetry; apply Z.leb_le; pose proof (Z.log2_nonneg x); lia).
  f_equal. lia.
Qed.

Lemma land_pow2 x k : 0 <= k -> Z.land x (2 ^ k) = 2 ^ k * Z.b2z (Z.testbit x k).
Proof.
  intros Hk. apply Z.bits_inj'; intros i Hi.
  rewrite Z.land_spec, Z.pow2_bits_eqb by lia.
  destruct (Z.testbit x k) eqn:E; cbn [Z.b2z].
  - rewrite Z.mul_1_r, Z.pow2_bits_eqb by lia.
    destruct (Z.eqb_spec k i); [subst; rewrite E|]; destruct (Z.testbit x i); reflexivity.
  - rewrite Z.mul_0_r, Z.bits_0. destruct (Z.eqb_spec k i); [subst; rewrite E|];
      destruct (Z.testbit x i); reflexivity.
Qed.

Lemma ns_range input n input' v : 1 <= n < 2 ^ 64 ->
  ns input n = Ok (input', v) -> 0 <= v < n.
Proof.
  intros Hn H. unfold ns in H. rewrite floor_log2_spec in H by lia. cbn [obind] in H.
  set (k := Z.log2 n) in *.
  assert (Hk : 0 <= k) by apply Z.log2_nonneg.
  assert (Hb : 2 ^ k <= n < 2 ^ (k + 1)) by (apply Z.log2_spec; lia).
  rewrite Z.shiftl_1_l in H. replace (k + 1 - 1) with k in H by lia.
  rewrite Z.pow_add_r in * by lia. change (2 ^ 1) with 2 in *.
  destruct (take (Z.to_nat k) input) as [[i1 v1]| |] eqn:E; cbn [obind] in H; try discriminate.
  apply take_bound in E. rewrite Z2Nat.id in E by lia.
  destruct (v1 <? 2 ^ k * 2 - n) eqn:Hlt.
  - injection H as _ <-. apply Z.ltb_lt in Hlt. lia.
  - apply Z.ltb_ge in Hlt. rewrite (Z.shiftl_mul_pow2 v1 1) in H by lia.
    destruct (take 1 i1) as [[i2 e]| |] eqn:E2; cbn [obind] in H; try discriminate.
    apply take_bound in E2. change (2 ^ Z.of_nat 1) with 2 in E2.
    injection H as _ <-. lia.
Qed.

Lemma su_range input n input' v : (1 <= n)%nat ->
  su input n = Ok (input', v) -> - 2 ^ (Z.of_nat n - 1) <= v < 2 ^ (Z.of_nat n - 1).
Proof.
  intros Hn H. unfold su in H.
  destruct (take n input) as [[i1 v1]| |] eqn:E; cbn [obind] in H; try discriminate.
  apply take_bound in E. unfold usize_sub in H.
  replace (1 <=? Z.of_nat n) with true in H by (symmetry; apply Z.leb_le; lia).
  cbn [obind] in H. rewrite Z.shiftl_1_l, land_pow2 in H by lia.
  set (k := Z.of_nat n - 1) in *.
  assert (Hk2 : 0 < 2 ^ k) by (apply Z.pow_pos_nonneg; lia).
  assert (Hv : v1 = Z.b2z (Z.testbit v1 k) * 2 ^ k + v1 mod 2 ^ k).
  { rewrite <- mod_pow2_succ by lia. symmetry. apply Z.mod_small.
    replace (k + 1) with (Z.of_nat n) by lia. lia. }
  pose proof (Z.mod_pos_bound v1 (2 ^ k) Hk2).
  destruct (Z.testbit v1 k); cbn [Z.b2z] in *.
  - replace (0 <? 2 ^ k * 1) with true in H by (symmetry; apply Z.ltb_lt; lia).
    injection H as _ <-.
    assert (Hd : forall x, match x with 0 => 0 | Z.pos y => Z.pos y~0 | Z.neg y => Z.neg y~0 end = 2 * x)
      by (intros []; reflexivity).
    rewrite Hd. lia.
  - replace (0 <? 2 ^ k * 0) with false in H by (rewrite Z.mul_0_r; reflexivity).
    injection H as _ <-. lia.
Qed.

Lemma uvlc_loop_ge : forall f i lz i' r, uvlc_loop f i lz = Ok (i', r) -> lz <= r.
Proof.
  induction f as [|f IH]; intros i lz i' r H; cbn [uvlc_loop] in H; [discriminate|].
  destruct (take_bool_bit i) as [[i1 d]| |]; cbn [obind] in H; try discriminate.
  destruct d.
  - injection H as _ <-. lia.
  - apply IH in H. lia.
Qed.

Lemma uvlc_range input input' v : uvlc input = Ok (input', v) -> 0 <= v <= 2 ^ 32 - 1.
Proof.
  intros H. unfold uvlc in H.
  destruct (uvlc_loop _ _ _) as [[i1 lz]| |] eqn:E; cbn [obind] in H; try discriminate.
  apply uvlc_loop_ge in E.
  destruct (32 <=? lz) eqn:E32.
  - injection H as _ <-. lia.
  - apply Z.leb_gt in E32.
    destruct (take (Z.to_nat lz) i1) as [[i2 w]| |] eqn:E2; cbn [obind] in H; try discriminate.
    apply take_bound in E2. rewrite Z2Nat.id in E2 by lia.
    injection H as _ <-. rewrite Z.shiftl_1_l.
    assert (2 ^ lz <= 2 ^ 31) by (apply Z.pow_le_mono_r; lia).
    assert (0 < 2 ^ lz) by (apply Z.pow_pos_nonneg; lia). lia.
Qed.

Lemma get_relative_dist_spec a b bits : 1 <= bits ->
  - 2 ^ (bits - 1) <= get_relative_dist a b bits < 2 ^ (bits - 1) /\
  get_relative_dist a b bits mod 2 ^ bits = (a - b) mod 2 ^ bits.
Proof.
  intros Hb. unfold get_relative_dist.
  replace (bits =? 0) with false by (symmetry; apply Z.eqb_neq; lia).
  rewrite Z.shiftl_1_l. set (k := bits - 1). set (d := a - b).
  assert (Hk2 : 0 < 2 ^ k) by (apply Z.pow_pos_nonneg; lia).
  replace (2 ^ k - 1) with (Z.ones k) by (rewrite Z.ones_equiv; lia).
  rewrite Z.land_ones, land_pow2 by lia.
  pose proof (Z.mod_pos_bound d (2 ^ k) Hk2).
  replace bits with (k + 1) by lia.
  split; [destruct (Z.testbit d k); cbn [Z.b2z]; lia|].
  rewrite (mod_pow2_succ d k) by lia.
  replace (d mod 2 ^ k - 2 ^ k * Z.b2z (Z.testbit d k))
    with (Z.b2z (Z.testbit d k) * 2 ^ k + d mod 2 ^ k
          + (- Z.b2z (Z.testbit d k)) * 2 ^ (k + 1))
    by (rewrite Z.pow_add_r by lia; change (2 ^ 1) with 2; ring).
  rewrite Z.mod_add by (apply Z.pow_nonzero; lia).
  rewrite <- mod_pow2_succ by lia. apply Z.mod_mod. apply Z.pow_nonzero; lia.
Qed.



Lemma leb128_write_app v rest : 0 <= v < 2 ^ 32 ->
  leb128 (leb128_write v ++ rest) =
    Ok (rest, mkReadResult v (Z.of_nat (length (leb128_write v)))) /\
  (1 <= length (leb128_write v) <= 5)%nat.
Proof.
  intros Hv. unfold leb128, leb128_write.
  assert (Hv8 : 0 <= v < 2 ^ (7 * Z.of_nat 8)).
  { split; [lia|]. eapply Z.lt_le_trans; [apply Hv|]. apply Z.pow_le_mono_r; lia. }
  destruct (leb128_write_loop_shape 8 v ltac:(lia) Hv8) as (pre & b & Heq & Hf & Hb & Hc).
  assert (Hlen : (length (leb128_write_loop 8 v) <= 5)%nat).
  { apply leb128_write_loop_length; [|lia].
    split; [lia|]. eapply Z.lt_le_trans; [apply Hv|]. apply Z.pow_le_mono_r; lia. }
  rewrite Heq in *. rewrite length_app in Hlen |- *. cbn [length] in Hlen |- *.
  split; [|lia]. rewrite <- app_assoc. cbn [app].
  rewrite leb128_loop_term by (auto; lia).
  rewrite Hc, Z.lor_0_l, Z.shiftl_0_r. do 3 f_equal. lia.
Qed.

Lemma parse_obu_unparsed WRITE b n payload rest s :
  Z.testbit b 7 = false -> Z.testbit b 2 = false -> Z.testbit b 0 = false ->
  Z.testbit b 1 = true -> 0 <= n < 2 ^ 32 -> length payload = Z.to_nat n ->
  let t := ObuType.of_u4 (Z.shiftr b 3 mod 16) in
  t <> ObuType.SequenceHeader -> t <> ObuType.FrameHeader -> t <> ObuType.Frame ->
  t <> ObuType.TileGroup ->
  parse_obu WRITE (b :: leb128_write n ++ payload ++ rest) s =
    (unparsed_obu_state WRITE t (b :: leb128_write n ++ payload) n s, Ok (rest, None)).
Proof.
  intros H7 H2 H0 H1 Hn Hp t Hsh Hfh Hf Htg.
  destruct (leb128_write_app n (payload ++ rest) Hn) as [Hleb Hl].
  unfold parse_obu. cbn [st_bind gets lift ret].
  rewrite parse_obu_header_byte, H7, H0, H2, H1. cbn [has_size_field extension].
  rewrite Hleb. cbn [st_bind gets lift ret modify rr_value bytes_read].
  set (lw := leb128_write n) in *.
  assert (Hslice : slice_to (b :: lw ++ payload ++ rest)
                     (len (b :: lw ++ payload ++ rest) - len (payload ++ rest)) = Ok (b :: lw)).
  { unfold slice_to, len. cbn [length]. rewrite !length_app.
    replace (Z.of_nat (S (length lw + (length payload + length rest))) -
             Z.of_nat (length payload + length rest)) with (Z.of_nat (S (length lw))) by lia.
    replace ((0 <=? _) && (_ <=? _)) with true by (symmetry; apply andb_true_intro; split; apply Z.leb_le; lia).
    rewrite Nat2Z.id. cbn [firstn]. rewrite firstn_app, firstn_all, Nat.sub_diag. cbn [firstn].
    rewrite app_nil_r. reflexivity. }
  assert (Hto : slice_to (payload ++ rest) n = Ok payload).
  { unfold slice_to. rewrite length_app.
    replace ((0 <=? _) && (_ <=? _)) with true by (symmetry; apply andb_true_intro; split; apply Z.leb_le; lia).
    rewrite <- Hp, firstn_app, firstn_all, Nat.sub_diag. cbn [firstn]. now rewrite app_nil_r. }
  assert (Hfrom : slice_from (payload ++ rest) n = Ok rest).
  { unfold slice_from. rewrite length_app.
    replace ((0 <=? _) && (_ <=? _)) with true by (symmetry; apply andb_true_intro; split; apply Z.leb_le; lia).
    rewrite <- Hp, skipn_app, skipn_all, Nat.sub_diag. reflexivity. }
  fold t. unfold not_in_operating_point. cbn [extension]. rewrite !andb_false_r.
  unfold unparsed_obu_state.
  destruct WRITE; cbn [st_bind gets lift ret modify extend];
    [rewrite Hslice; cbn [st_bind gets lift ret modify extend]|].
  all: destruct t eqn:Et; try congruence;
    cbn [st_bind gets lift ret modify extend obu_type ObuType.eqb]; unfold skip_obu;
    cbn [st_bind gets lift ret modify extend];
    try rewrite Hto; cbn [st_bind gets lift ret modify extend];
    rewrite Hfrom; cbn [st_bind gets lift ret modify extend];
    unfold ret; cbn [BitstreamParser.packet_out BitstreamParser.set_packet_out
      BitstreamParser.set_size BitstreamParser.set_seen_frame_header];
    rewrite <- ?app_assoc; reflexivity.
Qed.






Lemma slice_to_ok {A} (l : list A) n : 0 <= n <= Z.of_nat (length l) ->
  slice_to l n = Ok (firstn (Z.to_nat n) l).
Proof.
  intros H. unfold slice_to.
  replace ((0 <=? n) && (n <=? Z.of_nat (length l))) with true
    by (symmetry; apply andb_true_intro; split; apply Z.leb_le; lia). reflexivity.
Qed.

Lemma slice_from_ok {A} (l : list A) n : 0 <= n <= Z.of_nat (length l) ->
  slice_from l n = Ok (skipn (Z.to_nat n) l).
Proof.
  intros H. unfold slice_from.
  replace ((0 <=? n) && (n <=? Z.of_nat (length l))) with true
    by (symmetry; apply andb_true_intro; split; apply Z.leb_le; lia). reflexivity.
Qed.

Lemma slice_from_panic {A} (l : list A) n : Z.of_nat (length l) < n -> slice_from l n = Panic.
Proof.
  intros H. unfold slice_from.
  replace (n <=? Z.of_nat (length l)) with false by (symmetry; apply Z.leb_gt; lia).
  now rewrite andb_false_r.
Qed.

Lemma adjust_obu_size_spec pos leb_size new_obu_size s :
  0 <= pos -> 0 <= leb_size -> pos + leb_size <= len (BitstreamParser.packet_out s) ->
  let po := BitstreamParser.packet_out s in
  let s' := fst (adjust_obu_size pos leb_size new_obu_size s) in
  snd (adjust_obu_size pos leb_size new_obu_size s) = Ok tt /\
  firstn (Z.to_nat pos) (BitstreamParser.packet_out s') = firstn (Z.to_nat pos) po /\
  leb128 (skipn (Z.to_nat pos) (BitstreamParser.packet_out s')) =
    Ok (skipn (Z.to_nat (pos + leb_size)) po,
        mkReadResult (new_obu_size mod 2 ^ 32)
          (Z.of_nat (length (leb128_write (new_obu_size mod 2 ^ 32))))).
Proof.
  intros Hp Hl Hlen. unfold len in Hlen. cbv zeta.
  assert (Hfirst : length (firstn (Z.to_nat pos) (BitstreamParser.packet_out s)) = Z.to_nat pos)
    by (rewrite length_firstn; lia).
  unfold adjust_obu_size. cbn [st_bind gets lift ret modify].
  rewrite slice_to_ok by lia. cbn [st_bind gets lift ret modify].
  rewrite slice_from_ok by lia. cbn [st_bind gets lift ret modify fst snd].
  cbn [BitstreamParser.packet_out BitstreamParser.set_packet_out].
  split; [reflexivity|].
  assert (Hm : 0 <= new_obu_size mod 2 ^ 32 < 2 ^ 32) by (apply Z.mod_pos_bound; lia).
  split.
  - rewrite firstn_app, Hfirst, Nat.sub_diag, firstn_firstn, Nat.min_id. cbn [firstn].
    apply app_nil_r.
  - rewrite skipn_app, Hfirst, Nat.sub_diag, skipn_all2 by lia. cbn [skipn app].
    apply leb128_write_app. exact Hm.
Qed.

Lemma parse_tile_group_obu_one_tile WRITE input size ti s :
  tile_cols ti * tile_rows ti = 1 -> 0 <= size ->
  let s1 := BitstreamParser.set_seen_frame_header false s in
  parse_tile_group_obu WRITE input size ti s =
    if size <=? len input then
      (if WRITE then BitstreamParser.set_packet_out
                       (BitstreamParser.packet_out s1 ++ firstn (Z.to_nat size) input) s1
       else s1,
       Ok (skipn (Z.to_nat size) input, tt))
    else (s1, Panic).
Proof.
  intros H1 Hs s1. unfold parse_tile_group_obu, tile_group_header, bits.
  rewrite H1. cbn [st_bind lift ret obind Z.ltb Z.compare Z.eqb orb usize_sub Z.leb Z.sub
                   Z.add Z.pos_sub Z.opp bi_off bi_bytes Nat.eqb].
  cbn [st_bind lift ret modify]. fold s1.
  destruct (size <=? len input) eqn:E.
  - apply Z.leb_le in E. unfold len in E.
    destruct WRITE; cbn [st_bind lift ret modify extend];
      [rewrite slice_to_ok by lia; cbn [st_bind lift ret modify extend]|];
      rewrite slice_from_ok by (try rewrite length_app; lia); reflexivity.
  - apply Z.leb_gt in E. unfold len in E.
    destruct WRITE; cbn [st_bind lift ret modify extend].
    + unfold slice_to. replace (size <=? Z.of_nat (length input)) with false
        by (symmetry; apply Z.leb_gt; lia). rewrite andb_false_r. reflexivity.
    + rewrite slice_from_panic by lia. reflexivity.
Qed.

Lemma sequence_header_fields_reduced_panics b e rest :
  Z.testbit b 3 = true ->
  sequence_header_fields (mkBitInput (b :: e :: rest) 0) = Panic.
Proof.
  intros H3. unfold sequence_header_fields, take_bool_bit.
  take_byte. take_byte. take_byte. change (2 ^ 1) with 2.
  rewrite shiftr_mod2, H3 by lia. cbn [Z.b2z Z.ltb Z.compare].
  unfold take at 1. cbn [Nat.eqb bi_bytes bi_off length].
  destruct (read_bits 5 _ 0). reflexivity.
Qed.

Lemma parse_sequence_header_reduced_panics WRITE b e rest s :
  Z.testbit b 3 = true ->
  parse_sequence_header WRITE (b :: e :: rest) s = (s, Panic).
Proof.
  intros H3. unfold parse_sequence_header, bits_st. cbn [st_bind lift].
  rewrite sequence_header_fields_reduced_panics by exact H3. reflexivity.
Qed.

Lemma parse_obu_reduced_still_picture_panics WRITE h n b e rest s :
  Z.testbit h 7 = false -> Z.testbit h 2 = false -> Z.testbit h 0 = false ->
  Z.testbit h 1 = true -> ObuType.of_u4 (Z.shiftr h 3 mod 16) = ObuType.SequenceHeader ->
  0 <= n < 2 ^ 32 -> Z.testbit b 3 = true ->
  snd (parse_obu WRITE (h :: leb128_write n ++ b :: e :: rest) s) = Panic.
Proof.
  intros H7 H2 H0 H1 Ht Hn Hb.
  destruct (leb128_write_app n (b :: e :: rest) Hn) as [Hleb Hl].
  unfold parse_obu. cbn [st_bind gets lift ret].
  rewrite parse_obu_header_byte, H7, H0, H2, H1, Ht. cbn [has_size_field extension].
  rewrite Hleb. cbn [st_bind gets lift ret modify rr_value bytes_read].
  unfold not_in_operating_point. cbn [extension obu_type ObuType.eqb andb negb].
  destruct WRITE; cbn [st_bind gets lift ret modify extend];
    [rewrite slice_to_ok by (unfold len; cbn [length]; rewrite !length_app; cbn [length]; lia);
     cbn [st_bind gets lift ret modify extend]|];
    cbv [st_bind]; rewrite parse_sequence_header_reduced_panics by exact Hb; reflexivity.
Qed.

Lemma operating_points_loop_spec : forall n i dmi f dm oi i' dm' oi',
  operating_points_loop n i dmi f dm oi = Ok (i', (dm', oi')) ->
  length oi' = (length oi + n)%nat /\ length dm' = (length dm + n)%nat.
Proof.
  induction n as [|n IH]; intros i dmi f dm oi i' dm' oi' H; cbn [operating_points_loop] in H.
  - injection H as _ <- <-. split; lia.
  - ok_inv H; try discriminate.
    all: unfold push_capped in *;
      repeat match goal with
      | E : (if ?c then _ else _) = Ok _ |- _ =>
          destruct c; [injection E as <-|discriminate E]
      end;
      apply IH in H; rewrite !length_app in H; cbn [length] in H; lia.
Qed.

(** Peels every [let*], [if] and [Ok] equation in the context. *)
Ltac ok_all :=
  repeat match goal with
  | E : obind ?r _ = Ok _ |- _ =>
      let a := fresh "a" in let E' := fresh "E" in
      destruct r as [a| |] eqn:E'; cbn [obind] in E;
      [destr_prod a; cbn beta iota in E | discriminate E | discriminate E]
  | E : (if ?c then _ else _) = Ok _ |- _ =>
      let Ec := fresh "Ec" in destruct c eqn:Ec; cbn beta iota in E
  | E : Ok _ = Ok _ |- _ => injection E; clear E; intros; subst
  | E : Error _ = Ok _ |- _ => discriminate E
  | E : Panic = Ok _ |- _ => discriminate E
  end.

Lemma sequence_header_fields_spec input input' mk fgp :
  sequence_header_fields input = Ok (input', mk) ->
  let h := mk fgp in
  SequenceHeader.reduced_still_picture_header h = false /\
  0 <= SequenceHeader.operating_points_cnt_minus_1 h <= 31 /\
  length (SequenceHeader.operating_point_idc h) =
    Z.to_nat (SequenceHeader.operating_points_cnt_minus_1 h + 1) /\
  length (SequenceHeader.decoder_model_present_for_op h) =
    Z.to_nat (SequenceHeader.operating_points_cnt_minus_1 h + 1) /\
  nth_error (SequenceHeader.operating_point_idc h) 0 =
    Some (SequenceHeader.cur_operating_point_idc h) /\
  0 <= SequenceHeader.order_hint_bits h <= 8 /\
  SequenceHeader.film_grain_params_present h = fgp.
Proof.
  intros H h. unfold sequence_header_fields in H.
  ok_inv H; try discriminate.
  all: injection H as _ <-; subst h; cbn -[Z.to_nat].
  all: repeat match goal with
       | E : index _ _ = Ok _ |- _ => unfold index, unwrap in E; cbn [choose_operating_point] in E
       end.
  all: repeat match goal with
       | E : match nth_error ?l ?k with Some _ => _ | None => _ end = Ok _ |- _ =>
           destruct (nth_error l k) eqn:?; [injection E as <-|discriminate E]
       end.
  all: ok_all.
  all: try (cbn in *; discriminate).
  all: repeat match goal with
       | E : operating_points_loop _ _ _ _ _ _ = Ok _ |- _ => apply operating_points_loop_spec in E
       | E : take _ _ = Ok _ |- _ => apply take_bound in E
       end.
  all: cbn [length Nat.add Z.of_nat Pos.of_succ_nat] in *.
  all: change (2 ^ Z.of_nat 5) with 32 in *; try change (2 ^ Z.of_nat 3) with 8 in *.
  all: repeat split; auto; lia.
Qed.

Lemma color_config_spec input seq_profile input' c :
  color_config input seq_profile = Ok (input', c) ->
  0 <= color_range c <= 1 /\
  ((num_planes c = 1 /\ subsampling c = (1, 1) /\ separate_uv_delta_q c = false) \/
   (num_planes c = 3 /\ In (subsampling c) [(0, 0); (1, 0); (1, 1)])) /\
  (seq_profile = 1 -> num_planes c = 3 /\ subsampling c = (0, 0)).
Proof.
  intros H. unfold color_config, take_bool_bit, try_from_unwrap in H.
  ok_all.
  all: repeat match goal with
       | E : take _ _ = Ok _ |- _ => apply take_bound in E; change (2 ^ Z.of_nat 1) with 2 in E
       end.
  all: repeat match goal with
       | E : (_ && _)%bool = true |- _ => apply andb_prop in E; destruct E
       | E : (_ =? _) = true |- _ => apply Z.eqb_eq in E
       | E : (_ <=? _) = true |- _ => apply Z.leb_le in E
       | E : (_ <? _) = true |- _ => apply Z.ltb_lt in E
       | E : (_ <? _) = false |- _ => apply Z.ltb_ge in E
       | E : (_ =? _) = false |- _ => apply Z.eqb_neq in E
       end.
  all: cbn [color_range num_planes subsampling separate_uv_delta_q ColorRange_Full].
  all: unfold ColorRange_valid in *.
  all: try (repeat split; (lia || (left; repeat split; reflexivity) || (right; split; [reflexivity|]; simpl; tauto) || (intros; subst; discriminate) || idtac)).
  all: right; split; [reflexivity|];
    repeat match goal with
    | E : 0 <= ?v < 2 |- context [?v] =>
        assert (v = 0 \/ v = 1) as [-> | ->] by lia; clear E
    end; simpl; (tauto || lia).
Qed.

Lemma parse_sequence_header_fields WRITE input s s' rest h :
  parse_sequence_header WRITE input s = (s', Ok (rest, h)) ->
  exists i' mk fgp, sequence_header_fields (mkBitInput input 0) = Ok (i', mk) /\ h = mk fgp.
Proof.
  unfold parse_sequence_header, bits_st. cbv [st_bind lift gets ret extend modify].
  destruct (sequence_header_fields (mkBitInput input 0)) as [[i' mk]| |] eqn:E;
    [|intros H; discriminate H|intros H; discriminate H].
  intros H. exists i', mk.
  repeat (cbv beta iota in H; match type of H with
    | context [match ?r with Ok _ => _ | Error _ => _ | Panic => _ end] =>
        let a := fresh "a" in destruct r as [a| |]; [destr_prod a| |]; try discriminate H
    | context [if ?b then _ else _] => destruct b
    end).
  all: inversion H; subst; eauto.
Qed.

Lemma sequence_header_fields_color input input' mk fgp :
  sequence_header_fields input = Ok (input', mk) ->
  exists i1 i2 seq_profile,
    color_config i1 seq_profile = Ok (i2, SequenceHeader.color_config (mk fgp)).
Proof.
  intros H. unfold sequence_header_fields in H.
  ok_inv H; try discriminate.
  all: injection H as _ <-; cbn; eauto.
Qed.

Lemma parse_sequence_header_spec WRITE input s s' rest h :
  parse_sequence_header WRITE input s = (s', Ok (rest, h)) ->
  let c := SequenceHeader.color_config h in
  SequenceHeader.reduced_still_picture_header h = false /\
  0 <= SequenceHeader.operating_points_cnt_minus_1 h <= 31 /\
  length (SequenceHeader.operating_point_idc h) =
    Z.to_nat (SequenceHeader.operating_points_cnt_minus_1 h + 1) /\
  length (SequenceHeader.decoder_model_present_for_op h) =
    Z.to_nat (SequenceHeader.operating_points_cnt_minus_1 h + 1) /\
  nth_error (SequenceHeader.operating_point_idc h) 0 =
    Some (SequenceHeader.cur_operating_point_idc h) /\
  0 <= SequenceHeader.order_hint_bits h <= 8 /\
  0 <= color_range c <= 1 /\
  ((num_planes c = 1 /\ subsampling c = (1, 1) /\ separate_uv_delta_q c = false) \/
   (num_planes c = 3 /\ In (subsampling c) [(0, 0); (1, 0); (1, 1)])).
Proof.
  intros H c.
  destruct (parse_sequence_header_fields _ _ _ _ _ _ H) as (i' & mk & fgp & Hf & ->).
  destruct (sequence_header_fields_spec _ _ _ fgp Hf) as (? & ? & ? & ? & ? & ? & _).
  destruct (sequence_header_fields_color _ _ _ fgp Hf) as (i1 & i2 & prof & Hc).
  destruct (color_config_spec _ _ _ _ Hc) as (? & ? & _).
  subst c. repeat split; try assumption; lia.
Qed.

Lemma clamp_range v lo hi : lo <= hi -> lo <= clamp v lo hi <= hi.
Proof.
  unfold clamp. intros H.
  destruct (v <? lo) eqn:E1; [lia|]. destruct (hi <? v) eqn:E2; [lia|].
  apply Z.ltb_ge in E1, E2. lia.
Qed.

Lemma nth_error_list_set {A} (l : list A) i x k :
  nth_error (list_set l i x) k =
    if Nat.eqb k i then match nth_error l k with Some _ => Some x | None => None end
    else nth_error l k.
Proof.
  revert i k; induction l as [|h t IH]; intros [|i] [|k]; cbn; auto.
  all: destruct (Nat.eqb _ _); reflexivity.
Qed.

Lemma segmentation_feature_max_nonneg j : 0 <= nth j SEGMENTATION_FEATURE_MAX 0.
Proof.
  do 8 (destruct j as [|j]; [cbn; unfold MAX_LOOP_FILTER; lia|]).
  destruct j; cbn; lia.
Qed.

Lemma Forall_list_set {A} (P : A -> Prop) l i x :
  Forall P l -> (forall y, nth_error l i = Some y -> P x) -> Forall P (list_set l i x).
Proof.
  revert i; induction l as [|h t IH]; intros [|i] Hf Hx; cbn; auto.
  - inversion Hf; subst. constructor; [apply (Hx h)|]; auto.
  - inversion Hf; subst. constructor; auto.
Qed.

Lemma nth_error_nth_default {A} (l : list A) i y d : nth_error l i = Some y -> nth i l d = y.
Proof. intros H. apply nth_error_nth. exact H. Qed.

Lemma seg_set_ok d i j fv :
  seg_shape d -> seg_bounded d ->
  - nth j SEGMENTATION_FEATURE_MAX 0 <= fv <= nth j SEGMENTATION_FEATURE_MAX 0 ->
  (nth j SEGMENTATION_FEATURE_SIGNED false = false -> 0 <= fv) ->
  let d' := list_set d i (list_set (nth i d []) j (Some fv)) in
  seg_shape d' /\ seg_bounded d'.
Proof.
  intros [Hl Hf] Hb Hfv Hs d'. split; [split|].
  - subst d'. rewrite length_list_set. exact Hl.
  - apply Forall_list_set; [exact Hf|]. intros y Hy.
    rewrite length_list_set, (nth_error_nth_default _ _ _ [] Hy).
    rewrite Forall_forall in Hf. apply Hf. eapply nth_error_In. exact Hy.
  - intros k jj row v Hk Hj. subst d'.
    rewrite nth_error_list_set in Hk.
    destruct (Nat.eqb k i) eqn:Eki; [apply Nat.eqb_eq in Eki; subst k|].
    2: eapply Hb; eassumption.
    destruct (nth_error d i) as [r|] eqn:Er; [|discriminate Hk].
    injection Hk as <-.
    rewrite nth_error_list_set, (nth_error_nth_default _ _ _ [] Er) in Hj.
    destruct (Nat.eqb jj j) eqn:Ejj; [apply Nat.eqb_eq in Ejj; subst jj|].
    2: eapply Hb; eassumption.
    destruct (nth_error r j); [|discriminate Hj].
    injection Hj as <-. auto.
Qed.

Lemma segmentation_features_loop_inv : forall js i input d input' d',
  segmentation_features_loop i js input d = Ok (input', d') ->
  seg_shape d -> seg_bounded d -> seg_shape d' /\ seg_bounded d'.
Proof.
  induction js as [|j js IH]; intros i input d input' d' H Hs Hb.
  - cbn in H. injection H as _ <-. auto.
  - cbn [segmentation_features_loop] in H. unfold take_bool_bit in H.
    ok_inv H.
    match type of H with segmentation_features_loop _ _ _ ?d2 = _ =>
      enough (Hnew : seg_shape d2 /\ seg_bounded d2) by (eapply IH; [exact H|apply Hnew..]) end.
    clear H IH.
    ok_all.
    all: try (apply seg_set_ok; [assumption|assumption| |]).
    all: pose proof (segmentation_feature_max_nonneg j) as Hm.
    all: cbn [nth SEGMENTATION_FEATURE_MAX SEGMENTATION_FEATURE_SIGNED] in *.
    all: try (match goal with |- context [clamp ?v ?lo ?hi] =>
                pose proof (clamp_range v lo hi ltac:(lia)) end;
              first [lia | intros; congruence | intros; lia]).
    all: split; assumption.
Qed.

Lemma segmentation_segments_loop_inv : forall is input d input' d',
  segmentation_segments_loop is input d = Ok (input', d') ->
  seg_shape d -> seg_bounded d -> seg_shape d' /\ seg_bounded d'.
Proof.
  induction is as [|i is IH]; intros input d input' d' H Hs Hb.
  - cbn in H. injection H as _ <-. auto.
  - cbn [segmentation_segments_loop] in H. ok_inv H.
    destruct (segmentation_features_loop_inv _ _ _ _ _ _ E Hs Hb).
    eapply IH; eassumption.
Qed.

Lemma SegmentationData_default_ok :
  seg_shape SegmentationData_default /\ seg_bounded SegmentationData_default.
Proof.
  split; [split; [reflexivity|repeat constructor]|].
  intros i j row v Hi Hj.
  apply nth_error_In, repeat_spec in Hi. subst row.
  apply nth_error_In, repeat_spec in Hj. discriminate Hj.
Qed.

Lemma segmentation_params_bounded input primary_ref_frame input' d :
  segmentation_params input primary_ref_frame = Ok (input', Some d) ->
  length d = MAX_SEGMENTS /\ Forall (fun row => length row = SEG_LVL_MAX) d /\
  forall i j row v, nth_error d i = Some row -> nth_error row j = Some (Some v) ->
    - nth j SEGMENTATION_FEATURE_MAX 0 <= v <= nth j SEGMENTATION_FEATURE_MAX 0 /\
    (nth j SEGMENTATION_FEATURE_SIGNED false = false -> 0 <= v).
Proof.
  intros H. unfold segmentation_params in H.
  destruct SegmentationData_default_ok as [Hs0 Hb0].
  enough (Hd : seg_shape d /\ seg_bounded d) by (destruct Hd as [[? ?] ?]; auto).
  ok_inv H.
  injection H as _ Hd. destruct y; [|discriminate Hd]. injection Hd as ->.
  clear E. ok_inv E0.
  all: try (injection E0 as _ <-; auto).
  all: eapply segmentation_segments_loop_inv; eassumption.
Qed.

Lemma read_delta_q_range input input' v :
  read_delta_q input = Ok (input', v) -> -64 <= v < 64.
Proof.
  unfold read_delta_q. intros H. ok_inv H.
  - apply su_range in H; [|lia]. exact H.
  - injection H as _ <-. lia.
Qed.

Lemma quantization_params_spec input num_planes separate_uv_delta_q input' q :
  quantization_params input num_planes separate_uv_delta_q = Ok (input', q) ->
  0 <= base_q_idx q <= 255 /\
  -64 <= deltaq_y_dc q < 64 /\ -64 <= deltaq_u_dc q < 64 /\ -64 <= deltaq_u_ac q < 64 /\
  -64 <= deltaq_v_dc q < 64 /\ -64 <= deltaq_v_ac q < 64 /\
  (num_planes <= 1 -> deltaq_u_dc q = 0 /\ deltaq_u_ac q = 0 /\
                      deltaq_v_dc q = 0 /\ deltaq_v_ac q = 0) /\
  (separate_uv_delta_q = false ->
     deltaq_v_dc q = deltaq_u_dc q /\ deltaq_v_ac q = deltaq_u_ac q).
Proof.
  intros H. unfold quantization_params in H.
  ok_inv H.
  all: injection H as _ <-; cbn [base_q_idx deltaq_y_dc deltaq_u_dc deltaq_u_ac deltaq_v_dc deltaq_v_ac].
  all: ok_all.
  all: repeat match goal with
       | E : read_delta_q _ = Ok _ |- _ => apply read_delta_q_range in E
       | E : take 8 _ = Ok _ |- _ => apply take_bound in E; change (2 ^ Z.of_nat 8) with 256 in E
       | E : (_ <? _) = true |- _ => apply Z.ltb_lt in E
       | E : (_ <? _) = false |- _ => apply Z.ltb_ge in E
       end.
  all: repeat split; intros; try lia; try discriminate; try congruence.
Qed.

Lemma superres_params_spec input enable_superres frame_size upscaled_size input' fs' us' :
  superres_params input enable_superres frame_size upscaled_size = Ok (input', (fs', us')) ->
  0 <= width frame_size ->
  width us' = width frame_size /\ height us' = height upscaled_size /\
  height fs' = height frame_size /\
  width frame_size / 2 <= width fs' <= width frame_size /\
  (enable_superres = false -> input' = input /\ fs' = frame_size).
Proof.
  intros H Hw. unfold superres_params, SUPERRES_NUM, SUPERRES_DENOM_MIN in H.
  ok_inv H.
  all: injection H as <- <- <-; cbn [width height].
  all: ok_all.
  all: repeat match goal with
       | E : take _ _ = Ok _ |- _ => apply take_bound in E; unfold SUPERRES_DENOM_BITS in E;
                                     change (2 ^ Z.of_nat 3) with 8 in E
       end.
  all: repeat split; try reflexivity; try discriminate.
  all: change (8 / 2) with 4.
  all: try (destruct frame_size as [w h]; cbn [width height] in *; f_equal;
            rewrite Z.div_add_l by lia; change (4 / 8) with 0; lia).
  all: pose proof (Z.mul_div_le (width frame_size) 2 ltac:(lia)).
  all: try (rewrite Z.div_add_l by lia; change (4 / 8) with 0; lia).
  all: try (rewrite Z.div_add_l by lia; reflexivity).
  all: assert (0 <= (y1 + 9) / 2 < y1 + 9) by (split; [apply Z.div_pos | apply Z.div_lt]; lia).
  - apply Z.div_le_lower_bound; nia.
  - apply Z.lt_succ_r, Z.div_lt_upper_bound; nia.
Qed.

Lemma read_push_spec {A} : forall n (p : BitInput -> outcome (BitInput * A)) cap input acc input' l,
  read_push n p cap input acc = Ok (input', l) ->
  length l = (length acc + n)%nat /\ ((length acc <= cap)%nat -> (length l <= cap)%nat) /\
  exists extra, l = acc ++ extra.
Proof.
  induction n as [|n IH]; intros p cap input acc input' l H; cbn [read_push] in H.
  - injection H as _ <-. rewrite Nat.add_0_r. repeat split; auto. exists []. now rewrite app_nil_r.
  - ok_inv H. unfold push_capped in E0.
    destruct (Nat.ltb_spec (length acc) cap); [|discriminate E0].
    injection E0 as <-.
    destruct (IH _ _ _ _ _ _ H) as (Hl & Hc & extra & ->).
    rewrite !length_app in *. cbn [length] in *.
    repeat split; [lia|intros; apply Hc; lia|]. exists (y :: extra). now rewrite <- app_assoc.
Qed.

Lemma film_grain_params_update_spec input film_grain_allowed frame_type monochrome subsampling
  input' p :
  film_grain_params input film_grain_allowed frame_type monochrome subsampling =
    Ok (input', UpdateGrain p) ->
  let lag := ar_coeff_lag p in
  let num_pos_luma := Z.to_nat (2 * lag * (lag + 1)) in
  let ny := length (scaling_points_y p) in
  let num_pos_chroma := if (ny =? 0)%nat then num_pos_luma else S num_pos_luma in
  (ny <= NUM_Y_POINTS)%nat /\
  (length (scaling_points_cb p) <= NUM_UV_POINTS)%nat /\
  (length (scaling_points_cr p) <= NUM_UV_POINTS)%nat /\
  0 <= lag <= 3 /\
  length (ar_coeffs_y p) = (if (ny =? 0)%nat then 0 else num_pos_luma)%nat /\
  (if chroma_scaling_from_luma p || negb (length (scaling_points_cb p) =? 0)%nat
   then length (ar_coeffs_cb p) = num_pos_chroma else ar_coeffs_cb p = [0]) /\
  (if chroma_scaling_from_luma p || negb (length (scaling_points_cr p) =? 0)%nat
   then length (ar_coeffs_cr p) = num_pos_chroma else ar_coeffs_cr p = [0]) /\
  6 <= ar_coeff_shift p <= 9 /\ 0 <= grain_scale_shift p <= 3 /\
  (monochrome = true ->
     scaling_points_cb p = [] /\ scaling_points_cr p = [] /\
     chroma_scaling_from_luma p = false).
Proof.
  intros H. unfold film_grain_params in H.
  ok_inv H; try discriminate H.
  injection H as _ <-. cbv zeta.
  cbn [ar_coeff_lag scaling_points_y scaling_points_cb scaling_points_cr ar_coeffs_y
       ar_coeffs_cb ar_coeffs_cr ar_coeff_shift grain_scale_shift chroma_scaling_from_luma].
  apply read_push_spec in E3 as (Hy & Hycap & _). cbn [length] in Hy, Hycap. rewrite Nat.add_0_l in Hy.
  apply take_bound in E2, E7, E11, E12.
  change (2 ^ Z.of_nat 4) with 16 in E2. change (2 ^ Z.of_nat 2) with 4 in E7, E11, E12.
  unfold NUM_Y_POINTS, NUM_UV_POINTS, NUM_UV_COEFFS, NUM_Y_COEFFS in *.
  rewrite Hy.
  assert (Hny : (Z.to_nat y2 =? 0)%nat = negb (0 <? y2)).
  { destruct (Z.ltb_spec 0 y2); apply Nat.eqb_eq || apply Nat.eqb_neq; lia. }
  rewrite Hny.
  (* the chroma scaling points *)
  assert (Hcb : (length x6 <= 10)%nat /\ (length y7 <= 10)%nat /\
                (length x6 =? 0)%nat = negb (0 <? y5) /\ (length y7 =? 0)%nat = negb (0 <? y6) /\
                (monochrome = true -> x6 = [] /\ y7 = [])).
  { destruct (_ || _ || _) eqn:Ec in E5.
    - injection E5 as <- <- <- <-. cbn. repeat split; auto; lia.
    - ok_inv E5. injection E5 as <- <- <- <- <-.
      repeat match goal with
      | E : read_push _ read_point _ _ _ = Ok _ |- _ =>
          let Hl := fresh "Hl" in let Hc := fresh "Hc" in
          apply read_push_spec in E as (Hl & Hc & _); cbn [length] in Hl, Hc;
          rewrite Nat.add_0_l in Hl; specialize (Hc ltac:(lia)); rewrite Hl in *
      | E : take 4 _ = Ok _ |- _ => apply take_bound in E; change (2 ^ Z.of_nat 4) with 16 in E
      end.
      repeat split; try lia.
      all: try (match goal with |- (Z.to_nat ?v =? 0)%nat = _ =>
          destruct (Z.ltb_spec 0 v); apply Nat.eqb_eq || apply Nat.eqb_neq; lia end).
      all: first [ match goal with Hm : _ = true |- _ => rewrite Hm in Ec; discriminate Ec end
                 | simpl in Ec; discriminate Ec ]. }
  destruct Hcb as (Hcb & Hcr & -> & -> & Hmono).
  assert (Hm4 : monochrome = true -> y4 = false) by (intros ->; injection E4 as _ <-; reflexivity).
  (* the luma coefficients *)
  assert (Hly : length x10 = (if negb (0 <? y2) then 0%nat else Z.to_nat (2 * y9 * (y9 + 1))) /\
                y11 = 2 * y9 * (y9 + 1) + (if 0 <? y2 then 1 else 0)).
  { destruct (0 <? y2).
    - ok_inv E8. injection E8 as <- <- <-.
      match goal with E : read_push _ read_coeff _ _ _ = Ok _ |- _ =>
        apply read_push_spec in E as (-> & _) end.
      split; reflexivity.
    - injection E8 as <- <- <-. split; [reflexivity|].
      assert (Hd : forall z, match z with 0 => 0 | Z.pos y => Z.pos y~0 | Z.neg y => Z.neg y~0 end = 2 * z)
        by (intros []; reflexivity).
      rewrite Hd. lia. }
  destruct Hly as [Hly ->].
  assert (Hpos : Z.to_nat (2 * y9 * (y9 + 1) + (if 0 <? y2 then 1 else 0)) =
                  if negb (0 <? y2) then Z.to_nat (2 * y9 * (y9 + 1))
                  else S (Z.to_nat (2 * y9 * (y9 + 1)))).
  { destruct (0 <? y2); cbn [negb]; lia. }
  assert (Hc1 : forall (b : bool) (x x' : BitInput) (l : list Z), (if b then read_push (Z.to_nat (2 * y9 * (y9 + 1) + (if 0 <? y2 then 1 else 0)))
                                      read_coeff 25 x []
                                 else let* v := push_capped 25 [] 0 in Ok (x, v)) = Ok (x', l) ->
                if b then length l = (if negb (0 <? y2) then Z.to_nat (2 * y9 * (y9 + 1))
                                      else S (Z.to_nat (2 * y9 * (y9 + 1))))
                else l = [0]).
  { intros [|] xa xb l Hr.
    - apply read_push_spec in Hr as (-> & _). exact Hpos.
    - cbn in Hr. injection Hr as _ <-. reflexivity. }
  apply Hc1 in E9, E10.
  repeat split; try lia; auto.
  all: try (rewrite Bool.negb_involutive; assumption).
  all: destruct Hmono; [first [reflexivity | assumption]|]; assumption.
Qed.

Lemma parse_obu_tile_group_panics WRITE b n rest s :
  Z.testbit b 7 = false -> Z.testbit b 2 = false -> Z.testbit b 0 = false ->
  Z.testbit b 1 = true -> ObuType.of_u4 (Z.shiftr b 3 mod 16) = ObuType.TileGroup ->
  0 <= n < 2 ^ 32 ->
  snd (parse_obu WRITE (b :: leb128_write n ++ rest) s) = Panic.
Proof.
  intros H7 H2 H0 H1 Ht Hn.
  destruct (leb128_write_app n rest Hn) as [Hleb Hl].
  unfold parse_obu. cbn [st_bind gets lift ret].
  rewrite parse_obu_header_byte, H7, H0, H2, H1, Ht. cbn [has_size_field extension].
  rewrite Hleb. cbn [st_bind gets lift ret modify rr_value bytes_read].
  unfold not_in_operating_point. cbn [extension obu_type ObuType.eqb andb negb].
  destruct WRITE; cbn [st_bind gets lift ret modify extend];
    [rewrite slice_to_ok by (unfold len; cbn [length]; rewrite !length_app; lia);
     cbn [st_bind gets lift ret modify extend]|];
    reflexivity.
Qed.

Lemma land_shiftr_one_bit x k : 0 <= k -> Z.land (Z.shiftr x k) 1 = Z.b2z (Z.testbit x k).
Proof.
  intros Hk. change 1 with (Z.ones 1). rewrite Z.land_ones by lia.
  change (2 ^ 1) with 2. apply shiftr_mod2. exact Hk.
Qed.

Lemma parse_obu_outside_operating_point WRITE b e n payload rest s sh :
  Z.testbit b 7 = false -> Z.testbit b 2 = true -> Z.testbit b 0 = false ->
  Z.testbit b 1 = true -> 0 <= n < 2 ^ 32 -> length payload = Z.to_nat n ->
  let t := ObuType.of_u4 (Z.shiftr b 3 mod 16) in
  t <> ObuType.SequenceHeader -> t <> ObuType.TemporalDelimiter ->
  BitstreamParser.sequence_header s = Some sh ->
  let idc := SequenceHeader.cur_operating_point_idc sh in
  idc <> 0 ->
  Z.testbit idc (Z.shiftr e 5 mod 8) = false \/ Z.testbit idc (Z.shiftr e 3 mod 4 + 8) = false ->
  parse_obu WRITE (b :: e :: leb128_write n ++ payload ++ rest) s =
    (unparsed_obu_state WRITE t (b :: e :: leb128_write n ++ payload) n s, Ok (rest, None)).
Proof.
  intros H7 H2 H0 H1 Hn Hp t Hsh Htd Hs idc Hidc Hlayer.
  destruct (leb128_write_app n (payload ++ rest) Hn) as [Hleb Hl].
  unfold parse_obu. cbn [st_bind gets lift ret].
  rewrite parse_obu_header_byte, H7, H0, H2, H1. cbn [has_size_field extension].
  rewrite Hleb. cbn [st_bind gets lift ret modify rr_value bytes_read].
  set (lw := leb128_write n) in *.
  assert (Hslice : slice_to (b :: e :: lw ++ payload ++ rest)
                     (len (b :: e :: lw ++ payload ++ rest) - len (payload ++ rest)) = Ok (b :: e :: lw)).
  { rewrite slice_to_ok by (unfold len; cbn [length]; rewrite !length_app; lia).
    f_equal. unfold len. cbn [length]. rewrite !length_app.
    replace (Z.to_nat _) with (length (b :: e :: lw)) by (cbn [length]; lia).
    rewrite app_comm_cons, app_comm_cons, firstn_app, firstn_all, Nat.sub_diag.
    cbn [firstn]. now rewrite app_nil_r. }
  assert (Hto : slice_to (payload ++ rest) n = Ok payload).
  { rewrite slice_to_ok by (rewrite length_app; lia).
    rewrite <- Hp, firstn_app, firstn_all, Nat.sub_diag. cbn [firstn]. now rewrite app_nil_r. }
  assert (Hfrom : slice_from (payload ++ rest) n = Ok rest).
  { rewrite slice_from_ok by (rewrite length_app; lia).
    rewrite <- Hp, skipn_app, skipn_all, Nat.sub_diag. reflexivity. }
  assert (Hnot : not_in_operating_point
                   (mkObuHeader t true (Some (mkObuExtension (Z.shiftr e 5 mod 8) (Z.shiftr e 3 mod 4))))
                   (Some sh) = true).
  { unfold not_in_operating_point. cbn [obu_type extension temporal_id spatial_id].
    destruct t eqn:Et; try congruence; cbn [ObuType.eqb negb andb].
    all: fold idc; apply Z.eqb_neq in Hidc; rewrite Hidc; cbn [negb andb].
    all: rewrite !land_shiftr_one_bit by (pose proof (Z.mod_pos_bound (Z.shiftr e 5) 8);
                                     pose proof (Z.mod_pos_bound (Z.shiftr e 3) 4); lia).
    all: destruct Hlayer as [-> | ->]; cbn; [reflexivity|].
    all: destruct (Z.testbit idc _); reflexivity. }
  fold t.
  destruct WRITE; cbn [st_bind gets lift ret modify extend];
    [rewrite Hslice; cbn [st_bind gets lift ret modify extend]|].
  all: cbn [BitstreamParser.sequence_header BitstreamParser.set_size BitstreamParser.set_packet_out].
  all: try rewrite Hs.
  all: rewrite Hnot; unfold skip_obu; cbn [st_bind gets lift ret modify extend].
  all: try rewrite Hto; cbn [st_bind gets lift ret modify extend].
  all: rewrite Hfrom; cbn [st_bind gets lift ret modify extend].
  all: unfold unparsed_obu_state; destruct t eqn:Et; try congruence; cbn [ObuType.eqb].
  all: unfold ret; cbn [BitstreamParser.packet_out BitstreamParser.set_packet_out
      BitstreamParser.set_size]; rewrite <- ?app_assoc; reflexivity.
Qed.

(* ------------------------------------------------------------------ *)
(** ** Properties of the remaining parser code *)

(** [parse_obu_header] on a first byte [b]: it fails with a tag error
    when the forbidden bit (bit 7) or the reserved bit (bit 0) is set;
    otherwise it reads the type from bits 6..3 and the size flag from
    bit 1, and, when the extension flag (bit 2) is set, reads the
    temporal and spatial ids from the next byte, failing at end of input
    if there is none. *)
Theorem obu_header_first_byte b rest :
  parse_obu_header (b :: rest) =
    if Z.testbit b 7 then Error TagBits
    else if Z.testbit b 0 then Error TagBits
    else if Z.testbit b 2 then
      match rest with
      | [] => Error Eof
      | e :: rest' =>
          Ok (rest', mkObuHeader (ObuType.of_u4 (Z.shiftr b 3 mod 16)) (Z.testbit b 1)
                       (Some (mkObuExtension (Z.shiftr e 5 mod 8) (Z.shiftr e 3 mod 4))))
      end
    else Ok (rest, mkObuHeader (ObuType.of_u4 (Z.shiftr b 3 mod 16)) (Z.testbit b 1) None).
Proof. exact (parse_obu_header_byte b rest). Qed.

(** [floor_log2] of a positive 64-bit value is its base-2 logarithm
    rounded down. *)
Theorem floor_log2_exact x : 0 < x < 2 ^ 64 -> floor_log2 x = Ok (Z.log2 x).
Proof. exact (floor_log2_spec x). Qed.

(** A value read by [ns(n)] is always below [n]. *)
Theorem ns_value_below_n input n input' v : 1 <= n < 2 ^ 64 ->
  ns input n = Ok (input', v) -> 0 <= v < n.
Proof. exact (ns_range input n input' v). Qed.

(** A value read by [su(n)] is an [n]-bit two's complement value. *)
Theorem su_value_range input n input' v : (1 <= n)%nat ->
  su input n = Ok (input', v) -> - 2 ^ (Z.of_nat n - 1) <= v < 2 ^ (Z.of_nat n - 1).
Proof. exact (su_range input n input' v). Qed.

(** A value read by [uvlc] fits in 32 bits: 32 or more leading zeros give
    [u32::MAX]. *)
Theorem uvlc_value_range input input' v : uvlc input = Ok (input', v) -> 0 <= v <= 2 ^ 32 - 1.
Proof. exact (uvlc_range input input' v). Qed.

(** [get_relative_dist a b bits] is the difference [a - b] wrapped into
    the signed [bits]-bit range. *)
Theorem get_relative_dist_range a b bits : 1 <= bits ->
  - 2 ^ (bits - 1) <= get_relative_dist a b bits < 2 ^ (bits - 1) /\
  get_relative_dist a b bits mod 2 ^ bits = (a - b) mod 2 ^ bits.
Proof. exact (get_relative_dist_spec a b bits). Qed.


(** The LEB128 writer's bytes, followed by anything, are read back by
    the LEB128 reader as the value and the count written, and that count
    is between 1 and 5 for a 32-bit value. *)
Theorem leb128_write_then_read v rest : 0 <= v < 2 ^ 32 ->
  leb128 (leb128_write v ++ rest) =
    Ok (rest, mkReadResult v (Z.of_nat (length (leb128_write v)))) /\
  (1 <= length (leb128_write v) <= 5)%nat.
Proof. exact (leb128_write_app v rest). Qed.

(** [parse_obu] passes over a sized OBU without extension whose type is
    not a sequence header, frame header, frame or tile group: it returns
    no OBU and the bytes after its payload, sets [size] to the payload
    size, copies the OBU unchanged to [packet_out] when writing, and clears
    [seen_frame_header] for a temporal delimiter. *)
Theorem parse_obu_passes_over WRITE b n payload rest s :
  Z.testbit b 7 = false -> Z.testbit b 2 = false -> Z.testbit b 0 = false ->
  Z.testbit b 1 = true -> 0 <= n < 2 ^ 32 -> length payload = Z.to_nat n ->
  let t := ObuType.of_u4 (Z.shiftr b 3 mod 16) in
  t <> ObuType.SequenceHeader -> t <> ObuType.FrameHeader -> t <> ObuType.Frame ->
  t <> ObuType.TileGroup ->
  parse_obu WRITE (b :: leb128_write n ++ payload ++ rest) s =
    (unparsed_obu_state WRITE t (b :: leb128_write n ++ payload) n s, Ok (rest, None)).
Proof. exact (parse_obu_unparsed WRITE b n payload rest s). Qed.


(** [adjust_obu_size pos leb_size new_obu_size] succeeds when the old
    size field lies inside [packet_out]; it keeps the bytes before [pos],
    and the bytes from [pos] on read back as the LEB128 encoding of
    [new_obu_size] truncated to 32 bits, followed by what came after the
    old size field. *)
Theorem adjust_obu_size_rewrites_field pos leb_size new_obu_size s :
  0 <= pos -> 0 <= leb_size -> pos + leb_size <= len (BitstreamParser.packet_out s) ->
  let po := BitstreamParser.packet_out s in
  let s' := fst (adjust_obu_size pos leb_size new_obu_size s) in
  snd (adjust_obu_size pos leb_size new_obu_size s) = Ok tt /\
  firstn (Z.to_nat pos) (BitstreamParser.packet_out s') = firstn (Z.to_nat pos) po /\
  leb128 (skipn (Z.to_nat pos) (BitstreamParser.packet_out s')) =
    Ok (skipn (Z.to_nat (pos + leb_size)) po,
        mkReadResult (new_obu_size mod 2 ^ 32)
          (Z.of_nat (length (leb128_write (new_obu_size mod 2 ^ 32))))).
Proof. exact (adjust_obu_size_spec pos leb_size new_obu_size s). Qed.

(** With a single tile, [parse_tile_group_obu] clears
    [seen_frame_header] and skips [size] bytes, copying them to
    [packet_out] when writing; it panics when fewer than [size] bytes
    are left. *)
Theorem parse_tile_group_obu_single_tile WRITE input size ti s :
  tile_cols ti * tile_rows ti = 1 -> 0 <= size ->
  let s1 := BitstreamParser.set_seen_frame_header false s in
  parse_tile_group_obu WRITE input size ti s =
    if size <=? len input then
      (if WRITE then BitstreamParser.set_packet_out
                       (BitstreamParser.packet_out s1 ++ firstn (Z.to_nat size) input) s1
       else s1,
       Ok (skipn (Z.to_nat size) input, tt))
    else (s1, Panic).
Proof. exact (parse_tile_group_obu_one_tile WRITE input size ti s). Qed.

(** A sized sequence header OBU whose [reduced_still_picture_header]
    bit is set makes [parse_obu] panic. *)
Theorem parse_obu_reduced_still_picture WRITE h n b e rest s :
  Z.testbit h 7 = false -> Z.testbit h 2 = false -> Z.testbit h 0 = false ->
  Z.testbit h 1 = true -> ObuType.of_u4 (Z.shiftr h 3 mod 16) = ObuType.SequenceHeader ->
  0 <= n < 2 ^ 32 -> Z.testbit b 3 = true ->
  snd (parse_obu WRITE (h :: leb128_write n ++ b :: e :: rest) s) = Panic.
Proof. exact (parse_obu_reduced_still_picture_panics WRITE h n b e rest s). Qed.

(** A sequence header returned by [parse_sequence_header] is not a
    reduced still picture header, has 1 to 32 operating points with one
    [operating_point_idc] and one decoder-model flag each, takes the
    current operating point's idc from the first entry, has at most 8
    order hint bits, and its color config has a 0/1 color range and is
    either monochrome with 4:2:0 subsampling and no separate UV delta q,
    or has three planes with 4:4:4, 4:2:2 or 4:2:0 subsampling. *)
Theorem parse_sequence_header_shape WRITE input s s' rest h :
  parse_sequence_header WRITE input s = (s', Ok (rest, h)) ->
  let c := SequenceHeader.color_config h in
  SequenceHeader.reduced_still_picture_header h = false /\
  0 <= SequenceHeader.operating_points_cnt_minus_1 h <= 31 /\
  length (SequenceHeader.operating_point_idc h) =
    Z.to_nat (SequenceHeader.operating_points_cnt_minus_1 h + 1) /\
  length (SequenceHeader.decoder_model_present_for_op h) =
    Z.to_nat (SequenceHeader.operating_points_cnt_minus_1 h + 1) /\
  nth_error (SequenceHeader.operating_point_idc h) 0 =
    Some (SequenceHeader.cur_operating_point_idc h) /\
  0 <= SequenceHeader.order_hint_bits h <= 8 /\
  0 <= color_range c <= 1 /\
  ((num_planes c = 1 /\ subsampling c = (1, 1) /\ separate_uv_delta_q c = false) \/
   (num_planes c = 3 /\ In (subsampling c) [(0, 0); (1, 0); (1, 1)])).
Proof. exact (parse_sequence_header_spec WRITE input s s' rest h). Qed.

(** The segmentation data returned by [segmentation_params] has
    [MAX_SEGMENTS] rows of [SEG_LVL_MAX] entries, and every feature value
    [j] stored in it lies within [SEGMENTATION_FEATURE_MAX[j]] of zero and
    is non-negative for an unsigned feature. *)
Theorem segmentation_params_in_bounds input primary_ref_frame input' d :
  segmentation_params input primary_ref_frame = Ok (input', Some d) ->
  length d = MAX_SEGMENTS /\ Forall (fun row => length row = SEG_LVL_MAX) d /\
  forall i j row v, nth_error d i = Some row -> nth_error row j = Some (Some v) ->
    - nth j SEGMENTATION_FEATURE_MAX 0 <= v <= nth j SEGMENTATION_FEATURE_MAX 0 /\
    (nth j SEGMENTATION_FEATURE_SIGNED false = false -> 0 <= v).
Proof. exact (segmentation_params_bounded input primary_ref_frame input' d). Qed.

(** [quantization_params] returns a [base_q_idx] in [0, 255] and delta
    q values in [-64, 64); the U and V deltas are 0 for a single plane,
    and the V deltas equal the U deltas without [separate_uv_delta_q]. *)
Theorem quantization_params_ranges input num_planes separate_uv_delta_q input' q :
  quantization_params input num_planes separate_uv_delta_q = Ok (input', q) ->
  0 <= base_q_idx q <= 255 /\
  -64 <= deltaq_y_dc q < 64 /\ -64 <= deltaq_u_dc q < 64 /\ -64 <= deltaq_u_ac q < 64 /\
  -64 <= deltaq_v_dc q < 64 /\ -64 <= deltaq_v_ac q < 64 /\
  (num_planes <= 1 -> deltaq_u_dc q = 0 /\ deltaq_u_ac q = 0 /\
                      deltaq_v_dc q = 0 /\ deltaq_v_ac q = 0) /\
  (separate_uv_delta_q = false ->
     deltaq_v_dc q = deltaq_u_dc q /\ deltaq_v_ac q = deltaq_u_ac q).
Proof. exact (quantization_params_spec input num_planes separate_uv_delta_q input' q). Qed.

(** [superres_params] sets the upscaled width to the frame width and
    keeps both heights; the downscaled width is between half the frame
    width and the frame width; without [enable_superres] it reads nothing
    and keeps the frame size. *)
Theorem superres_params_sizes input enable_superres frame_size upscaled_size input' fs' us' :
  superres_params input enable_superres frame_size upscaled_size = Ok (input', (fs', us')) ->
  0 <= width frame_size ->
  width us' = width frame_size /\ height us' = height upscaled_size /\
  height fs' = height frame_size /\
  width frame_size / 2 <= width fs' <= width frame_size /\
  (enable_superres = false -> input' = input /\ fs' = frame_size).
Proof. exact (superres_params_spec input enable_superres frame_size upscaled_size input' fs' us'). Qed.

(** Film grain parameters returned as [UpdateGrain] by
    [film_grain_params] have at most 14 luma and 10 points per chroma
    plane, an AR lag of at most 3, one luma AR coefficient per luma
    position when there are luma points, one more per chroma plane that
    is scaled, and the single coefficient [0] for a chroma plane that is
    not; the AR shift is 6 to 9 and the grain scale shift at most 3; a
    monochrome stream has no chroma points and no chroma-from-luma
    scaling. *)
Theorem film_grain_params_update_shape input film_grain_allowed frame_type monochrome
  subsampling input' p :
  film_grain_params input film_grain_allowed frame_type monochrome subsampling =
    Ok (input', UpdateGrain p) ->
  let lag := ar_coeff_lag p in
  let num_pos_luma := Z.to_nat (2 * lag * (lag + 1)) in
  let ny := length (scaling_points_y p) in
  let num_pos_chroma := if (ny =? 0)%nat then num_pos_luma else S num_pos_luma in
  (ny <= NUM_Y_POINTS)%nat /\
  (length (scaling_points_cb p) <= NUM_UV_POINTS)%nat /\
  (length (scaling_points_cr p) <= NUM_UV_POINTS)%nat /\
  0 <= lag <= 3 /\
  length (ar_coeffs_y p) = (if (ny =? 0)%nat then 0 else num_pos_luma)%nat /\
  (if chroma_scaling_from_luma p || negb (length (scaling_points_cb p) =? 0)%nat
   then length (ar_coeffs_cb p) = num_pos_chroma else ar_coeffs_cb p = [0]) /\
  (if chroma_scaling_from_luma p || negb (length (scaling_points_cr p) =? 0)%nat
   then length (ar_coeffs_cr p) = num_pos_chroma else ar_coeffs_cr p = [0]) /\
  6 <= ar_coeff_shift p <= 9 /\ 0 <= grain_scale_shift p <= 3 /\
  (monochrome = true ->
     scaling_points_cb p = [] /\ scaling_points_cr p = [] /\
     chroma_scaling_from_luma p = false).
Proof.
  exact (film_grain_params_update_spec input film_grain_allowed frame_type monochrome
           subsampling input' p).
Qed.

(** A sized tile group OBU without extension makes [parse_obu] panic,
    whatever its payload. *)
Theorem parse_obu_tile_group_unreachable WRITE b n rest s :
  Z.testbit b 7 = false -> Z.testbit b 2 = false -> Z.testbit b 0 = false ->
  Z.testbit b 1 = true -> ObuType.of_u4 (Z.shiftr b 3 mod 16) = ObuType.TileGroup ->
  0 <= n < 2 ^ 32 ->
  snd (parse_obu WRITE (b :: leb128_write n ++ rest) s) = Panic.
Proof. exact (parse_obu_tile_group_panics WRITE b n rest s). Qed.

(** Once a sequence header with a non-zero current [operating_point_idc]
    is installed, [parse_obu] passes over a sized OBU with extension
    whose temporal or spatial layer is outside that operating point, of
    any type other than sequence header and temporal delimiter (frames
    and tile groups included): it returns no OBU, sets [size] and copies
    the OBU to [packet_out] when writing. *)
Theorem parse_obu_drops_outside_operating_point WRITE b e n payload rest s sh :
  Z.testbit b 7 = false -> Z.testbit b 2 = true -> Z.testbit b 0 = false ->
  Z.testbit b 1 = true -> 0 <= n < 2 ^ 32 -> length payload = Z.to_nat n ->
  let t := ObuType.of_u4 (Z.shiftr b 3 mod 16) in
  t <> ObuType.SequenceHeader -> t <> ObuType.TemporalDelimiter ->
  BitstreamParser.sequence_header s = Some sh ->
  let idc := SequenceHeader.cur_operating_point_idc sh in
  idc <> 0 ->
  Z.testbit idc (Z.shiftr e 5 mod 8) = false \/ Z.testbit idc (Z.shiftr e 3 mod 4 + 8) = false ->
  parse_obu WRITE (b :: e :: leb128_write n ++ payload ++ rest) s =
    (unparsed_obu_state WRITE t (b :: e :: leb128_write n ++ payload) n s, Ok (rest, None)).
Proof. exact (parse_obu_outside_operating_point WRITE b e n payload rest s sh). Qed.

(* ------------------------------------------------------------------ *)
(** ** The properties at concrete inputs *)

Ltac ne_tac := let H := fresh in intro H; vm_compute in H; discriminate H.

Lemma floor_log2_exact_witness : floor_log2 1000 = Ok (Z.log2 1000).
Proof. apply floor_log2_exact. vm_compute. split; reflexivity. Defined.

Lemma ns_value_below_n_witness :
  exists i' v, ns (mkBitInput [160] 0) 5 = Ok (i', v) /\ 0 <= v < 5.
Proof.
  destruct (ns (mkBitInput [160] 0) 5) as [[i' v]| |] eqn:E;
    pose proof E as E'; vm_compute in E'; try discriminate E'.
  exists i', v. split; [reflexivity|].
  apply (ns_value_below_n (mkBitInput [160] 0) 5 i' v); [vm_compute; split; [ne_tac|reflexivity]|exact E].
Defined.

Lemma su_value_range_witness :
  exists i' v, su (mkBitInput [160] 0) 4 = Ok (i', v) /\
    - 2 ^ (Z.of_nat 4 - 1) <= v < 2 ^ (Z.of_nat 4 - 1).
Proof.
  destruct (su (mkBitInput [160] 0) 4) as [[i' v]| |] eqn:E;
    pose proof E as E'; vm_compute in E'; try discriminate E'.
  exists i', v. split; [reflexivity|].
  apply (su_value_range (mkBitInput [160] 0) 4 i' v); [lia|exact E].
Defined.

Lemma uvlc_value_range_witness :
  exists i' v, uvlc (mkBitInput [64; 0] 0) = Ok (i', v) /\ 0 <= v <= 2 ^ 32 - 1.
Proof.
  destruct (uvlc (mkBitInput [64; 0] 0)) as [[i' v]| |] eqn:E;
    pose proof E as E'; vm_compute in E'; try discriminate E'.
  exists i', v. split; [reflexivity|].
  exact (uvlc_value_range (mkBitInput [64; 0] 0) i' v E).
Defined.

Lemma get_relative_dist_range_witness :
  - 2 ^ (7 - 1) <= get_relative_dist 3 100 7 < 2 ^ (7 - 1) /\
  get_relative_dist 3 100 7 mod 2 ^ 7 = (3 - 100) mod 2 ^ 7.
Proof. apply get_relative_dist_range. lia. Defined.


Lemma leb128_write_then_read_witness :
  leb128 (leb128_write 300 ++ [7]) =
    Ok ([7], mkReadResult 300 (Z.of_nat (length (leb128_write 300)))) /\
  (1 <= length (leb128_write 300) <= 5)%nat.
Proof. apply leb128_write_then_read. lia. Defined.

Lemma parse_obu_passes_over_witness :
  parse_obu true (122 :: leb128_write 1 ++ [0] ++ []) (BitstreamParser.with_writer false) =
    (unparsed_obu_state true ObuType.Padding (122 :: leb128_write 1 ++ [0]) 1
       (BitstreamParser.with_writer false), Ok ([], None)).
Proof.
  apply (parse_obu_passes_over true 122 1 [0] [] (BitstreamParser.with_writer false));
    try reflexivity; try lia; ne_tac.
Defined.


Lemma adjust_obu_size_rewrites_field_witness :
  let s := BitstreamParser.set_packet_out [122; 1; 0] (BitstreamParser.with_writer true) in
  let po := BitstreamParser.packet_out s in
  let s' := fst (adjust_obu_size 1 1 300 s) in
  snd (adjust_obu_size 1 1 300 s) = Ok tt /\
  firstn 1 (BitstreamParser.packet_out s') = firstn 1 po /\
  leb128 (skipn 1 (BitstreamParser.packet_out s')) =
    Ok (skipn (Z.to_nat (1 + 1)) po,
        mkReadResult (300 mod 2 ^ 32) (Z.of_nat (length (leb128_write (300 mod 2 ^ 32))))).
Proof. apply adjust_obu_size_rewrites_field; [lia|lia|vm_compute; ne_tac]. Defined.

Lemma parse_tile_group_obu_single_tile_witness :
  parse_tile_group_obu true [1; 2; 3] 2 (mkTileInfo 1 1 0 0) (BitstreamParser.with_writer true) =
    if 2 <=? len [1; 2; 3] then
      (BitstreamParser.set_packet_out
         (BitstreamParser.packet_out
            (BitstreamParser.set_seen_frame_header false (BitstreamParser.with_writer true))
          ++ firstn 2 [1; 2; 3])
         (BitstreamParser.set_seen_frame_header false (BitstreamParser.with_writer true)),
       Ok (skipn 2 [1; 2; 3], tt))
    else (BitstreamParser.set_seen_frame_header false (BitstreamParser.with_writer true), Panic).
Proof. apply (parse_tile_group_obu_single_tile true); [reflexivity|lia]. Defined.

Lemma parse_obu_reduced_still_picture_witness :
  snd (parse_obu true (10 :: leb128_write 2 ++ 8 :: 0 :: []) (BitstreamParser.with_writer true))
    = Panic.
Proof. apply parse_obu_reduced_still_picture; try reflexivity; lia. Defined.

Lemma parse_sequence_header_shape_witness :
  exists s' rest h,
    parse_sequence_header false [0; 0; 0; 1; 7; 128; 48; 152]
      (BitstreamParser.with_writer false) = (s', Ok (rest, h)) /\
    let c := SequenceHeader.color_config h in
    SequenceHeader.reduced_still_picture_header h = false /\
    0 <= SequenceHeader.operating_points_cnt_minus_1 h <= 31 /\
    length (SequenceHeader.operating_point_idc h) =
      Z.to_nat (SequenceHeader.operating_points_cnt_minus_1 h + 1) /\
    length (SequenceHeader.decoder_model_present_for_op h) =
      Z.to_nat (SequenceHeader.operating_points_cnt_minus_1 h + 1) /\
    nth_error (SequenceHeader.operating_point_idc h) 0 =
      Some (SequenceHeader.cur_operating_point_idc h) /\
    0 <= SequenceHeader.order_hint_bits h <= 8 /\
    0 <= color_range c <= 1 /\
    ((num_planes c = 1 /\ subsampling c = (1, 1) /\ separate_uv_delta_q c = false) \/
     (num_planes c = 3 /\ In (subsampling c) [(0, 0); (1, 0); (1, 1)])).
Proof.
  destruct (parse_sequence_header false [0; 0; 0; 1; 7; 128; 48; 152]
              (BitstreamParser.with_writer false)) as [s' [[rest h]| |]] eqn:E;
    pose proof E as E'; vm_compute in E'; try discriminate E'.
  exists s', rest, h. split; [reflexivity|].
  exact (parse_sequence_header_shape _ _ _ _ _ _ E).
Defined.

Lemma segmentation_params_in_bounds_witness :
  exists i' d,
    segmentation_params (mkBitInput [192; 64; 0; 0; 0; 0; 0; 0; 0; 0; 0; 0; 0; 0] 0)
      PRIMARY_REF_NONE = Ok (i', Some d) /\
    length d = MAX_SEGMENTS /\ Forall (fun row => length row = SEG_LVL_MAX) d /\
    forall i j row v, nth_error d i = Some row -> nth_error row j = Some (Some v) ->
      - nth j SEGMENTATION_FEATURE_MAX 0 <= v <= nth j SEGMENTATION_FEATURE_MAX 0 /\
      (nth j SEGMENTATION_FEATURE_SIGNED false = false -> 0 <= v).
Proof.
  destruct (segmentation_params (mkBitInput [192; 64; 0; 0; 0; 0; 0; 0; 0; 0; 0; 0; 0; 0] 0)
              PRIMARY_REF_NONE) as [[i' [d|]]| |] eqn:E;
    pose proof E as E'; vm_compute in E'; try discriminate E'.
  exists i', d. split; [reflexivity|].
  exact (segmentation_params_in_bounds _ _ _ _ E).
Defined.

Lemma quantization_params_ranges_witness :
  exists i' q,
    quantization_params (mkBitInput [128; 255; 0; 0; 0] 0) 3 false = Ok (i', q) /\
    0 <= base_q_idx q <= 255 /\
    -64 <= deltaq_y_dc q < 64 /\ -64 <= deltaq_u_dc q < 64 /\ -64 <= deltaq_u_ac q < 64 /\
    -64 <= deltaq_v_dc q < 64 /\ -64 <= deltaq_v_ac q < 64 /\
    (3 <= 1 -> deltaq_u_dc q = 0 /\ deltaq_u_ac q = 0 /\
               deltaq_v_dc q = 0 /\ deltaq_v_ac q = 0) /\
    (false = false -> deltaq_v_dc q = deltaq_u_dc q /\ deltaq_v_ac q = deltaq_u_ac q).
Proof.
  destruct (quantization_params (mkBitInput [128; 255; 0; 0; 0] 0) 3 false)
    as [[i' q]| |] eqn:E; pose proof E as E'; vm_compute in E'; try discriminate E'.
  exists i', q. split; [reflexivity|].
  exact (quantization_params_ranges _ _ _ _ _ E).
Defined.

Lemma superres_params_sizes_witness :
  exists i' fs' us',
    superres_params (mkBitInput [128] 0) true (mkDimensions 100 50) (mkDimensions 0 0)
      = Ok (i', (fs', us')) /\
    width us' = 100 /\ height us' = 0 /\ height fs' = 50 /\
    100 / 2 <= width fs' <= 100 /\ (true = false -> i' = mkBitInput [128] 0 /\
                                     fs' = mkDimensions 100 50).
Proof.
  destruct (superres_params (mkBitInput [128] 0) true (mkDimensions 100 50) (mkDimensions 0 0))
    as [[i' [fs' us']]| |] eqn:E; pose proof E as E'; vm_compute in E'; try discriminate E'.
  exists i', fs', us'. split; [reflexivity|].
  exact (superres_params_sizes _ _ _ _ _ _ _ E ltac:(vm_compute; ne_tac)).
Defined.

Lemma film_grain_params_update_shape_witness :
  exists i' p,
    film_grain_params (mkBitInput [128; 0; 6; 0] 0) true Key true (1, 1)
      = Ok (i', UpdateGrain p) /\
    let lag := ar_coeff_lag p in
    let num_pos_luma := Z.to_nat (2 * lag * (lag + 1)) in
    let ny := length (scaling_points_y p) in
    let num_pos_chroma := if (ny =? 0)%nat then num_pos_luma else S num_pos_luma in
    (ny <= NUM_Y_POINTS)%nat /\
    (length (scaling_points_cb p) <= NUM_UV_POINTS)%nat /\
    (length (scaling_points_cr p) <= NUM_UV_POINTS)%nat /\
    0 <= lag <= 3 /\
    length (ar_coeffs_y p) = (if (ny =? 0)%nat then 0 else num_pos_luma)%nat /\
    (if chroma_scaling_from_luma p || negb (length (scaling_points_cb p) =? 0)%nat
     then length (ar_coeffs_cb p) = num_pos_chroma else ar_coeffs_cb p = [0]) /\
    (if chroma_scaling_from_luma p || negb (length (scaling_points_cr p) =? 0)%nat
     then length (ar_coeffs_cr p) = num_pos_chroma else ar_coeffs_cr p = [0]) /\
    6 <= ar_coeff_shift p <= 9 /\ 0 <= grain_scale_shift p <= 3 /\
    (true = true ->
       scaling_points_cb p = [] /\ scaling_points_cr p = [] /\
       chroma_scaling_from_luma p = false).
Proof.
  destruct (film_grain_params (mkBitInput [128; 0; 6; 0] 0) true Key true (1, 1))
    as [[i' [| |p]]| |] eqn:E; pose proof E as E'; vm_compute in E'; try discriminate E'.
  exists i', p. split; [reflexivity|].
  exact (film_grain_params_update_shape _ _ _ _ _ _ _ E).
Defined.

Lemma parse_obu_tile_group_unreachable_witness :
  snd (parse_obu false (34 :: leb128_write 0 ++ []) (BitstreamParser.with_writer false)) = Panic.
Proof. apply parse_obu_tile_group_unreachable; try reflexivity; lia. Defined.

Lemma parse_obu_drops_outside_operating_point_witness :
  parse_obu true (126 :: 32 :: leb128_write 1 ++ [0] ++ []) example_operating_point_state =
    (unparsed_obu_state true ObuType.Padding (126 :: 32 :: leb128_write 1 ++ [0]) 1
       example_operating_point_state, Ok ([], None)).
Proof.
  apply (parse_obu_drops_outside_operating_point true 126 32 1 [0] []
           example_operating_point_state example_operating_point_header);
    try reflexivity; try lia; try ne_tac.
  left. reflexivity.
Defined.
